(** * nn_gaze_class: saccade / fixation extraction and session metadata

    A shallow embedding of [filter_behavior.py] and of the readers and
    loaders of [load_data.py].  numpy arrays of float64 are lists of
    primitive binary64 floats, N x 2 arrays are lists of pairs, Python
    dictionaries are finite maps from strings to Python values, and a Python
    call that may raise is a computation in the [result] monad.  Where a
    function changes a list of dictionaries that its caller keeps, the list
    is threaded through as a store. *)

From Stdlib Require Import ZArith List Bool Lia Floats.
From stdpp Require Import base option list strings gmap sorting.

Local Open Scope nat_scope.

(** ** Python values, exceptions and the error monad *)

Inductive pyval :=
| PNone
| PInt (n : Z)
| PFloat (x : float)
| PStr (s : string)
| PFloats (xs : list float)
| PObj (o : list float).

Abbreviation dict := (gmap string pyval).

Inductive exn :=
| AssertionError
| ValueError
| KeyError
| TypeError
| IndexError
| OtherError (msg : string).

Inductive result (A : Type) :=
| Ok (a : A)
| Raise (e : exn).
Arguments Ok {A} a.
Arguments Raise {A} e.

Global Instance result_ret : MRet result := @Ok.
Global Instance result_bind : MBind result :=
  λ A B f m, match m with Ok a => f a | Raise e => Raise e end.
Global Instance result_fmap : FMap result :=
  λ A B f m, match m with Ok a => Ok (f a) | Raise e => Raise e end.

(** [assert c] *)
Definition py_assert (c : bool) : result unit :=
  if c then Ok tt else Raise AssertionError.

(** [d[k]] on a dict *)
Definition dict_get (d : dict) (k : string) : result pyval :=
  match d !! k with
  | Some v => Ok v
  | None => Raise KeyError
  end.

(** [v[i]] where [v] is expected to hold a list of numbers: [None[i]] is a
    TypeError, an index past the end an IndexError. *)
Definition py_index (v : pyval) (i : nat) : result float :=
  match v with
  | PFloats xs =>
      match xs !! i with
      | Some x => Ok x
      | None => Raise IndexError
      end
  | _ => Raise TypeError
  end.

(** a value used as a float64 scalar *)
Definition as_float (v : pyval) : result float :=
  match v with
  | PFloat x => Ok x
  | _ => Raise TypeError
  end.

(** [range(v)]: negative counts give the empty range, a value that is not an
    integer is a TypeError. *)
Definition py_range (v : pyval) : result (list nat) :=
  match v with
  | PInt n => Ok (seq 0 (Z.to_nat n))
  | _ => Raise TypeError
  end.

(** a monadic left fold: the body of a [for] loop threaded through its state *)
Fixpoint foldM {S A : Type} (body : S → A → result S) (st : S) (xs : list A)
  : result S :=
  match xs with
  | [] => Ok st
  | x :: xs' => st' ← body st x; foldM body st' xs'
  end.

(** ** numpy on one-dimensional float64 arrays *)

Definition float_of_nat (n : nat) : float :=
  PrimFloat.of_uint63 (Uint63.of_Z (Z.of_nat n)).

(** [f[i]], read inside bounds only *)
Definition at_ (f : list float) (i : nat) : float := nth i f PrimFloat.zero.

(** [np.gradient(f)] with the default unit spacing and [edge_order=1]:
    central differences inside, one-sided differences at both ends, and a
    ValueError when [f] has fewer than two samples. *)
Definition gradient_at (f : list float) (i : nat) : float :=
  let n := length f in
  if i =? 0 then
    PrimFloat.div (PrimFloat.sub (at_ f 1) (at_ f 0)) PrimFloat.one
  else if i =? n - 1 then
    PrimFloat.div (PrimFloat.sub (at_ f (n - 1)) (at_ f (n - 2))) PrimFloat.one
  else
    PrimFloat.div (PrimFloat.sub (at_ f (i + 1)) (at_ f (i - 1)))
                  (PrimFloat.mul PrimFloat.two PrimFloat.one).

Definition np_gradient (f : list float) : result (list float) :=
  if length f <? 2 then Raise ValueError
  else Ok (map (gradient_at f) (seq 0 (length f))).

(** [a + b] on arrays of one dimension: equal shapes add elementwise, a
    one-element array broadcasts, other shapes are a ValueError. *)
Definition np_add (a b : list float) : result (list float) :=
  if length a =? length b then Ok (zip_with PrimFloat.add a b)
  else match a, b with
       | [x], _ => Ok (map (PrimFloat.add x) b)
       | _, [y] => Ok (map (λ x, PrimFloat.add x y) a)
       | _, _ => Raise ValueError
       end.

(** [a[mask]] / [a[mask, :]] with a boolean mask along the first axis: the
    mask must have the length of the array (IndexError otherwise). *)
Fixpoint mask_select {A : Type} (a : list A) (mask : list bool) : list A :=
  match a, mask with
  | x :: a', b :: mask' =>
      if b then x :: mask_select a' mask' else mask_select a' mask'
  | _, _ => []
  end.

Definition np_bool_index {A : Type} (a : list A) (mask : list bool)
  : result (list A) :=
  if length mask =? length a then Ok (mask_select a mask)
  else Raise IndexError.

(** [l[start:stop]] for non-negative bounds *)
Definition py_slice {A : Type} (l : list A) (start stop : nat) : list A :=
  take (stop - start) (drop start l).

(** ** util: the helpers of the repository that the two files import *)

(** Modelled from the spec: [util.find_islands(mask, min_length=1)], whose
    module [util] is not embedded.  It returns the maximal contiguous runs of
    [true] of the mask whose length is at least [min_length], as (start, stop)
    index pairs with the stop index inclusive, in increasing order; the empty
    mask gives the empty list. *)
Fixpoint islands_from (mask : list bool) (i : nat) (cur : option nat)
  : list (nat * nat) :=
  match mask with
  | [] =>
      match cur with
      | Some s => [(s, i - 1)]
      | None => []
      end
  | true :: mask' => islands_from mask' (S i) (Some (default i cur))
  | false :: mask' =>
      match cur with
      | Some s => (s, i - 1) :: islands_from mask' (S i) None
      | None => islands_from mask' (S i) None
      end
  end.

Definition island_length (se : nat * nat) : nat := se.2 - se.1 + 1.

Definition find_islands (mask : list bool) (min_length : nat)
  : list (nat * nat) :=
  List.filter (λ se, min_length <=? island_length se) (islands_from mask 0 None).

(** what a maximal run of [true] is, for stating what [find_islands] returns *)
Definition is_island (mask : list bool) (s e : nat) : Prop :=
  s ≤ e ∧ e < length mask ∧
  (∀ i, s ≤ i ≤ e → mask !! i = Some true) ∧
  (s = 0 ∨ mask !! (s - 1) = Some false) ∧
  (e = length mask - 1 ∨ mask !! (e + 1) = Some false).

(** ** filter_behavior.py: saccade detection *)

Definition saccade : Type := list (float * float).

(** a label is the Python list [[category, session_identifier, run]] *)
Definition label : Type := pyval * nat * nat.

(** [defaults.fetch_default_saccade_pars()]: the module [defaults] is not
    embedded; the three entries the code reads are taken as given. *)
Record saccade_pars := {
  vel_thresh : float * float;
  min_samples : nat;
  smooth_func : list float → result (list float)
}.

Definition find_saccades (x y : list float) (sr : float)
    (vel_thresh : float * float) (min_samples : nat)
    (smooth_func : list float → result (list float))
  : result (list (nat * nat)) :=
  _ ← py_assert (length x =? length y);
  x0 ← smooth_func x;
  y0 ← smooth_func y;
  gx ← np_gradient x0;
  let vx := map (λ g, PrimFloat.div g sr) gx in
  gy ← np_gradient y0;
  let vy := map (λ g, PrimFloat.div g sr) gy in
  sq ← np_add (map (λ v, PrimFloat.mul v v) vx) (map (λ v, PrimFloat.mul v v) vy);
  let vel_norm := map PrimFloat.sqrt sq in
  let above_thresh :=
    map (λ v, PrimFloat.leb vel_thresh.1 v && PrimFloat.leb v vel_thresh.2)
        vel_norm in
  Ok (find_islands above_thresh min_samples).

(** the index pairs are those [find_islands] returns: natural numbers *)
Definition extract_saccade_positions (run_positions : list (float * float))
    (saccade_start_stops : list (nat * nat)) : list saccade :=
  map (λ '(start, stop), py_slice run_positions start (stop + 1))
      saccade_start_stops.

(** [(time_vec > run_start) & (time_vec <= run_stop)] *)
Definition run_time (time_vec : list float) (run_start run_stop : float)
  : list bool :=
  map (λ t, PrimFloat.ltb run_start t && PrimFloat.leb t run_stop) time_vec.

(** lines 218-219: the samples of one run,
    [positions[(time_vec > run_start) & (time_vec <= run_stop), :]] *)
Definition select_run (positions : list (float * float)) (time_vec : list float)
    (run_start run_stop : float) : result (list (float * float)) :=
  np_bool_index positions (run_time time_vec run_start run_stop).

(** [n_runs - 1] *)
Definition py_pred (v : pyval) : result pyval :=
  match v with
  | PInt n => Ok (PInt (n - 1))
  | PFloat x => Ok (PFloat (PrimFloat.sub x PrimFloat.one))
  | _ => Raise TypeError
  end.

Section Pipeline.

(** the pixel-to-degree transform of one value *)
Variable px2deg_value : float → float.

(** Modelled from the spec: [util.px2deg], whose module [util] is not
    embedded.  It applies one fixed pixel-to-degree transform to every value
    of the array it is given, here an array of one dimension. *)
Definition px2deg (values : list float) : list float :=
  map px2deg_value values.

(** Modelled from the spec: [util.px2deg] on an N x 2 array of positions. *)
Definition px2deg_2d (values : list (float * float)) : list (float * float) :=
  map (λ p, (px2deg_value p.1, px2deg_value p.2)) values.

(** [util.create_timevec(n_samples, sampling_rate)], [fix.is_fixation] and
    the default saccade parameters belong to modules that are not embedded;
    the functions below are stated for any of them. *)
Variable create_timevec : nat → float → list float.
Variable fetch_default_saccade_pars : saccade_pars.
Variable is_fixation :
  list (float * float) → list float → float → result (list bool).

(** lines 220-223: the saccades found in the samples selected for a run *)
Definition found_in_selection (sampling_rate : float)
    (run_positions : list (float * float)) : result (list saccade) :=
  let saccade_params := fetch_default_saccade_pars in
  let run_x := px2deg (map fst run_positions) in
  let run_y := px2deg (map snd run_positions) in
  saccade_start_stops ←
    find_saccades run_x run_y sampling_rate (vel_thresh saccade_params)
                  (min_samples saccade_params) (smooth_func saccade_params);
  Ok (extract_saccade_positions run_positions saccade_start_stops).

(** lines 216-223: the saccades found in one run of one session *)
Definition saccades_in_run (positions : list (float * float))
    (time_vec : list float) (sampling_rate : float) (info : dict)
    (run : nat) : result (list saccade) :=
  startS ← dict_get info "startS";
  run_start ← py_index startS run;
  stopS ← dict_get info "stopS";
  run_stop ← py_index stopS run;
  run_positions ← select_run positions time_vec run_start run_stop;
  found_in_selection sampling_rate run_positions.

(** the body of [for run in range(n_runs)] on the two output lists *)
Definition run_step (positions : list (float * float)) (time_vec : list float)
    (sampling_rate : float) (info : dict) (category : pyval)
    (session_identifier : nat)
    (st : list saccade * list label) (run : nat)
  : result (list saccade * list label) :=
  saccades_in_run ← saccades_in_run positions time_vec sampling_rate info run;
  let n_saccades := length saccades_in_run in
  Ok (st.1 ++ saccades_in_run,
      st.2 ++ replicate n_saccades (category, session_identifier, run)).

(** the body of [for session in labelled_gaze_positions]; the state is
    [(saccades, saccade_labels, session_identifier)].  [sampling_rate] is
    written by the loader as [float(mat_data['M1FS'])] and is read here as
    a float64. *)
Definition session_step (st : list saccade * list label * nat)
    (session : list (float * float) * dict)
  : result (list saccade * list label * nat) :=
  let '(saccades, saccade_labels, session_identifier) := st in
  let session_identifier := session_identifier + 1 in
  let positions := session.1 in
  let info := session.2 in
  sampling_rate ← dict_get info "sampling_rate" ≫= as_float;
  let n_samples := length positions in
  let time_vec := create_timevec n_samples sampling_rate in
  category ← dict_get info "category";
  n_runs ← dict_get info "num_runs";
  runs ← py_range n_runs;
  '(saccades, saccade_labels) ←
    foldM (run_step positions time_vec sampling_rate info category
                    session_identifier)
          (saccades, saccade_labels) runs;
  Ok (saccades, saccade_labels, session_identifier).

(** the two loops of [extract_saccades_with_labels], before its final
    assertion *)
Definition extract_saccades_loop
    (labelled_gaze_positions : list (list (float * float) * dict))
  : result (list saccade * list label * nat) :=
  foldM session_step ([], [], 0) labelled_gaze_positions.

Definition extract_saccades_with_labels
    (labelled_gaze_positions : list (list (float * float) * dict))
  : result (list saccade * list label) :=
  '(saccades, saccade_labels, _) ← extract_saccades_loop labelled_gaze_positions;
  _ ← py_assert (length saccades =? length saccade_labels);
  Ok (saccades, saccade_labels).

(** ** filter_behavior.py: the unfinished fixation extraction *)

(** one iteration of the session loop; the state is [session_identifier],
    the value returned besides it is the local [fixation_labels] as the
    iteration leaves it. *)
Definition fixation_session_step (session_identifier : nat)
    (session : list (float * float) * dict)
  : result (nat * list (list pyval)) :=
  let session_identifier := session_identifier + 1 in
  let positions := session.1 in
  let info := session.2 in
  sampling_rate ← dict_get info "sampling_rate" ≫= as_float;
  let n_samples := length positions in
  let time_vec := create_timevec n_samples sampling_rate in
  category ← dict_get info "category";
  n_runs ← dict_get info "num_runs";
  n_intervals ← py_pred n_runs;
  fix_vec_entire_session ←
    is_fixation (px2deg_2d positions) time_vec sampling_rate;
  let fixation_indices := find_islands fix_vec_entire_session 1 in
  let fixation_labels : list (list pyval) := [] in
  _ ← foldM (λ (_ : unit) (start_stop : nat * nat),
               session ← dict_get info "session"; Ok tt)
            tt fixation_indices;
  Ok (session_identifier, fixation_labels).

(** the function has no [return]: it yields [None] *)
Definition extract_fixations_with_labels
    (labelled_gaze_positions : list (list (float * float) * dict))
  : result pyval :=
  _ ← foldM (λ sid session, fst <$> fixation_session_step sid session)
            0 labelled_gaze_positions;
  Ok PNone.

End Pipeline.

(** ** The saccade detector and the labelling in the words of the
    specification, to compare the code with *)

(** the velocity norm of sample [i]: the Euclidean norm of the two gradients
    divided by the sampling rate *)
Definition velocity_norm (x0 y0 : list float) (sr : float) (i : nat) : float :=
  let vx := PrimFloat.div (gradient_at x0 i) sr in
  let vy := PrimFloat.div (gradient_at y0 i) sr in
  PrimFloat.sqrt (PrimFloat.add (PrimFloat.mul vx vx) (PrimFloat.mul vy vy)).

(** [lo <= v <= hi], both ends included *)
Definition in_band (lo hi v : float) : bool :=
  PrimFloat.leb lo v && PrimFloat.leb v hi.

Definition marked_samples (x0 y0 : list float) (sr lo hi : float) : list bool :=
  map (λ i, in_band lo hi (velocity_norm x0 y0 sr i)) (seq 0 (length x0)).

(** the indices [i] with [run_start < time_vec[i] <= run_stop] *)
Definition selected_indices (time_vec : list float) (run_start run_stop : float)
  : list nat :=
  List.filter (λ i, match time_vec !! i with
                    | Some t => PrimFloat.ltb run_start t && PrimFloat.leb t run_stop
                    | None => false
                    end)
              (seq 0 (length time_vec)).

(** the rows [start .. stop] of an array, the stop index included *)
Definition rows_between {A : Type} (a : list A) (start stop : nat) : list A :=
  omap (λ i, a !! i) (seq start (stop + 1 - start)).

(** the saccades of the runs of one session, run after run, every run taken
    from the samples whose time stamp [t] satisfies [start < t <= stop] *)
Definition selected_per_run (px2deg_value : float → float)
    (create_timevec : nat → float → list float) (pars : saccade_pars)
    (session : list (float * float) * dict) (per_run : list (list saccade))
  : Prop :=
  ∃ sr category n,
    session.2 !! "sampling_rate" = Some (PFloat sr) ∧
    session.2 !! "category" = Some category ∧
    session.2 !! "num_runs" = Some (PInt n) ∧
    Forall2 (λ run found,
               ∃ startS stopS start stop,
                 session.2 !! "startS" = Some (PFloats startS) ∧
                 startS !! run = Some start ∧
                 session.2 !! "stopS" = Some (PFloats stopS) ∧
                 stopS !! run = Some stop ∧
                 length (create_timevec (length session.1) sr)
                   = length session.1 ∧
                 found_in_selection px2deg_value pars sr
                   (omap (λ i, session.1 !! i)
                      (selected_indices (create_timevec (length session.1) sr)
                                        start stop))
                   = Ok found)
            (seq 0 (Z.to_nat n)) per_run.

Section Labelling.

Variable px2deg_value : float → float.
Variable create_timevec : nat → float → list float.
Variable fetch_default_saccade_pars : saccade_pars.

(** every saccade of one run with its label *)
Definition labelled_run (positions : list (float * float))
    (time_vec : list float) (sampling_rate : float) (info : dict)
    (category : pyval) (ordinal run : nat)
  : result (list (saccade * label)) :=
  found ← saccades_in_run px2deg_value fetch_default_saccade_pars
                          positions time_vec sampling_rate info run;
  Ok (map (λ s, (s, (category, ordinal, run))) found).

(** every saccade of one session, the session being the [ordinal]-th *)
Definition labelled_session (ordinal : nat)
    (session : list (float * float) * dict)
  : result (list (saccade * label)) :=
  sampling_rate ← dict_get session.2 "sampling_rate" ≫= as_float;
  let time_vec := create_timevec (length session.1) sampling_rate in
  category ← dict_get session.2 "category";
  n_runs ← dict_get session.2 "num_runs";
  runs ← py_range n_runs;
  per_run ← mapM (labelled_run session.1 time_vec sampling_rate session.2
                               category ordinal) runs;
  Ok (concat per_run).

(** every saccade of every session, the sessions counted from [first] *)
Fixpoint labelled_sessions (first : nat)
    (sessions : list (list (float * float) * dict))
  : result (list (saccade * label)) :=
  match sessions with
  | [] => Ok []
  | session :: rest =>
      here ← labelled_session first session;
      after ← labelled_sessions (S first) rest;
      Ok (here ++ after)
  end.

End Labelling.

(** ** filter_behavior.py: dose categories *)

Definition row : Type := float * float.

(** numpy orders float64 for sorting with NaN after every number:
    [a < b || (b != b && a == a)]. *)
Definition np_lt (a b : float) : bool :=
  PrimFloat.ltb a b || (negb (PrimFloat.eqb b b) && PrimFloat.eqb a a).

Definition np_compare (a b : float) : comparison :=
  if np_lt a b then Lt else if np_lt b a then Gt else Eq.

(** rows are sorted as records, field after field *)
Definition row_compare (a b : row) : comparison :=
  match np_compare a.1 b.1 with
  | Eq => np_compare a.2 b.2
  | c => c
  end.

(** [(a == b).all()] on two rows; [a != b] on the sorted records is its
    negation *)
Definition row_eqb (a b : row) : bool :=
  PrimFloat.eqb a.1 b.1 && PrimFloat.eqb a.2 b.2.

Fixpoint insert_row (r : row) (l : list row) : list row :=
  match l with
  | [] => [r]
  | x :: l' =>
      match row_compare r x with
      | Gt => x :: insert_row r l'
      | _ => r :: x :: l'
      end
  end.

Definition sort_rows (rows : list row) : list row := foldr insert_row [] rows.

(** [mask[:1] = True; mask[1:] = aux[1:] != aux[:-1]; aux[mask]] *)
Fixpoint drop_repeats (prev : row) (aux : list row) : list row :=
  match aux with
  | [] => []
  | r :: aux' =>
      if row_eqb r prev then drop_repeats r aux'
      else r :: drop_repeats r aux'
  end.

(** [np.unique(otnal_doses, axis=0)]: the rows sorted, each kept when it
    differs from the row before it.  Rows that compare equal without being
    the same bits (0.0 and -0.0) are represented by one of them. *)
Definition np_unique_rows (rows : list row) : list row :=
  match sort_rows rows with
  | [] => []
  | r :: aux => r :: drop_repeats r aux
  end.

(** [np.where((otnal_doses == row).all(axis=1))[0]] *)
Definition np_where_rows (otnal_doses : list row) (r : row) : list nat :=
  List.filter (λ j, match otnal_doses !! j with
                    | Some d => row_eqb d r
                    | None => false
                    end)
              (seq 0 (length otnal_doses)).

(** [session_category[indices] = category]; the array is float64 and starts
    as NaN everywhere: [None] is NaN, [Some i] the float of category [i]. *)
Definition assign_category (session_category : list (option nat))
    (indices : list nat) (category : nat) : list (option nat) :=
  foldr (λ j acc, <[j := Some category]> acc) session_category indices.

Definition get_unique_doses (otnal_doses : list row)
  : list row * list (list nat) * list (option nat) :=
  let unique_rows := np_unique_rows otnal_doses in
  let indices_for_unique_rows : list (list nat) := [] in
  let session_category := replicate (length otnal_doses) (@None nat) in
  let '(indices_for_unique_rows, session_category) :=
    fold_left
      (λ '(indices_for_unique_rows, session_category) '(i, r),
         let category := i in
         let indices_for_row := np_where_rows otnal_doses r in
         (indices_for_unique_rows ++ [indices_for_row],
          assign_category session_category indices_for_row category))
      (imap pair unique_rows)
      (indices_for_unique_rows, session_category) in
  (unique_rows, indices_for_unique_rows, session_category).

(** what it means for a dose matrix to hold numbers only *)
Definition no_nan_row (r : row) : bool :=
  PrimFloat.eqb r.1 r.1 && PrimFloat.eqb r.2 r.2.

(** the distinct rows of a matrix, each at its first occurrence *)
Fixpoint distinct_rows (rows : list row) : list row :=
  match rows with
  | [] => []
  | r :: rows' =>
      r :: List.filter (λ d, negb (row_eqb d r)) (distinct_rows rows')
  end.

(** ** Session metadata from the files of a session folder *)

(** What the code sees of the file system and of the .mat container: the
    paths a glob pattern matches, the folder name of a path, and what each
    [try] block gets out of a file: the exception it raises, [None] where
    the block tests for it and takes its [else] branch, or the fields it
    reads.  In [extract_meta_info] a file without the variable [info] makes
    [info[0][0]] raise: it is one of the exceptions of [load_info]. *)
Record mat_env := {
  glob : string → list string;
  basename : string → string;
  exn_text : exn → string;
  load_info : string → result (option (pyval * pyval * float * float));
  load_runs : string → result (option (list float * list float));
  load_landmarks : string → result (option (pyval * pyval * pyval * pyval))
}.

Definition none_info : dict :=
  {[ "monkey_1" := PNone ]} ∪ {[ "monkey_2" := PNone ]} ∪
  {[ "OT_dose" := PNone ]} ∪ {[ "NAL_dose" := PNone ]}.

Definition none_runs : dict :=
  {[ "startS" := PNone ]} ∪ {[ "stopS" := PNone ]} ∪ {[ "num_runs" := PInt 0 ]}.

Definition none_bboxes : dict :=
  {[ "eye_bbox" := PNone ]} ∪ {[ "face_bbox" := PNone ]} ∪
  {[ "left_obj_bbox" := PNone ]} ∪ {[ "right_obj_bbox" := PNone ]}.

(** the line feed that starts the messages of [load_data.py] *)
Definition nl : string := String (Ascii.ascii_of_nat 10) EmptyString.

(** [meta_info.update(d)] *)
Definition dict_update (meta_info d : dict) : dict := d ∪ meta_info.

Section Metadata.

Variable env : mat_env.

(** lines 37-57: returns what is printed and the updated [meta_info] *)
Definition meta_info_step (session_path : string) (meta_info : dict)
  : list string * dict :=
  let file_list_info := glob env (session_path +:+ "/*metaInfo.mat") in
  match file_list_info with
  | [file_path_info] =>
      match load_info env file_path_info with
      | Ok (Some (monkey_1, monkey_2, OT_dose, NAL_dose)) =>
          ([], dict_update meta_info
                 ({[ "monkey_1" := monkey_1 ]} ∪ {[ "monkey_2" := monkey_2 ]} ∪
                  {[ "OT_dose" := PFloat OT_dose ]} ∪
                  {[ "NAL_dose" := PFloat NAL_dose ]}))
      | Ok None => ([], dict_update meta_info none_info)
      | Raise e =>
          (["Error loading meta_info for folder: " +:+ session_path +:+ ": "
              +:+ exn_text env e],
           dict_update meta_info none_info)
      end
  | _ =>
      (["Warning: No metaInfo found in folder: " +:+ session_path +:+ "."],
       dict_update meta_info none_info)
  end.

(** lines 58-75 *)
Definition meta_runs_step (session_path : string) (meta_info : dict)
  : list string * dict :=
  let file_list_runs := glob env (session_path +:+ "/*runs.mat") in
  match file_list_runs with
  | [file_path_runs] =>
      match load_runs env file_path_runs with
      | Ok (Some (startS, stopS)) =>
          let num_runs := length startS in
          ([], dict_update meta_info
                 ({[ "startS" := PFloats startS ]} ∪
                  {[ "stopS" := PFloats stopS ]} ∪
                  {[ "num_runs" := PInt (Z.of_nat num_runs) ]}))
      | Ok None => ([], dict_update meta_info none_runs)
      | Raise e =>
          (["Error loading runs for folder: " +:+ session_path +:+ ": "
              +:+ exn_text env e],
           dict_update meta_info none_runs)
      end
  | _ =>
      (["Warning: No runs found in folder: " +:+ session_path +:+ "."],
       dict_update meta_info none_runs)
  end.

(** lines 76-93 *)
Definition meta_landmarks_step (session_path : string) (meta_info : dict)
  : list string * dict :=
  let file_list_m1_landmarks :=
    glob env (session_path +:+ "/*M1_farPlaneCal.mat") in
  match file_list_m1_landmarks with
  | [file_m1_landmarks] =>
      match load_landmarks env file_m1_landmarks with
      | Ok (Some (eye_bbox, face_bbox, left_obj_bbox, right_obj_bbox)) =>
          ([], dict_update meta_info
                 ({[ "eye_bbox" := eye_bbox ]} ∪ {[ "face_bbox" := face_bbox ]} ∪
                  {[ "left_obj_bbox" := left_obj_bbox ]} ∪
                  {[ "right_obj_bbox" := right_obj_bbox ]}))
      | Ok None => ([], dict_update meta_info none_bboxes)
      | Raise e =>
          (["Error loading m1_landmarks for folder: " +:+ session_path +:+ ": "
              +:+ exn_text env e],
           dict_update meta_info none_bboxes)
      end
  | _ =>
      (["Warning: No m1_landmarks found in folder: " +:+ session_path +:+ "."],
       dict_update meta_info none_bboxes)
  end.

(** one iteration of the loop over [session_paths] *)
Definition meta_info_of_session (session_path : string)
  : list string * dict :=
  let session_name := basename env session_path in
  let meta_info : dict := {[ "session_name" := PStr session_name ]} in
  let '(out1, meta_info) := meta_info_step session_path meta_info in
  let '(out2, meta_info) := meta_runs_step session_path meta_info in
  let '(out3, meta_info) := meta_landmarks_step session_path meta_info in
  (out1 ++ out2 ++ out3, meta_info).

(** [extract_meta_info]: the lines printed, and [meta_info_list] *)
Definition extract_meta_info (session_paths : list string)
  : list string * list dict :=
  fold_left
    (λ '(out, meta_info_list) session_path,
       let '(lines, meta_info) := meta_info_of_session session_path in
       (out ++ lines, meta_info_list ++ [meta_info]))
    session_paths ([], []).

(** [load_data.get_runs_data]: the lines printed, and the dict returned *)
Definition get_runs_data (session_path : string) : list string * dict :=
  let file_list_runs := glob env (session_path +:+ "/*runs.mat") in
  match file_list_runs with
  | [file_runs] =>
      match load_runs env file_runs with
      | Ok (Some (startS, stopS)) =>
          ([], {[ "startS" := PFloats startS ]} ∪
               {[ "stopS" := PFloats stopS ]} ∪
               {[ "num_runs" := PInt (Z.of_nat (length startS)) ]})
      | Ok None => ([], ∅)
      | Raise e =>
          ([nl +:+ "Error loading runs for folder: " +:+ session_path +:+ ": "
              +:+ exn_text env e],
           ∅)
      end
  | _ =>
      ([nl +:+ "Warning: No runs found in folder: " +:+ session_path +:+ "."],
       ∅)
  end.

End Metadata.

(** ** Notions used in the statements *)

(** *** Comparing floats *)

(** the comparison of two floats as the IEEE 754 specification of the
    standard library gives it: [None] when one of them is NaN *)
Definition fcmp (a b : float) : option comparison :=
  SFcompare (Prim2SF a) (Prim2SF b).

(** [SFcompare] compares mantissas with [Pos.compare_cont Eq]: show it as
    [Pos.compare] *)
Ltac fold_pos_compare :=
  repeat match goal with
    | |- context [Pos.compare_cont Eq ?a ?b] =>
        change (Pos.compare_cont Eq a b) with (Pos.compare a b)
    end.

(** *** Islands *)

(** the loop invariant of [islands_from]: [cur] is the start of the run of
    [true] that ends just before index [length pre] *)
Definition islands_inv (pre : list bool) (cur : option nat) : Prop :=
  match cur with
  | Some s =>
      s < length pre ∧ (∀ j, s ≤ j < length pre → pre !! j = Some true) ∧
      (s = 0 ∨ pre !! (s - 1) = Some false)
  | None => length pre = 0 ∨ pre !! (length pre - 1) = Some false
  end.

(** *** Dose rows *)

(** a row without NaN *)
Definition valid_row (r : row) : Prop := no_nan_row r = true.

Definition row_le (a b : row) : Prop := row_compare a b ≠ Gt.

Definition row_lt (a b : row) : Prop := row_compare a b = Lt.

(** the category vector after the loop has gone through [unique_rows],
    the first of them being category [k] *)
Fixpoint categories_after (otnal_doses unique_rows : list row) (k : nat)
    (session_category : list (option nat)) : list (option nat) :=
  match unique_rows with
  | [] => session_category
  | r :: rest =>
      categories_after otnal_doses rest (S k)
        (assign_category session_category (np_where_rows otnal_doses r) k)
  end.

(** *** Metadata files *)

(** a metadata file that is missing, duplicated, or that the [try] block
    fails on *)
Definition unusable {A : Type} (files : list string)
    (load : string → result (option A)) : bool :=
  match files with
  | [file] => match load file with Raise _ => true | Ok _ => false end
  | _ => true
  end.

(** the keys each of the three steps writes *)
Definition info_keys : list string :=
  ["monkey_1"; "monkey_2"; "OT_dose"; "NAL_dose"].

Definition runs_keys : list string := ["startS"; "stopS"; "num_runs"].

Definition bbox_keys : list string :=
  ["eye_bbox"; "face_bbox"; "left_obj_bbox"; "right_obj_bbox"].

(** from [k ∉ [k1; ...; kn]] to the [n] inequalities, and back *)
Ltac split_keys H :=
  repeat (apply not_elem_of_cons in H as [? H]).

Ltac solve_not_key :=
  repeat (apply not_elem_of_cons; split; [done|]); apply not_elem_of_nil.

(** one printed line for an unusable file, none otherwise *)
Definition flag (b : bool) : nat := if b then 1 else 0.

(** [meta_info.update({'sampling_rate': sampling_rate, 'category': category})],
    as [extract_labelled_gaze_positions_m1] and
    [get_labelled_gaze_positions_dict_m1] do *)
Definition with_rate_and_category (meta_info : dict) (sampling_rate : float)
    (category : pyval) : dict :=
  dict_update meta_info
    ({[ "sampling_rate" := PFloat sampling_rate ]} ∪ {[ "category" := category ]}).

(** ** Example data *)

(** a time vector [arange(n_samples) / sampling_rate] *)
Definition arange_timevec (n_samples : nat) (sampling_rate : float) : list float :=
  map (λ k, PrimFloat.div (float_of_nat k) sampling_rate) (seq 0 n_samples).

Definition identity_smooth (values : list float) : result (list float) :=
  Ok values.

(** a smoothing function that raises whenever it is called *)
Definition failing_smooth (values : list float) : result (list float) :=
  Raise (OtherError "smoothing was called").

Definition example_pars : saccade_pars :=
  {| vel_thresh := (5%float, 100%float);
     min_samples := 1;
     smooth_func := identity_smooth |}.

(** a horizontal trace of eleven samples with three jumps *)
Definition example_x : list float := [0; 0; 0; 10; 10; 10; 0; 0; 0; 0; 20]%float.

Definition example_y : list float := map (λ _, 0%float) example_x.

Definition example_positions : list (float * float) :=
  map (λ x, (x, 0%float)) example_x.

(** the metadata of a session sampled at 1 Hz, of category 7.0 *)
Definition example_info (num_runs : Z) (startS stopS : list float) : dict :=
  {[ "sampling_rate" := PFloat 1%float ]} ∪ {[ "category" := PFloat 7%float ]} ∪
  {[ "num_runs" := PInt num_runs ]} ∪ {[ "startS" := PFloats startS ]} ∪
  {[ "stopS" := PFloats stopS ]}.

(** two sessions of two runs each *)
Definition example_sessions : list (list (float * float) * dict) :=
  [(example_positions, example_info 2 [0; 4]%float [4; 9]%float);
   (example_positions, example_info 2 [0; 4]%float [4; 9]%float)].

(** session folders that hold no file at all *)
Definition empty_folder_env : mat_env :=
  {| glob := λ _, [];
     basename := λ p, p;
     exn_text := λ _, "error";
     load_info := λ _, Raise (OtherError "no file");
     load_runs := λ _, Raise (OtherError "no file");
     load_landmarks := λ _, Raise (OtherError "no file") |}.

(** a fixation classifier that marks every sample *)
Definition always_fixating (positions : list (float * float))
    (time_vec : list float) (sampling_rate : float) : result (list bool) :=
  Ok (map (λ _, true) time_vec).

(** the [info] of a session as [extract_meta_info] and the loader build it *)
Definition pipeline_info : dict :=
  with_rate_and_category (meta_info_of_session empty_folder_env "session_01").2
                         1%float (PFloat 0%float).

(** the dose matrix of the specification's scenario, and one with a NaN *)
Definition example_doses : list row := [(1, 0); (1, 0); (0, 1)]%float.

Definition nan_doses : list row := [(1, 0); (nan, 0); (1, 0)]%float.

(** ** Inputs on which the saccade extraction returns *)

(** a session on which the loops cannot raise: the keys the loop reads are
    there with the types the loaders write, the time vector has one stamp per
    sample, and every run selects at least two samples *)
Definition session_ready (create_timevec : nat → float → list float)
    (session : list (float * float) * dict) : Prop :=
  ∃ sr category n startS stopS,
    session.2 !! "sampling_rate" = Some (PFloat sr) ∧
    session.2 !! "category" = Some category ∧
    session.2 !! "num_runs" = Some (PInt n) ∧
    session.2 !! "startS" = Some (PFloats startS) ∧
    session.2 !! "stopS" = Some (PFloats stopS) ∧
    length (create_timevec (length session.1) sr) = length session.1 ∧
    ∀ run, run < Z.to_nat n →
      ∃ start stop,
        startS !! run = Some start ∧ stopS !! run = Some stop ∧
        2 ≤ length (selected_indices (create_timevec (length session.1) sr)
                                     start stop).

(** a smoothing function that returns as many samples as it is given *)
Definition keeps_length (smooth : list float → result (list float)) : Prop :=
  ∀ values, ∃ smoothed, smooth values = Ok smoothed ∧
                        length smoothed = length values.

(** ** Indexing, membership and stacking as the loaders use them *)

(** the place [l[idx]] reads, for an integer index: a negative index counts
    from the end, an index outside [-len(l), len(l)) is an IndexError *)
Definition py_position {A : Type} (l : list A) (idx : Z) : result nat :=
  let n := Z.of_nat (length l) in
  if (0 <=? idx)%Z && (idx <? n)%Z then Ok (Z.to_nat idx)
  else if (- n <=? idx)%Z && (idx <? 0)%Z then Ok (Z.to_nat (n + idx))
  else Raise IndexError.

(** [l[idx]] on a list or on an array of one dimension *)
Definition py_getitem {A : Type} (l : list A) (idx : Z) : result A :=
  place ← py_position l idx;
  match l !! place with
  | Some x => Ok x
  | None => Raise IndexError
  end.

(** [sub in s] on two strings *)
Fixpoint py_in (sub s : string) : bool :=
  String.prefix sub s ||
  match s with
  | EmptyString => false
  | String _ s' => py_in sub s'
  end.

(** [np.column_stack((a, b))] on two arrays of one dimension: the rows
    [(a[i], b[i])], a ValueError when the lengths differ *)
Definition np_column_stack (a b : list float) : result (list (float * float)) :=
  if length a =? length b then Ok (zip a b) else Raise ValueError.

(** ** Gaze files: [extract_labelled_gaze_positions_m1] and
    [get_labelled_gaze_positions_dict_m1] *)

(** What the two loaders see of the file system and of a gaze file: the
    names [os.listdir] gives or the exception it raises, the path functions,
    the text of an exception, and what the first lines of the [try] block
    read from a file: [float(mat_data['M1FS'])], [mat_data['M1Xpx'].squeeze()]
    and [mat_data['M1Ypx'].squeeze()], or the exception raised on the way. *)
Record gaze_env := {
  listdir : string → result (list string);
  path_join : string → string → string;
  path_basename : string → string;
  error_text : exn → string;
  load_gaze : string → result (float * list float * list float)
}.

(** the positions of a session with its metadata *)
Definition gaze_session : Type := list (float * float) * dict.

(** The dictionaries of [meta_info_list] are objects the caller shares with
    the list that is returned: [meta_info = meta_info_list[idx]] copies
    nothing, and [meta_info.update] changes the caller's dictionary.  The
    loaders below therefore thread [meta_info_list] as a store of
    dictionaries, taken to be separate objects as [extract_meta_info] builds
    them, and a loaded session holds the place of its dictionary in the
    store. *)
Definition gaze_ref : Type := list (float * float) * nat.

(** what the caller sees in a loaded session once the loader has returned *)
Definition deref (meta_info_list : list dict) (session : gaze_ref)
  : gaze_session :=
  (session.1, default ∅ (meta_info_list !! session.2)).

Section Loaders.

Variable env : gaze_env.

(** [util.map_coord_to_eyelink_space], of a module that is not embedded *)
Variable map_coord_to_eyelink_space : float * float → result (float * float).

(** the file part of the [try] blocks: [loadmat] up to [np.column_stack] *)
Definition read_gaze (mat_file_path : string)
  : result (float * list (float * float)) :=
  '(sampling_rate, M1Xpx, M1Ypx) ← load_gaze env mat_file_path;
  gaze_positions ← np_column_stack M1Xpx M1Ypx;
  Ok (sampling_rate, gaze_positions).

(** the metadata part of the [try] blocks:
    [meta_info = meta_info_list[idx]] and the dictionary
    [meta_info.update({'sampling_rate': ..., 'category': session_categories[idx]})]
    leaves in its place *)
Definition updated_meta_info (meta_info_list : list dict)
    (session_categories : list pyval) (idx : Z) (sampling_rate : float)
  : result (nat * dict) :=
  place ← py_position meta_info_list idx;
  meta_info ← py_getitem meta_info_list idx;
  category ← py_getitem session_categories idx;
  Ok (place, with_rate_and_category meta_info sampling_rate category).

(** [filter_behavior.py], lines 139-161: the body of the loop over the
    indices of one dose.  The state is what has been printed, the store of
    dictionaries and the list built so far. *)
Definition labelled_step (session_paths : list string)
    (session_categories : list pyval)
    (st : list string * list dict * list gaze_ref) (idx : Z)
  : result (list string * list dict * list gaze_ref) :=
  let '(out, meta_info_list, labelled_gaze_positions) := st in
  folder_path ← py_getitem session_paths idx;
  names ← listdir env folder_path;
  let mat_files := List.filter (py_in "M1_gaze.mat") names in
  match mat_files with
  | [mat_file] =>
      let mat_file_path := path_join env folder_path mat_file in
      let mat_file_name := path_basename env mat_file_path in
      match
        '(sampling_rate, gaze_positions) ← read_gaze mat_file_path;
        '(place, meta_info) ←
          updated_meta_info meta_info_list session_categories idx sampling_rate;
        Ok (gaze_positions, place, meta_info)
      with
      | Ok (gaze_positions, place, meta_info) =>
          Ok (out, <[place := meta_info]> meta_info_list,
              labelled_gaze_positions ++ [(gaze_positions, place)])
      | Raise e =>
          Ok (out ++ ["Error loading file '" +:+ mat_file_name +:+ "': "
                        +:+ error_text env e],
              meta_info_list, labelled_gaze_positions)
      end
  | _ =>
      Ok (out ++ ["Error: Multiple or no '*_M1_gaze.mat' files found in folder: "
                    +:+ folder_path],
          meta_info_list, labelled_gaze_positions)
  end.

(** the two loops of [extract_labelled_gaze_positions_m1]; [zip] stops at
    the shorter of [unique_doses] and [dose_inds] *)
Definition extract_labelled_loop (unique_doses : list row)
    (dose_inds : list (list Z)) (meta_info_list : list dict)
    (session_paths : list string) (session_categories : list pyval)
  : result (list string * list dict * list gaze_ref) :=
  foldM (λ st '(dose, indices_list),
           foldM (labelled_step session_paths session_categories) st
                 indices_list)
        ([], meta_info_list, []) (zip unique_doses dose_inds).

(** [extract_labelled_gaze_positions_m1]: the lines printed,
    [meta_info_list] as the call leaves it, and the list returned as the
    caller sees it *)
Definition extract_labelled_gaze_positions_m1 (unique_doses : list row)
    (dose_inds : list (list Z)) (meta_info_list : list dict)
    (session_paths : list string) (session_categories : list pyval)
  : result (list string * list dict * list gaze_session) :=
  '(out, meta_info_list, labelled_gaze_positions) ←
    extract_labelled_loop unique_doses dose_inds meta_info_list session_paths
                          session_categories;
  Ok (out, meta_info_list, map (deref meta_info_list) labelled_gaze_positions).

(** [load_data.get_labelled_gaze_positions_dict_m1]: the lines printed,
    [meta_info_list] as the call leaves it, and the value returned: [None],
    or the positions with the place of the dictionary returned *)
Definition get_labelled_gaze_positions_dict_m1 (folder_path : string)
    (meta_info_list : list dict) (session_categories : list pyval) (idx : Z)
    (map_gaze_pos_coord_to_eyelink_space : bool)
  : result (list string * list dict * option gaze_ref) :=
  names ← listdir env folder_path;
  let mat_files := List.filter (py_in "M1_gaze_regForm.mat") names in
  match mat_files with
  | [mat_file] =>
      let mat_file_path := path_join env folder_path mat_file in
      match
        '(sampling_rate, gaze_positions) ← read_gaze mat_file_path;
        gaze_positions ←
          (if map_gaze_pos_coord_to_eyelink_space
           then mapM map_coord_to_eyelink_space gaze_positions
           else Ok gaze_positions);
        '(place, meta_info) ←
          updated_meta_info meta_info_list session_categories idx sampling_rate;
        Ok (gaze_positions, place, meta_info)
      with
      | Ok (gaze_positions, place, meta_info) =>
          Ok ([], <[place := meta_info]> meta_info_list,
              Some (gaze_positions, place))
      | Raise e =>
          Ok ([nl +:+ "Error loading file '" +:+ mat_file +:+ "': "
                 +:+ error_text env e],
              meta_info_list, None)
      end
  | _ =>
      Ok ([nl +:+ "Error: Multiple or no '*_M1_gaze_regForm.mat' files found in folder: "
             +:+ folder_path],
          meta_info_list, None)
  end.

End Loaders.

(** ** load_data.py: the other readers of a session folder *)

(** the rows of the spike table: one per unit *)
Record spike_unit := {
  spikeS : pyval;
  spikeMs : pyval;
  chan : pyval;
  chanStr : pyval;
  unit_no : pyval;
  unitStr : pyval;
  UUID : pyval;
  spikeN : pyval;
  region : pyval
}.

(** a [pandas.DataFrame] built from a list of rows and a list of column
    names *)
Record data_frame := {
  columns : list string;
  frame_rows : list (list pyval)
}.

(** What the readers of [load_data.py] see besides [mat_env]: the fields
    [get_monkey_and_dose_data] reads of a metaInfo file, the four boxes
    [util.calculate_roi_bounding_box_corners] makes of the landmarks of a
    calibration file (the module [util] is not embedded), the units of a
    spike file with, for each unit, the values the loop body reads or the
    exception it raises, and [os.path.normpath]. *)
Record data_env := {
  mats : mat_env;
  normpath : string → string;
  load_dose_info : string → result (option (pyval * pyval * float * float));
  load_roi_corners :
    string → bool → result (option (pyval * pyval * pyval * pyval));
  load_spike_units : string → result (list (result spike_unit))
}.

Section Readers.

Variable env : data_env.

(** [get_monkey_and_dose_data]: the lines printed, and the dict returned *)
Definition get_monkey_and_dose_data (session_path : string)
  : list string * dict :=
  let file_list_info := glob (mats env) (session_path +:+ "/*metaInfo.mat") in
  match file_list_info with
  | [file_info] =>
      match load_dose_info env file_info with
      | Ok (Some (monkey_1, monkey_2, OT_dose, NAL_dose)) =>
          ([], {[ "monkey_1" := monkey_1 ]} ∪ {[ "monkey_2" := monkey_2 ]} ∪
               {[ "OT_dose" := PFloat OT_dose ]} ∪
               {[ "NAL_dose" := PFloat NAL_dose ]})
      | Ok None => ([], ∅)
      | Raise e =>
          ([nl +:+ "Error loading meta_info for folder: " +:+ session_path
              +:+ ": " +:+ exn_text (mats env) e],
           ∅)
      end
  | _ =>
      ([nl +:+ "Warning: No metaInfo or more than one metaInfo found in folder: "
          +:+ session_path +:+ "."],
       ∅)
  end.

(** [get_m1_roi_bounding_boxes]: the lines printed, and the dict returned *)
Definition get_m1_roi_bounding_boxes (session_path : string)
    (map_roi_coord_to_eyelink_space : bool) : list string * dict :=
  let file_list_m1_landmarks :=
    glob (mats env) (session_path +:+ "/*M1_farPlaneCal_regForm.mat") in
  match file_list_m1_landmarks with
  | [file_m1_landmarks] =>
      match load_roi_corners env file_m1_landmarks
                             map_roi_coord_to_eyelink_space with
      | Ok (Some (eye_bbox, face_bbox, left_obj_bbox, right_obj_bbox)) =>
          ([], {[ "eye_bbox" := eye_bbox ]} ∪ {[ "face_bbox" := face_bbox ]} ∪
               {[ "left_obj_bbox" := left_obj_bbox ]} ∪
               {[ "right_obj_bbox" := right_obj_bbox ]})
      | Ok None => ([], none_bboxes)
      | Raise e =>
          ([nl +:+ "Error loading m1_landmarks for folder: " +:+ session_path
              +:+ ": " +:+ exn_text (mats env) e],
           none_bboxes)
      end
  | _ =>
      ([nl +:+ "Warning: No m1_landmarks or more than one landmarks found in folder: "
          +:+ session_path +:+ "."],
       none_bboxes)
  end.

Definition label_cols : list string :=
  ["session_name"; "channel"; "channel_label"; "unit_no_within_channel";
   "unit_label"; "uuid"; "n_spikes"; "region"].

(** lines 179-193: the body of the loop over the units, on the three lists *)
Definition spike_unit_step (session_name : string)
    (st : list pyval * list pyval * list (list pyval))
    (unit : result spike_unit)
  : result (list pyval * list pyval * list (list pyval)) :=
  let '(session_spikeTs_s, session_spikeTs_ms, session_spikeTs_labels) := st in
  u ← unit;
  Ok (session_spikeTs_s ++ [spikeS u],
      session_spikeTs_ms ++ [spikeMs u],
      session_spikeTs_labels ++
        [[PStr session_name; chan u; chanStr u; unit_no u; unitStr u; UUID u;
          spikeN u; region u]]).

(** [get_spiketimes_and_labels_for_one_session]: the lines printed, and the
    triple returned *)
Definition get_spiketimes_and_labels_for_one_session (session_path : string)
  : list string * (list pyval * list pyval * data_frame) :=
  let session_name := basename (mats env) (normpath env session_path) in
  let file_list_spikeTs :=
    glob (mats env) (session_path +:+ "/*spikeTs_regForm.mat") in
  match file_list_spikeTs with
  | [file_spikeTs] =>
      match
        spikeTs_struct ← load_spike_units env file_spikeTs;
        foldM (spike_unit_step session_name) ([], [], []) spikeTs_struct
      with
      | Ok (session_spikeTs_s, session_spikeTs_ms, session_spikeTs_labels) =>
          ([], (session_spikeTs_s, session_spikeTs_ms,
                {| columns := label_cols;
                   frame_rows := session_spikeTs_labels |}))
      | Raise e =>
          (["An error occurred: " +:+ exn_text (mats env) e],
           ([], [], {| columns := label_cols; frame_rows := [] |}))
      end
  | _ =>
      ([nl +:+ "Warning: No spikeTs or more than one spikeTs found in folder: "
          +:+ session_path +:+ "."],
       ([], [], {| columns := label_cols; frame_rows := [] |}))
  end.

End Readers.
(** ** Notions used in the statements about the loaders *)

(** the label of a saccade when [n] more sessions come before its own *)
Definition shift_ordinal (n : nat) (l : label) : label :=
  (l.1.1, l.1.2 + n, l.2).

(** a session on which the loops of [extract_saccades_with_labels] raise
    nothing: the three keys read for every session are there, and every run
    has its two bounds, a time stamp per sample and at least two samples
    selected *)
Definition runs_ready (create_timevec : nat → float → list float)
    (session : list (float * float) * dict) : Prop :=
  ∃ sr category n,
    session.2 !! "sampling_rate" = Some (PFloat sr) ∧
    session.2 !! "category" = Some category ∧
    session.2 !! "num_runs" = Some (PInt n) ∧
    ∀ run, run < Z.to_nat n →
      ∃ startS stopS start stop,
        session.2 !! "startS" = Some (PFloats startS) ∧
        startS !! run = Some start ∧
        session.2 !! "stopS" = Some (PFloats stopS) ∧
        stopS !! run = Some stop ∧
        length (create_timevec (length session.1) sr) = length session.1 ∧
        2 ≤ length (selected_indices (create_timevec (length session.1) sr)
                                     start stop).

(** a session as the repository builds it: the positions of a gaze file with
    the metadata [extract_meta_info] makes of the session folder, updated by
    the loader with the sampling rate and the category *)
Definition pipeline_session (env : mat_env)
    (spec : string * list (float * float) * float * pyval)
  : list (float * float) * dict :=
  let '(session_path, positions, sampling_rate, category) := spec in
  (positions,
   with_rate_and_category (meta_info_of_session env session_path).2
                          sampling_rate category).

(** the keys of a dictionary of [extract_meta_info] *)
Definition meta_info_keys : list string :=
  "session_name" :: info_keys ++ runs_keys ++ bbox_keys.

(** whether the fixation classifier finds a fixation interval in the
    positions of a session *)
Definition finds_fixation (px2deg_value : float → float)
    (create_timevec : nat → float → list float)
    (is_fixation :
       list (float * float) → list float → float → result (list bool))
    (positions : list (float * float)) (sampling_rate : float) : bool :=
  match is_fixation (px2deg_2d px2deg_value positions)
                    (create_timevec (length positions) sampling_rate)
                    sampling_rate with
  | Ok mask => match find_islands mask 1 with [] => false | _ => true end
  | Raise _ => false
  end.

(** an index the loop of [extract_labelled_gaze_positions_m1] can go
    through: it addresses a session path whose folder can be listed *)
Definition visitable (env : gaze_env) (session_paths : list string) (idx : Z)
  : Prop :=
  ∃ folder_path names,
    py_getitem session_paths idx = Ok folder_path ∧
    listdir env folder_path = Ok names.

(** the dictionary at [place] is the one the caller passed, updated with a
    sampling rate and a category *)
Definition updated_at (original_list meta_info_list : list dict) (place : nat)
  : Prop :=
  ∃ original sr category,
    original_list !! place = Some original ∧
    meta_info_list !! place = Some (with_rate_and_category original sr category).

(** [meta_info_list] as a loader has changed it: every dictionary is the
    one the caller passed, or that one updated *)
Definition updated_from (original_list meta_info_list : list dict) : Prop :=
  length meta_info_list = length original_list ∧
  ∀ place,
    meta_info_list !! place = original_list !! place ∨
    updated_at original_list meta_info_list place.

(** an entry of the float64 array [session_category] as the loader reads
    it: the float of a category, or NaN *)
Definition category_value (c : option nat) : pyval :=
  match c with
  | Some i => PFloat (float_of_nat i)
  | None => PFloat PrimFloat.nan
  end.

(** a session folder with one gaze file that the loader can read *)
Definition folder_loads (env : gaze_env) (folder_path : string) : Prop :=
  ∃ names mat_file sr gaze_positions,
    listdir env folder_path = Ok names ∧
    List.filter (py_in "M1_gaze.mat") names = [mat_file] ∧
    read_gaze env (path_join env folder_path mat_file) = Ok (sr, gaze_positions).

(** the dictionary at [place] is the one the caller passed, updated with a
    sampling rate and the category of that place *)
Definition categorised_at (original_list : list dict)
    (session_categories : list pyval) (meta_info_list : list dict)
    (place : nat) : Prop :=
  ∃ original sr category,
    original_list !! place = Some original ∧
    session_categories !! place = Some category ∧
    meta_info_list !! place = Some (with_rate_and_category original sr category).

(** ** Example data for the loaders *)

(** session folders that hold one gaze file of two samples each *)
Definition example_gaze_env : gaze_env :=
  {| listdir := λ _, Ok ["s01_M1_gaze.mat"; "s01_runs.mat"];
     path_join := λ folder name, folder +:+ "/" +:+ name;
     path_basename := λ p, p;
     error_text := λ _, "error";
     load_gaze := λ _, Ok (1000%float, [1; 2]%float, [3; 4]%float) |}.

Definition example_session_paths : list string := ["a"; "b"; "c"].

(** the metadata of three session folders without metadata files *)
Definition example_meta_info_list : list dict :=
  map (λ p, (meta_info_of_session empty_folder_env p).2) example_session_paths.

(** a session as the repository builds it from an empty folder *)
Definition example_spec (positions : list (float * float))
  : string * list (float * float) * float * pyval :=
  ("session_01", positions, 1%float, PFloat 0%float).

(** * Properties *)

(** ** The IEEE 754 comparison orders the numbers *)

Lemma SFcompare_sym x y :
  SFcompare y x = CompOpp <$> SFcompare x y.
Proof.
  destruct x as [sx|sx| |sx mx ex], y as [sy|sy| |sy my ey]; simpl; try done;
    try (destruct sx; done); try (destruct sy; done);
    try (destruct sx, sy; done).
  fold_pos_compare.
  destruct sx, sy; simpl; try done;
    rewrite (Z.compare_antisym ex ey);
    destruct (ex ?= ey)%Z; simpl; try done;
    rewrite (Pos.compare_antisym mx my); destruct (mx ?= my)%positive; done.
Qed.

Lemma SFcompare_refl x : x ≠ S754_nan → SFcompare x x = Some Eq.
Proof.
  destruct x as [s|s| |s m e]; simpl; try done.
  - by destruct s.
  - intros _. fold_pos_compare.
    destruct s; rewrite Z.compare_refl, Pos.compare_refl; done.
Qed.

Lemma SFcompare_None x y :
  SFcompare x y = None ↔ x = S754_nan ∨ y = S754_nan.
Proof.
  destruct x as [sx|sx| |sx mx ex], y as [sy|sy| |sy my ey]; simpl;
    split; try done; try (intros [?|?]; done); auto.
Qed.

Lemma SFcompare_trans x y z c1 c2 :
  SFcompare x y = Some c1 → SFcompare y z = Some c2 →
  c1 ≠ Gt → c2 ≠ Gt →
  SFcompare x z = Some (match c1 with Eq => c2 | _ => Lt end).
Proof.
  destruct x as [sx|sx| |sx mx ex], y as [sy|sy| |sy my ey],
           z as [sz|sz| |sz mz ez]; simpl; try done;
    repeat match goal with s : bool |- _ => destruct s end; simpl;
    fold_pos_compare;
    intros [= <-] [= <-]; try done;
    repeat match goal with
      | |- context [(?a ?= ?b)%Z] => destruct (Z.compare_spec a b)
      | |- context [(?a ?= ?b)%positive] => destruct (Pos.compare_spec a b)
      end; simpl; try done; try lia.
Qed.

(** ** Comparisons of binary64 floats *)

Lemma eqb_fcmp a b : PrimFloat.eqb a b = true ↔ fcmp a b = Some Eq.
Proof.
  rewrite FloatAxioms.eqb_spec. unfold SFeqb, fcmp.
  destruct (SFcompare _ _) as [[]|]; split; done.
Qed.

Lemma ltb_fcmp a b : PrimFloat.ltb a b = true ↔ fcmp a b = Some Lt.
Proof.
  rewrite FloatAxioms.ltb_spec. unfold SFltb, fcmp.
  destruct (SFcompare _ _) as [[]|]; split; done.
Qed.

Lemma leb_fcmp a b :
  PrimFloat.leb a b = true ↔ fcmp a b = Some Lt ∨ fcmp a b = Some Eq.
Proof.
  rewrite FloatAxioms.leb_spec. unfold SFleb, fcmp.
  destruct (SFcompare _ _) as [[]|]; split; try done; auto; intros [?|?]; done.
Qed.

Lemma fcmp_sym a b : fcmp b a = CompOpp <$> fcmp a b.
Proof. apply SFcompare_sym. Qed.

Lemma fcmp_number a : PrimFloat.eqb a a = true ↔ Prim2SF a ≠ S754_nan.
Proof.
  rewrite eqb_fcmp. unfold fcmp. split.
  - intros H Hn. rewrite Hn in H. done.
  - apply SFcompare_refl.
Qed.

Lemma fcmp_total a b :
  PrimFloat.eqb a a = true → PrimFloat.eqb b b = true →
  ∃ c, fcmp a b = Some c.
Proof.
  rewrite !fcmp_number. intros Ha Hb. unfold fcmp.
  destruct (SFcompare _ _) as [c|] eqn:E; [by eexists|].
  apply SFcompare_None in E as [?|?]; done.
Qed.

Lemma fcmp_Some_number a b c :
  fcmp a b = Some c → PrimFloat.eqb a a = true ∧ PrimFloat.eqb b b = true.
Proof.
  intros H. rewrite !fcmp_number. split; intros Hn.
  - assert (fcmp a b = None) as E by (apply SFcompare_None; auto). congruence.
  - assert (fcmp a b = None) as E by (apply SFcompare_None; auto). congruence.
Qed.

Lemma fcmp_trans a b c c1 c2 :
  fcmp a b = Some c1 → fcmp b c = Some c2 → c1 ≠ Gt → c2 ≠ Gt →
  fcmp a c = Some (match c1 with Eq => c2 | _ => Lt end).
Proof. apply SFcompare_trans. Qed.

(** a value equal to an end of the band lies in the band *)
Lemma in_band_lower lo hi v :
  PrimFloat.eqb v lo = true → PrimFloat.leb lo hi = true →
  PrimFloat.leb lo v && PrimFloat.leb v hi = true.
Proof.
  rewrite eqb_fcmp, andb_true_iff, !leb_fcmp. intros Hv Hlh.
  assert (fcmp lo v = Some Eq) as Hlv by (rewrite fcmp_sym, Hv; done).
  split; [by right|].
  destruct Hlh as [H|H]; rewrite (fcmp_trans _ _ _ _ _ Hv H); auto; done.
Qed.

Lemma in_band_upper lo hi v :
  PrimFloat.eqb v hi = true → PrimFloat.leb lo hi = true →
  PrimFloat.leb lo v && PrimFloat.leb v hi = true.
Proof.
  rewrite eqb_fcmp, andb_true_iff, !leb_fcmp. intros Hv Hlh.
  assert (fcmp hi v = Some Eq) as Hhv by (rewrite fcmp_sym, Hv; done).
  split; [|by right].
  destruct Hlh as [H|H]; rewrite (fcmp_trans _ _ _ _ _ H Hhv); auto; done.
Qed.

Lemma ltb_eqb_false s t :
  PrimFloat.eqb t s = true → PrimFloat.ltb s t = false.
Proof.
  rewrite eqb_fcmp. intros H. apply not_true_is_false. rewrite ltb_fcmp.
  rewrite fcmp_sym, H. done.
Qed.

Lemma ltb_eqb_upper a b c :
  PrimFloat.ltb a b = true → PrimFloat.eqb c b = true →
  PrimFloat.ltb a c = true ∧ PrimFloat.leb c b = true.
Proof.
  rewrite !ltb_fcmp, eqb_fcmp, leb_fcmp. intros Hab Hcb.
  split; [|by right].
  assert (fcmp b c = Some Eq) as Hbc by (rewrite fcmp_sym, Hcb; done).
  rewrite (fcmp_trans a b c _ _ Hab Hbc); done.
Qed.

(** ** Islands of a mask *)

Lemma lookup_snoc_last {A} (l : list A) (x : A) : (l ++ [x]) !! length l = Some x.
Proof. rewrite lookup_app_r by lia. by rewrite Nat.sub_diag. Qed.

Lemma islands_inv_true pre cur :
  islands_inv pre cur →
  islands_inv (pre ++ [true]) (Some (default (length pre) cur)).
Proof.
  unfold islands_inv. rewrite length_app. simpl.
  destruct cur as [s|]; simpl.
  - intros (Hs & Hall & Hstart). split_and!; [lia| |].
    + intros j Hj. destruct (decide (j = length pre)) as [->|].
      * apply lookup_snoc_last.
      * rewrite lookup_app_l by lia. apply Hall. lia.
    + destruct Hstart as [->|H]; [by left|right].
      rewrite lookup_app_l by lia. done.
  - intros H. split_and!; [lia| |].
    + intros j Hj. assert (j = length pre) as -> by lia. apply lookup_snoc_last.
    + destruct H as [H|H]; [left; lia|right].
      rewrite lookup_app_l; [done|]. apply lookup_lt_is_Some. eauto.
Qed.

Lemma islands_inv_false pre : islands_inv (pre ++ [false]) None.
Proof.
  unfold islands_inv. right. rewrite length_app. simpl.
  replace (length pre + 1 - 1) with (length pre) by lia. apply lookup_snoc_last.
Qed.

(** an island that ends where the current run ends starts where it starts *)
Lemma island_current (M pre : list bool) s a :
  islands_inv pre (Some s) →
  (∀ j, j < length pre → M !! j = pre !! j) →
  a ≤ length pre - 1 →
  (∀ i, a ≤ i ≤ length pre - 1 → M !! i = Some true) →
  (a = 0 ∨ M !! (a - 1) = Some false) →
  a = s.
Proof.
  intros (Hs & Hall & Hstart) Hpre Ha Htrue Ha0.
  destruct (Nat.lt_trichotomy a s) as [Hlt|[->|Hgt]]; [|done|].
  - destruct Hstart as [->|Hf]; [lia|].
    rewrite <- Hpre in Hf by lia. rewrite Htrue in Hf by lia. done.
  - destruct Ha0 as [->|Hf]; [lia|].
    rewrite Hpre, Hall in Hf by lia. done.
Qed.

Lemma islands_from_spec mask : ∀ pre cur,
  islands_inv pre cur →
  ∀ a b, In (a, b) (islands_from mask (length pre) cur) ↔
         is_island (pre ++ mask) a b ∧ length pre ≤ b + 1.
Proof.
  induction mask as [|m mask IH]; intros pre cur Hinv a b.
  - rewrite app_nil_r. simpl. destruct cur as [s|]; simpl.
    + split.
      * intros [[= Ea Eb]|[]]; subst a b. destruct Hinv as (Hs & Hall & Hstart).
        split; [|lia]. unfold is_island. split_and!; [lia|lia| | |].
        -- intros i Hi. apply Hall. lia.
        -- done.
        -- by left.
      * intros [(Hab & Hb & Htrue & Ha0 & _) Hge]. left.
        assert (b = length pre - 1) as -> by lia.
        f_equal. symmetry. eapply (island_current pre); eauto.
    + split; [done|]. intros [(Hab & Hb & Htrue & _) Hge].
      destruct Hinv as [H0|Hf]; [lia|].
      assert (b = length pre - 1) as -> by lia.
      rewrite Htrue in Hf by lia. done.
  - assert (Hcons : pre ++ m :: mask = (pre ++ [m]) ++ mask)
      by (by rewrite <- app_assoc).
    assert (Hlen : length (pre ++ [m]) = S (length pre))
      by (rewrite length_app; simpl; lia).
    assert (Hm : (pre ++ m :: mask) !! length pre = Some m).
    { rewrite lookup_app_r by lia. by rewrite Nat.sub_diag. }
    assert (Hpre : ∀ j, j < length pre → (pre ++ m :: mask) !! j = pre !! j).
    { intros j Hj. by rewrite lookup_app_l. }
    destruct m; simpl.
    + rewrite <- Hlen. rewrite (IH _ _ (islands_inv_true _ _ Hinv)).
      rewrite <- Hcons, Hlen. split; [intros [? ?]; split; [done|lia]|].
      intros [Hisl Hge]. split; [done|].
      destruct (decide (b + 1 = length pre)) as [Heq|]; [|lia].
      destruct Hisl as (Hab & Hb & Htrue & _ & [Hend|Hend]).
      * rewrite length_app in Hend. simpl in Hend. lia.
      * rewrite Heq, Hm in Hend. done.
    + assert (Hnot : ∀ a', ¬ is_island (pre ++ false :: mask) a' (length pre)).
      { intros a' (Hab & Hb & Htrue & _). rewrite Htrue in Hm by lia. done. }
      assert (Hrest : In (a, b) (islands_from mask (S (length pre)) None) ↔
                      is_island (pre ++ false :: mask) a b ∧ length pre ≤ b).
      { rewrite <- Hlen. rewrite (IH _ _ (islands_inv_false pre)).
        rewrite <- Hcons, Hlen. split; intros [Hisl Hge]; (split; [done|]).
        - lia.
        - destruct (decide (b = length pre)) as [->|]; [|lia].
          by apply Hnot in Hisl. }
      destruct cur as [s|]; simpl; rewrite Hrest.
      * split.
        -- intros [[= Ea Eb]|[? ?]]; [subst a b|split; [done|lia]].
           destruct Hinv as (Hs & Hall & Hstart). split; [|lia].
           unfold is_island. split_and!; [lia| | | |].
           ++ rewrite length_app. simpl. lia.
           ++ intros i Hi. rewrite Hpre by lia. apply Hall. lia.
           ++ destruct Hstart as [->|H]; [by left|right]. rewrite Hpre by lia. done.
           ++ right. replace (length pre - 1 + 1) with (length pre) by lia. done.
        -- intros [Hisl Hge].
           destruct (decide (b + 1 = length pre)) as [Heq|]; [left|right; split; [done|lia]].
           destruct Hisl as (Hab & Hb & Htrue & Ha0 & _).
           assert (b = length pre - 1) as -> by lia.
           f_equal. symmetry. eapply (island_current (pre ++ false :: mask) pre); eauto.
      * split; [intros [? ?]; split; [done|lia]|].
        intros [Hisl Hge]. split; [done|].
        destruct (decide (b + 1 = length pre)) as [Heq|]; [|lia].
        destruct Hisl as (Hab & Hb & Htrue & _).
        destruct Hinv as [H0|Hf]; [lia|].
        rewrite <- Hpre in Hf by lia. rewrite Htrue in Hf by lia. done.
Qed.

(** [find_islands] returns exactly the maximal runs of [true] that are long
    enough *)
Lemma find_islands_spec mask min_length a b :
  In (a, b) (find_islands mask min_length) ↔
  is_island mask a b ∧ min_length ≤ b - a + 1.
Proof.
  unfold find_islands. rewrite filter_In.
  rewrite (islands_from_spec mask [] None) by (by left). simpl.
  unfold island_length. simpl. rewrite Nat.leb_le. intuition lia.
Qed.

(** ** The error monad *)

Lemma bind_Ok {A B} (m : result A) (f : A → result B) b :
  m ≫= f = Ok b ↔ ∃ a, m = Ok a ∧ f a = Ok b.
Proof.
  destruct m as [a|e]; simpl; split.
  - intros H. by exists a.
  - by intros (a' & [= ->] & H).
  - done.
  - by intros (a' & [=] & _).
Qed.

Lemma foldM_app {S A} (body : S → A → result S) st xs ys :
  foldM body st (xs ++ ys) = foldM body st xs ≫= λ st', foldM body st' ys.
Proof.
  revert st. induction xs as [|x xs IH]; intros st; simpl; [done|].
  destruct (body st x) as [st'|e]; simpl; [apply IH|done].
Qed.

(** ** numpy helpers *)

Lemma np_gradient_Ok f :
  2 ≤ length f → np_gradient f = Ok (map (gradient_at f) (seq 0 (length f))).
Proof.
  intros H. unfold np_gradient.
  destruct (Nat.ltb_spec (length f) 2); [lia|done].
Qed.

Lemma np_gradient_short f : length f < 2 → np_gradient f = Raise ValueError.
Proof.
  intros H. unfold np_gradient.
  destruct (Nat.ltb_spec (length f) 2); [done|lia].
Qed.

Lemma zip_with_map_seq {A B C} (f : A → B → C) (g : nat → A) (h : nat → B) s n :
  zip_with f (map g (seq s n)) (map h (seq s n)) =
  map (λ i, f (g i) (h i)) (seq s n).
Proof.
  revert s. induction n as [|n IH]; intros s; simpl; [done|]. by rewrite IH.
Qed.

Lemma mask_select_length_le {A} (a : list A) mask :
  length (mask_select a mask) ≤ length a.
Proof.
  revert mask. induction a as [|x a IH]; intros [|[] mask]; simpl; try lia.
  - specialize (IH mask). lia.
  - specialize (IH mask). lia.
Qed.

Lemma mask_select_sublist {A} (a : list A) mask :
  mask_select a mask `sublist_of` a.
Proof.
  revert mask. induction a as [|x a IH]; intros [|[] mask]; simpl.
  - done.
  - done.
  - done.
  - apply sublist_nil_l.
  - apply sublist_skip, IH.
  - apply sublist_cons, IH.
Qed.

Lemma py_slice_rows_between {A} (l : list A) start stop :
  py_slice l start (stop + 1) = rows_between l start stop.
Proof.
  unfold py_slice, rows_between.
  generalize (stop + 1 - start) as n. intros n.
  revert start l. induction n as [|n IH]; intros start l; simpl.
  - done.
  - destruct (l !! start) as [x|] eqn:E; simpl.
    + rewrite <- IH. rewrite (drop_S l x start E). simpl.
      done.
    + apply lookup_ge_None in E. rewrite drop_ge by done. simpl.
      clear IH. revert start E.
      assert (∀ m s, length l ≤ s → omap (λ i, l !! i) (seq s m) = []) as H.
      { induction m as [|m IHm]; intros s Hs; simpl; [done|].
        rewrite (proj2 (lookup_ge_None l s)) by lia. apply IHm. lia. }
      intros start E. symmetry. apply H. lia.
Qed.

Lemma py_slice_sublist {A} (l : list A) start stop :
  py_slice l start stop `sublist_of` l.
Proof.
  unfold py_slice. etrans; [apply sublist_take|apply sublist_drop].
Qed.

(** the boolean mask of a run selects the samples of [selected_indices] *)
Lemma mask_select_filter {A} (a : list A) (ts : list float)
    (q : float → bool) s :
  length ts = length a →
  mask_select a (map q ts) =
  omap (λ i, a !! (i - s))
       (List.filter (λ i, match ts !! (i - s) with Some t => q t | None => false end)
                    (seq s (length ts))).
Proof.
  revert a s. induction ts as [|t ts IH]; intros [|x a] s Hlen; simpl in *;
    try done.
  rewrite Nat.sub_diag. simpl.
  assert (Hshift : ∀ (B : Type) (l : list B) t0 i, s < i →
            (t0 :: l) !! (i - s) = l !! (i - S s)).
  { intros B l t0 i Hi. replace (i - s) with (S (i - S s)) by lia. done. }
  assert (Hf : List.filter (λ i, match (t :: ts) !! (i - s) with
                               | Some t0 => q t0 | None => false end)
                 (seq (S s) (length ts)) =
               List.filter (λ i, match ts !! (i - S s) with
                               | Some t0 => q t0 | None => false end)
                 (seq (S s) (length ts))).
  { apply filter_ext_in. intros i Hi. apply in_seq in Hi.
    rewrite Hshift by lia. done. }
  assert (Ho : ∀ l, Forall (λ i, s < i) l →
             omap (λ i, (x :: a) !! (i - s)) l = omap (λ i, a !! (i - S s)) l).
  { induction l as [|i l IHl]; intros Hl; [done|].
    inversion Hl; subst. cbn [omap list_omap]. fold (@omap list _).
    rewrite Hshift by lia.
    destruct (a !! (i - S s)); [f_equal|]; exact (IHl H2). }
  assert (Hall : Forall (λ i, s < i)
            (List.filter (λ i, match ts !! (i - S s) with
                               | Some t0 => q t0 | None => false end)
                 (seq (S s) (length ts)))).
  { apply Forall_forall. intros i Hi. apply list_elem_of_In in Hi.
    apply filter_In in Hi as [Hi _]. apply in_seq in Hi. lia. }
  destruct (q t); simpl; rewrite Hf.
  - rewrite Nat.sub_diag. simpl. f_equal.
    rewrite Ho by done. apply IH. lia.
  - rewrite Ho by done. apply IH. lia.
Qed.

(** ** The saccade detector *)

Lemma find_saccades_smoothed x y sr vt ms smooth x0 y0 :
  length x = length y → smooth x = Ok x0 → smooth y = Ok y0 →
  find_saccades x y sr vt ms smooth =
    if (length x0 <? 2) || (length y0 <? 2) then Raise ValueError
    else if length x0 =? length y0
         then Ok (find_islands (marked_samples x0 y0 sr vt.1 vt.2) ms)
         else Raise ValueError.
Proof.
  intros Hlen Hx Hy. unfold find_saccades.
  rewrite Hlen, Nat.eqb_refl. simpl. rewrite Hx. simpl. rewrite Hy. simpl.
  destruct (Nat.ltb_spec (length x0) 2) as [Hx0|Hx0]; simpl.
  { rewrite (np_gradient_short x0) by done. reflexivity. }
  rewrite (np_gradient_Ok x0) by done. simpl.
  destruct (Nat.ltb_spec (length y0) 2) as [Hy0|Hy0]; simpl.
  { rewrite (np_gradient_short y0) by done. reflexivity. }
  rewrite (np_gradient_Ok y0) by done. simpl.
  unfold np_add. rewrite !length_map, !length_seq.
  destruct (Nat.eqb_spec (length x0) (length y0)) as [Heq|Hne]; simpl.
  - f_equal. f_equal. unfold marked_samples, velocity_norm, in_band.
    rewrite !map_map. rewrite <- Heq.
    rewrite (zip_with_map_seq PrimFloat.add
               (λ i, PrimFloat.mul (PrimFloat.div (gradient_at x0 i) sr)
                                   (PrimFloat.div (gradient_at x0 i) sr))
               (λ i, PrimFloat.mul (PrimFloat.div (gradient_at y0 i) sr)
                                   (PrimFloat.div (gradient_at y0 i) sr))).
    rewrite !map_map. done.
  - destruct x0 as [|a [|b x0]]; simpl in *; try lia.
    destruct y0 as [|c [|d y0]]; simpl in *; try lia. done.
Qed.

(** C2, as the code has it.  For sequences [x] and [y] of equal length,
    [find_saccades] smooths both, takes the discrete gradient of each
    smoothed sequence divided by the sampling rate, forms the Euclidean norm
    of the two components sample by sample, marks the samples whose norm [v]
    satisfies [lo <= v <= hi], and returns the islands of marked samples of
    length at least [min_samples]: it does so whenever the smoothed
    sequences have one length and at least two samples.  The gradient is
    numpy's, which is defined from two samples on: with a smoothed sequence
    of fewer than two samples [find_saccades] raises ValueError.  Both ends
    of the band are marked.  The gradient takes central differences inside
    and one-sided differences at both ends, as on numpy's own example. *)
Theorem find_saccades_algorithm x y sr lo hi ms smooth :
  length x = length y →
  find_saccades x y sr (lo, hi) ms smooth =
    match smooth x with
    | Raise e => Raise e
    | Ok x0 =>
        match smooth y with
        | Raise e => Raise e
        | Ok y0 =>
            if (length x0 <? 2) || (length y0 <? 2) then Raise ValueError
            else if length x0 =? length y0
                 then Ok (find_islands (marked_samples x0 y0 sr lo hi) ms)
                 else Raise ValueError
        end
    end
  ∧ (∀ mask s e, In (s, e) (find_islands mask ms) ↔
                 is_island mask s e ∧ ms ≤ e - s + 1)
  ∧ (PrimFloat.leb lo hi = true →
     in_band lo hi lo = true ∧ in_band lo hi hi = true)
  ∧ (∀ x0 y0, smooth x = Ok x0 → smooth y = Ok y0 →
       2 ≤ length x0 → length y0 = length x0 →
       find_saccades x y sr (lo, hi) ms smooth =
         Ok (find_islands (marked_samples x0 y0 sr lo hi) ms))
  ∧ (∀ x0 y0, smooth x = Ok x0 → smooth y = Ok y0 →
       length x0 < 2 ∨ length y0 < 2 →
       find_saccades x y sr (lo, hi) ms smooth = Raise ValueError)
  ∧ np_gradient [1; 2; 4; 7; 11; 16]%float
      = Ok [1; 1.5; 2.5; 3.5; 4.5; 5]%float.
Proof.
  intros Hlen. split_and!.
  - destruct (smooth x) as [x0|e] eqn:Hx.
    + destruct (smooth y) as [y0|e] eqn:Hy.
      * by apply (find_saccades_smoothed x y sr (lo, hi)).
      * unfold find_saccades. rewrite Hlen, Nat.eqb_refl. simpl.
        rewrite Hx. simpl. rewrite Hy. done.
    + unfold find_saccades. rewrite Hlen, Nat.eqb_refl. simpl.
      rewrite Hx. done.
  - intros mask s e. apply find_islands_spec.
  - intros Hle. assert (PrimFloat.eqb lo lo = true ∧ PrimFloat.eqb hi hi = true)
      as [Hlo Hhi].
    { apply leb_fcmp in Hle. destruct Hle as [H|H];
        apply fcmp_Some_number in H; done. }
    split; [by apply in_band_lower|by apply in_band_upper].
  - intros x0 y0 Hx Hy Htwo Heq.
    rewrite (find_saccades_smoothed x y sr (lo, hi) ms smooth x0 y0) by done.
    destruct (Nat.ltb_spec (length x0) 2); [lia|].
    destruct (Nat.ltb_spec (length y0) 2); [lia|]. simpl.
    destruct (Nat.eqb_spec (length x0) (length y0)); [done|lia].
  - intros x0 y0 Hx Hy Hshort.
    rewrite (find_saccades_smoothed x y sr (lo, hi) ms smooth x0 y0) by done.
    destruct (Nat.ltb_spec (length x0) 2); [done|].
    destruct (Nat.ltb_spec (length y0) 2); [done|]. lia.
  - vm_compute. reflexivity.
Qed.

(** C7.  When [x] and [y] differ in shape the assertion of
    [find_saccades] fails before anything else is evaluated: the result is
    AssertionError whatever the smoothing function would do, also when it
    would raise. *)
Theorem find_saccades_shape_mismatch x y sr vel_thresh min_samples smooth :
  length x ≠ length y →
  find_saccades x y sr vel_thresh min_samples smooth = Raise AssertionError.
Proof.
  intros Hne. unfold find_saccades.
  destruct (Nat.eqb_spec (length x) (length y)); [done|]. done.
Qed.

(** C8, as the code has it.  On empty [x] and [y], [find_saccades] hands the
    empty array to the smoothing function and its result to [np.gradient]:
    it raises what the smoothing function raises, and ValueError whenever the
    smoothed array has fewer than two samples.  It returns only when the
    smoothing function makes at least two samples out of none. *)
Theorem find_saccades_empty_input sr vel_thresh min_samples smooth :
  find_saccades [] [] sr vel_thresh min_samples smooth =
    match smooth [] with
    | Raise e => Raise e
    | Ok x0 =>
        if length x0 <? 2 then Raise ValueError
        else Ok (find_islands
                   (marked_samples x0 x0 sr vel_thresh.1 vel_thresh.2)
                   min_samples)
    end
  ∧ (∀ x0, smooth [] = Ok x0 → length x0 < 2 →
       find_saccades [] [] sr vel_thresh min_samples smooth = Raise ValueError).
Proof.
  assert (Heq : find_saccades [] [] sr vel_thresh min_samples smooth =
    match smooth [] with
    | Raise e => Raise e
    | Ok x0 =>
        if length x0 <? 2 then Raise ValueError
        else Ok (find_islands
                   (marked_samples x0 x0 sr vel_thresh.1 vel_thresh.2)
                   min_samples)
    end).
  { destruct (smooth []) as [x0|e] eqn:Hs.
    - rewrite (find_saccades_smoothed [] [] sr vel_thresh min_samples smooth x0 x0)
        by done.
      rewrite Nat.eqb_refl. by destruct (length x0 <? 2).
    - unfold find_saccades. simpl. by rewrite Hs. }
  split; [done|]. intros x0 Hs Hlen. rewrite Heq, Hs.
  destruct (Nat.ltb_spec (length x0) 2); [done|lia].
Qed.

(** ** Slicing the run positions *)

(** C6.  [extract_saccade_positions] returns, for every pair
    [(start, stop)], the rows [start .. stop] of [run_positions], the stop row
    included.  In [extract_saccades_with_labels] the array it slices is the
    selection of the session's raw positions, not the degree-converted or
    smoothed coordinates the detector works on: every saccade returned is a
    subsequence of the raw positions. *)
Theorem extract_saccade_positions_inclusive px2deg_value pars :
  (∀ run_positions saccade_start_stops,
     extract_saccade_positions run_positions saccade_start_stops =
     map (λ se, rows_between run_positions se.1 se.2) saccade_start_stops)
  ∧ (∀ positions time_vec sampling_rate info run found,
       saccades_in_run px2deg_value pars positions time_vec sampling_rate
                       info run = Ok found →
       ∃ run_start run_stop run_positions saccade_start_stops,
         select_run positions time_vec run_start run_stop = Ok run_positions ∧
         find_saccades (px2deg px2deg_value (map fst run_positions))
                       (px2deg px2deg_value (map snd run_positions))
                       sampling_rate (vel_thresh pars) (min_samples pars)
                       (smooth_func pars) = Ok saccade_start_stops ∧
         found = map (λ se, rows_between run_positions se.1 se.2)
                     saccade_start_stops ∧
         Forall (λ s, s `sublist_of` positions) found).
Proof.
  assert (Hmap : ∀ run_positions saccade_start_stops,
     extract_saccade_positions run_positions saccade_start_stops =
     map (λ se, rows_between run_positions se.1 se.2) saccade_start_stops).
  { intros rp ss. unfold extract_saccade_positions. apply map_ext.
    intros [s e]. simpl. apply py_slice_rows_between. }
  split; [done|].
  intros positions time_vec sr info run found. unfold saccades_in_run.
  intros H.
  apply bind_Ok in H as (startS & _ & H).
  apply bind_Ok in H as (run_start & _ & H).
  apply bind_Ok in H as (stopS & _ & H).
  apply bind_Ok in H as (run_stop & _ & H).
  apply bind_Ok in H as (run_positions & Hsel & H).
  apply bind_Ok in H as (ss & Hfind & [= <-]).
  exists run_start, run_stop, run_positions, ss. split_and!; try done.
  apply Forall_forall. intros s Hs.
  unfold extract_saccade_positions in Hs.
  apply list_elem_of_fmap in Hs as ([a b] & -> & _).
  etrans; [apply py_slice_sublist|].
  unfold select_run, np_bool_index in Hsel.
  destruct (_ =? _); [|done]. injection Hsel as <-.
  apply mask_select_sublist.
Qed.

(** ** Selecting the samples of a run *)

Lemma selected_indices_In time_vec run_start run_stop i :
  In i (selected_indices time_vec run_start run_stop) ↔
  ∃ t, time_vec !! i = Some t ∧
       PrimFloat.ltb run_start t = true ∧ PrimFloat.leb t run_stop = true.
Proof.
  unfold selected_indices. rewrite filter_In, in_seq. split.
  - intros [_ H]. destruct (time_vec !! i) as [t|]; [|done].
    exists t. apply andb_true_iff in H. done.
  - intros (t & Ht & H1 & H2). split.
    + apply lookup_lt_Some in Ht. lia.
    + rewrite Ht, H1, H2. done.
Qed.

Lemma selected_indices_ends time_vec run_start run_stop i t :
  time_vec !! i = Some t →
  (PrimFloat.eqb t run_start = true →
   ¬ In i (selected_indices time_vec run_start run_stop)) ∧
  (PrimFloat.eqb t run_stop = true → PrimFloat.ltb run_start run_stop = true →
   In i (selected_indices time_vec run_start run_stop)).
Proof.
  intros Ht. rewrite selected_indices_In. split.
  - intros Heq (t' & Ht' & Hlt & _). assert (t' = t) as -> by congruence.
    rewrite (ltb_eqb_false run_start t Heq) in Hlt. done.
  - intros Heq Hlt. exists t. split; [done|]. by apply ltb_eqb_upper.
Qed.

(** the mask of a run selects the samples at [selected_indices]; a time
    vector of another length than the array is an IndexError *)
Lemma select_run_selected positions time_vec run_start run_stop :
  select_run positions time_vec run_start run_stop =
    (if length time_vec =? length positions
     then Ok (omap (λ i, positions !! i)
                   (selected_indices time_vec run_start run_stop))
     else Raise IndexError).
Proof.
  unfold select_run, np_bool_index, run_time.
  rewrite length_map.
  destruct (Nat.eqb_spec (length time_vec) (length positions)) as [Hlen|];
    [|done].
  f_equal. rewrite (mask_select_filter positions time_vec _ 0) by done.
  unfold selected_indices.
  assert (∀ (f g : nat → option (float * float)) (h k : nat → bool) l,
            (∀ i, f i = g i) → (∀ i, h i = k i) →
            omap f (List.filter h l) = omap g (List.filter k l)) as Hext.
  { intros f g h k l Hfg Hhk. rewrite (filter_ext h k Hhk).
    induction (List.filter k l) as [|i l' IHl]; [done|].
    cbn [omap list_omap]. rewrite Hfg.
    destruct (g i); [f_equal|]; exact IHl. }
  apply Hext; intros i; by rewrite Nat.sub_0_r.
Qed.

(** ** The labelling loops *)

Section LabellingProofs.

Variable px2deg_value : float → float.
Variable create_timevec : nat → float → list float.
Variable pars : saccade_pars.

Lemma mapM_cons {A B} (f : A → result B) x l :
  mapM f (x :: l) = y ← f x; k ← mapM f l; Ok (y :: k).
Proof. done. Qed.

Lemma tag_fst {A B} (l : list A) (b : B) : (map (λ a, (a, b)) l).*1 = l.
Proof. induction l as [|a l IH]; [done|]. cbn. by rewrite IH. Qed.

Lemma tag_snd {A B} (l : list A) (b : B) :
  (map (λ a, (a, b)) l).*2 = replicate (length l) b.
Proof. induction l as [|a l IH]; [done|]. cbn. by rewrite IH. Qed.

(** the run loop appends, run after run, the saccades found and as many
    copies of the label of the run *)
Lemma run_loop_labelled positions time_vec sr info category sid runs :
  ∀ saccades labels,
  foldM (run_step px2deg_value pars positions time_vec sr info category sid)
        (saccades, labels) runs =
  per_run ← mapM (labelled_run px2deg_value pars positions time_vec sr info
                               category sid) runs;
  Ok (saccades ++ (concat per_run).*1, labels ++ (concat per_run).*2).
Proof.
  induction runs as [|run runs IH]; intros saccades labels.
  - simpl. by rewrite !app_nil_r.
  - rewrite mapM_cons. cbn [foldM].
    destruct (saccades_in_run px2deg_value pars positions time_vec sr info run)
      as [found|e] eqn:E.
    + assert (run_step px2deg_value pars positions time_vec sr info category
                       sid (saccades, labels) run =
              Ok (saccades ++ found,
                  labels ++ replicate (length found) (category, sid, run)))
        as -> by (unfold run_step; rewrite E; done).
      assert (labelled_run px2deg_value pars positions time_vec sr info
                           category sid run =
              Ok (map (λ s, (s, (category, sid, run))) found))
        as -> by (unfold labelled_run; rewrite E; done).
      cbn. rewrite IH.
      destruct (mapM _ runs) as [per_run|e]; [|done]. cbn.
      rewrite !fmap_app, tag_fst, tag_snd, !app_assoc. done.
    + assert (run_step px2deg_value pars positions time_vec sr info category
                       sid (saccades, labels) run = Raise e)
        as -> by (unfold run_step; rewrite E; done).
      assert (labelled_run px2deg_value pars positions time_vec sr info
                           category sid run = Raise e)
        as -> by (unfold labelled_run; rewrite E; done).
      done.
Qed.

Lemma session_step_labelled saccades labels sid session :
  session_step px2deg_value create_timevec pars (saccades, labels, sid) session =
  here ← labelled_session px2deg_value create_timevec pars (S sid) session;
  Ok (saccades ++ here.*1, labels ++ here.*2, S sid).
Proof.
  unfold session_step, labelled_session. rewrite Nat.add_1_r.
  destruct (dict_get session.2 "sampling_rate" ≫= as_float) as [sr|e]; [|done].
  cbn. destruct (dict_get session.2 "category") as [category|e]; [|done].
  cbn. destruct (dict_get session.2 "num_runs") as [n_runs|e]; [|done].
  cbn. destruct (py_range n_runs) as [runs|e]; [|done].
  cbn. rewrite run_loop_labelled.
  destruct (mapM _ runs) as [per_run|e]; done.
Qed.

Lemma session_loop_labelled sessions : ∀ saccades labels sid,
  foldM (session_step px2deg_value create_timevec pars)
        (saccades, labels, sid) sessions =
  tagged ← labelled_sessions px2deg_value create_timevec pars (S sid) sessions;
  Ok (saccades ++ tagged.*1, labels ++ tagged.*2, sid + length sessions).
Proof.
  induction sessions as [|session sessions IH]; intros saccades labels sid.
  - cbn. by rewrite !app_nil_r, Nat.add_0_r.
  - cbn [foldM labelled_sessions]. rewrite session_step_labelled.
    destruct (labelled_session _ _ _ _ _) as [here|e]; [|done].
    cbn. rewrite IH.
    destruct (labelled_sessions _ _ _ _ _) as [after|e]; [|done].
    cbn. rewrite !fmap_app, !app_assoc.
    do 2 f_equal. lia.
Qed.

Lemma extract_saccades_loop_labelled sessions :
  extract_saccades_loop px2deg_value create_timevec pars sessions =
  tagged ← labelled_sessions px2deg_value create_timevec pars 1 sessions;
  Ok (tagged.*1, tagged.*2, length sessions).
Proof. unfold extract_saccades_loop. by rewrite session_loop_labelled. Qed.

Lemma extract_saccades_labelled sessions :
  extract_saccades_with_labels px2deg_value create_timevec pars sessions =
  tagged ← labelled_sessions px2deg_value create_timevec pars 1 sessions;
  Ok (tagged.*1, tagged.*2).
Proof.
  unfold extract_saccades_with_labels.
  rewrite extract_saccades_loop_labelled.
  destruct (labelled_sessions _ _ _ _ _) as [tagged|e]; [|done].
  cbn. rewrite !length_fmap, Nat.eqb_refl. done.
Qed.

(** the labels of [labelled_sessions] count the sessions from [first] *)
Lemma labelled_run_label positions time_vec sr info category sid run tagged :
  labelled_run px2deg_value pars positions time_vec sr info category sid run
    = Ok tagged →
  Forall (λ sl, sl.2 = (category, sid, run)) tagged.
Proof.
  unfold labelled_run. intros H.
  apply bind_Ok in H as (found & _ & [= <-]).
  apply Forall_forall. intros sl Hsl.
  apply list_elem_of_fmap in Hsl as (s & -> & _). done.
Qed.

End LabellingProofs.

(** ** When the extraction returns *)

Lemma omap_lookup_length {A} (a : list A) (indices : list nat) :
  Forall (λ i, i < length a) indices →
  length (omap (λ i, a !! i) indices) = length indices.
Proof.
  induction indices as [|i indices IH]; intros H; [done|].
  apply Forall_cons in H as [Hi H]. cbn [omap list_omap].
  destruct (lookup_lt_is_Some_2 a i Hi) as [x ->]. simpl.
  f_equal. by apply IH.
Qed.

Lemma selected_indices_bound time_vec start stop :
  Forall (λ i, i < length time_vec) (selected_indices time_vec start stop).
Proof.
  apply Forall_forall. intros i Hi. unfold selected_indices in Hi.
  apply list_elem_of_In, filter_In in Hi as [Hi _]. apply in_seq in Hi. lia.
Qed.

Lemma mapM_Ok {A B} (f : A → result B) (l : list A) :
  (∀ x, x ∈ l → ∃ y, f x = Ok y) → ∃ k, mapM f l = Ok k.
Proof.
  induction l as [|x l IH]; intros H.
  - by exists [].
  - destruct (H x) as [y Hy]; [by left|].
    destruct IH as [k Hk]; [intros z Hz; apply H; by right|].
    exists (y :: k). rewrite mapM_cons, Hy. cbn. rewrite Hk. done.
Qed.

Section Returns.

Variable px2deg_value : float → float.
Variable create_timevec : nat → float → list float.
Variable pars : saccade_pars.
Hypothesis smooth_keeps_length : keeps_length (smooth_func pars).

Lemma found_in_selection_Ok sr run_positions :
  2 ≤ length run_positions →
  ∃ found, found_in_selection px2deg_value pars sr run_positions = Ok found.
Proof.
  intros Hlen. unfold found_in_selection. cbv zeta.
  destruct (smooth_keeps_length (px2deg px2deg_value (map fst run_positions)))
    as (x0 & Hx & Hx0).
  destruct (smooth_keeps_length (px2deg px2deg_value (map snd run_positions)))
    as (y0 & Hy & Hy0).
  unfold px2deg in *. rewrite !length_map in Hx0, Hy0.
  rewrite (find_saccades_smoothed _ _ sr (vel_thresh pars) (min_samples pars)
             (smooth_func pars) x0 y0); [| by rewrite !length_map | done..].
  destruct (Nat.ltb_spec (length x0) 2); [lia|].
  destruct (Nat.ltb_spec (length y0) 2); [lia|]. simpl.
  destruct (Nat.eqb_spec (length x0) (length y0)); [|lia].
  by eexists.
Qed.

Lemma labelled_session_Ok ordinal session :
  session_ready create_timevec session →
  ∃ tagged, labelled_session px2deg_value create_timevec pars ordinal session
            = Ok tagged.
Proof.
  intros (sr & category & n & startS & stopS & Hsr & Hcat & Hn & Hs & Ht & Hlen
          & Hruns).
  unfold labelled_session, dict_get. rewrite Hsr. cbn. rewrite Hcat. cbn.
  rewrite Hn. cbn.
  destruct (mapM_Ok
    (labelled_run px2deg_value pars session.1
       (create_timevec (length session.1) sr) sr session.2 category ordinal)
    (seq 0 (Z.to_nat n))) as [per_run ->]; [|by eexists].
  intros run Hrun. apply elem_of_seq in Hrun.
  destruct (Hruns run) as (start & stop & Hstart & Hstop & Htwo); [lia|].
  unfold labelled_run, saccades_in_run, dict_get. rewrite Hs. cbn.
  rewrite Hstart. cbn. rewrite Ht. cbn. rewrite Hstop. cbn.
  rewrite select_run_selected, Hlen, Nat.eqb_refl. cbn.
  destruct (found_in_selection_Ok sr
    (omap (λ i, session.1 !! i)
       (selected_indices (create_timevec (length session.1) sr) start stop)))
    as [found ->]; [|by eexists].
  rewrite omap_lookup_length; [done|].
  eapply Forall_impl; [apply selected_indices_bound|].
  intros i Hi. simpl in Hi. lia.
Qed.

Lemma labelled_sessions_Ok sessions : ∀ first,
  Forall (session_ready create_timevec) sessions →
  ∃ tagged, labelled_sessions px2deg_value create_timevec pars first sessions
            = Ok tagged.
Proof.
  induction sessions as [|session sessions IH]; intros first H.
  - by exists [].
  - apply Forall_cons in H as [Hs H]. cbn [labelled_sessions].
    destruct (labelled_session_Ok first session Hs) as [here ->].
    destruct (IH (S first) H) as [after ->]. by eexists.
Qed.

End Returns.

Section ExtractProofs.

Variable px2deg_value : float → float.
Variable create_timevec : nat → float → list float.
Variable pars : saccade_pars.

(** the saccades of [labelled_sessions] split by session, the [k]-th part
    labelled with the ordinal [first + k] *)
Lemma labelled_sessions_parts sessions : ∀ first tagged,
  labelled_sessions px2deg_value create_timevec pars first sessions = Ok tagged →
  ∃ parts,
    tagged = concat parts ∧
    Forall2 (λ session part,
               ∃ k, labelled_session px2deg_value create_timevec pars
                                     (first + k) session = Ok part ∧
                    Forall (λ sl, sl.2.1.2 = first + k ∧
                                  session.2 !! "category" = Some sl.2.1.1) part)
            sessions parts ∧
    (∀ k session part, sessions !! k = Some session → parts !! k = Some part →
       labelled_session px2deg_value create_timevec pars (first + k) session
         = Ok part ∧
       Forall (λ sl, sl.2.1.2 = first + k ∧
                     session.2 !! "category" = Some sl.2.1.1) part).
Proof.
  induction sessions as [|session sessions IH]; intros first tagged H.
  - injection H as <-. exists []. split_and!; [done|constructor|].
    intros k s p Hk. done.
  - cbn [labelled_sessions] in H.
    apply bind_Ok in H as (here & Hhere & H).
    apply bind_Ok in H as (after & Hafter & [= <-]).
    destruct (IH _ _ Hafter) as (parts & -> & HF & Hparts).
    assert (Hlab : Forall (λ sl, sl.2.1.2 = first ∧
                             session.2 !! "category" = Some sl.2.1.1) here).
    { clear - Hhere. unfold labelled_session in Hhere.
      apply bind_Ok in Hhere as (sr & _ & H).
      apply bind_Ok in H as (category & Hcat & H).
      apply bind_Ok in H as (n_runs & _ & H).
      apply bind_Ok in H as (runs & _ & H).
      apply bind_Ok in H as (per_run & Hper & [= <-]).
      unfold dict_get in Hcat.
      destruct (session.2 !! "category") as [c|] eqn:Ec; [|done].
      injection Hcat as ->.
      revert per_run Hper. induction runs as [|run runs IHr]; intros per_run Hper.
      - injection Hper as <-. constructor.
      - rewrite mapM_cons in Hper.
        apply bind_Ok in Hper as (y & Hy & Hper).
        apply bind_Ok in Hper as (k & Hk & [= <-]).
        cbn. apply Forall_app. split; [|by apply IHr].
        apply labelled_run_label in Hy.
        eapply Forall_impl; [exact Hy|]. intros sl ->. done. }
    exists (here :: parts). split_and!; [done| |].
    + constructor.
      * exists 0. rewrite Nat.add_0_r. done.
      * eapply Forall2_impl; [exact HF|]. intros s p (k & Hs & Hp).
        exists (S k). by replace (first + S k) with (S first + k) by lia.
    + intros [|k] s p Hs Hp; simplify_eq/=.
      * rewrite Nat.add_0_r. done.
      * replace (first + S k) with (S first + k) by lia. by apply Hparts.
Qed.

(** C5.  [extract_saccades_with_labels] returns each detected saccade with
    one label [(category, ordinal, run)]: the labels of the session at index
    [k] of the input carry the ordinal [k + 1] and the category stored in that
    session's [info]; it raises exactly when the detection of a run does. *)
Theorem extract_saccades_labels sessions :
  extract_saccades_with_labels px2deg_value create_timevec pars sessions =
    (tagged ← labelled_sessions px2deg_value create_timevec pars 1 sessions;
     Ok (tagged.*1, tagged.*2))
  ∧ (∀ saccades labels,
       extract_saccades_with_labels px2deg_value create_timevec pars sessions
         = Ok (saccades, labels) →
       ∃ parts : list (list (saccade * label)),
         saccades = (concat parts).*1 ∧ labels = (concat parts).*2 ∧
         length parts = length sessions ∧
         ∀ k session part,
           sessions !! k = Some session → parts !! k = Some part →
           labelled_session px2deg_value create_timevec pars (S k) session
             = Ok part ∧
           Forall (λ sl, sl.2.1.2 = S k ∧
                         session.2 !! "category" = Some sl.2.1.1) part).
Proof.
  split; [apply extract_saccades_labelled|].
  intros saccades labels H. rewrite extract_saccades_labelled in H.
  apply bind_Ok in H as (tagged & Htag & [= <- <-]).
  destruct (labelled_sessions_parts _ _ _ Htag) as (parts & -> & HF & Hparts).
  exists parts. split_and!; try done.
  symmetry. by eapply Forall2_length.
Qed.

(** C1, as the code has it.  On the empty session list
    [extract_saccades_with_labels] returns two empty lists; whenever it
    returns, the two lists have the same length; whenever the loops finish,
    the final assertion holds, so the function returns what they built; and
    it does return, with lists of the same length, on every list of sessions
    that have their metadata, a time stamp per sample and at least two
    samples in every run, when the smoothing function keeps the length. *)
Theorem extract_saccades_lengths :
  extract_saccades_with_labels px2deg_value create_timevec pars [] = Ok ([], [])
  ∧ (∀ sessions saccades labels,
       extract_saccades_with_labels px2deg_value create_timevec pars sessions
         = Ok (saccades, labels) →
       length saccades = length labels)
  ∧ (∀ sessions saccades labels n,
       extract_saccades_loop px2deg_value create_timevec pars sessions
         = Ok (saccades, labels, n) →
       length saccades = length labels ∧
       extract_saccades_with_labels px2deg_value create_timevec pars sessions
         = Ok (saccades, labels))
  ∧ (∀ sessions,
       keeps_length (smooth_func pars) →
       Forall (session_ready create_timevec) sessions →
       ∃ saccades labels,
         extract_saccades_with_labels px2deg_value create_timevec pars sessions
           = Ok (saccades, labels) ∧
         length saccades = length labels).
Proof.
  split_and!.
  - done.
  - intros sessions saccades labels H. rewrite extract_saccades_labelled in H.
    apply bind_Ok in H as (tagged & _ & [= <- <-]).
    by rewrite !length_fmap.
  - intros sessions saccades labels n H.
    rewrite extract_saccades_labelled.
    rewrite extract_saccades_loop_labelled in H.
    apply bind_Ok in H as (tagged & -> & [= <- <- <-]).
    by rewrite !length_fmap.
  - intros sessions Hsmooth Hready.
    destruct (labelled_sessions_Ok px2deg_value create_timevec pars Hsmooth
                sessions 1 Hready) as [tagged Htagged].
    exists tagged.*1, tagged.*2. rewrite extract_saccades_labelled, Htagged.
    split; [done|]. by rewrite !length_fmap.
Qed.

End ExtractProofs.

(** ** The samples every run works on *)

Lemma mapM_Ok_inv {A B} (f : A → result B) (l : list A) k :
  mapM f l = Ok k → Forall2 (λ x y, f x = Ok y) l k.
Proof.
  revert k. induction l as [|x l IH]; intros k H.
  - injection H as <-. constructor.
  - rewrite mapM_cons in H.
    apply bind_Ok in H as (y & Hy & H).
    apply bind_Ok in H as (k' & Hk & [= <-]).
    constructor; [done|by apply IH].
Qed.

Section RunSelection.

Variable px2deg_value : float → float.
Variable create_timevec : nat → float → list float.
Variable pars : saccade_pars.

(** what a run that returns has read *)
Lemma saccades_in_run_inv positions time_vec sampling_rate (info : dict) run
    found :
  saccades_in_run px2deg_value pars positions time_vec sampling_rate info run
    = Ok found →
  ∃ startS stopS start stop,
    info !! "startS" = Some (PFloats startS) ∧ startS !! run = Some start ∧
    info !! "stopS" = Some (PFloats stopS) ∧ stopS !! run = Some stop ∧
    length time_vec = length positions ∧
    found_in_selection px2deg_value pars sampling_rate
      (omap (λ i, positions !! i) (selected_indices time_vec start stop))
      = Ok found.
Proof.
  unfold saccades_in_run. intros H.
  apply bind_Ok in H as (vstart & Hvs & H).
  apply bind_Ok in H as (start & Hs & H).
  apply bind_Ok in H as (vstop & Hvt & H).
  apply bind_Ok in H as (stop & Ht & H).
  apply bind_Ok in H as (run_positions & Hrun & H).
  unfold dict_get in Hvs, Hvt.
  destruct (info !! "startS") as [v1|] eqn:E1; [|done]. injection Hvs as ->.
  destruct (info !! "stopS") as [v2|] eqn:E2; [|done]. injection Hvt as ->.
  unfold py_index in Hs, Ht.
  destruct vstart as [| | | |startS|]; try done.
  destruct vstop as [| | | |stopS|]; try done.
  destruct (startS !! run) as [x|] eqn:Es; [|done]. injection Hs as ->.
  destruct (stopS !! run) as [x|] eqn:Et; [|done]. injection Ht as ->.
  exists startS, stopS, start, stop. split_and!; try done.
  - rewrite select_run_selected in Hrun.
    by destruct (Nat.eqb_spec (length time_vec) (length positions)).
  - rewrite select_run_selected in Hrun.
    destruct (length time_vec =? length positions); [|done].
    injection Hrun as <-. exact H.
Qed.

Lemma saccades_in_run_found positions time_vec sampling_rate (info : dict) run
    startS stopS start stop :
  info !! "startS" = Some (PFloats startS) → startS !! run = Some start →
  info !! "stopS" = Some (PFloats stopS) → stopS !! run = Some stop →
  length time_vec = length positions →
  saccades_in_run px2deg_value pars positions time_vec sampling_rate info run
  = found_in_selection px2deg_value pars sampling_rate
      (omap (λ i, positions !! i) (selected_indices time_vec start stop)).
Proof.
  intros Hs Hstart Ht Hstop Hlen. unfold saccades_in_run, dict_get.
  rewrite Hs. cbn. rewrite Hstart. cbn. rewrite Ht. cbn. rewrite Hstop. cbn.
  rewrite select_run_selected, Hlen, Nat.eqb_refl. done.
Qed.

Lemma labelled_session_inv ordinal session part :
  labelled_session px2deg_value create_timevec pars ordinal session = Ok part →
  ∃ sr category n per_run,
    session.2 !! "sampling_rate" = Some (PFloat sr) ∧
    session.2 !! "category" = Some category ∧
    session.2 !! "num_runs" = Some (PInt n) ∧
    Forall2 (λ run tagged,
               labelled_run px2deg_value pars session.1
                 (create_timevec (length session.1) sr) sr session.2 category
                 ordinal run = Ok tagged)
            (seq 0 (Z.to_nat n)) per_run ∧
    part = concat per_run.
Proof.
  unfold labelled_session. intros H.
  apply bind_Ok in H as (sr & Hsr & H).
  apply bind_Ok in H as (category & Hcat & H).
  apply bind_Ok in H as (n_runs & Hn & H).
  apply bind_Ok in H as (runs & Hruns & H).
  apply bind_Ok in H as (per_run & Hper & [= <-]).
  apply bind_Ok in Hsr as (v & Hv & Hsr).
  unfold dict_get in Hv, Hcat, Hn.
  destruct (session.2 !! "sampling_rate") as [v'|] eqn:E1; [|done].
  injection Hv as ->. destruct v; try done. injection Hsr as ->.
  destruct (session.2 !! "category") as [c|] eqn:E2; [|done].
  injection Hcat as ->.
  destruct (session.2 !! "num_runs") as [m|] eqn:E3; [|done].
  injection Hn as ->. destruct n_runs as [|n| | | |]; try done.
  injection Hruns as <-.
  exists sr, category, n, per_run. split_and!; try done.
  by apply mapM_Ok_inv.
Qed.

End RunSelection.

Section SelectionProofs.

Variable px2deg_value : float → float.
Variable create_timevec : nat → float → list float.
Variable pars : saccade_pars.

Lemma mapM_Forall2 {A B} (f : A → result B) (l : list A) k :
  Forall2 (λ x y, f x = Ok y) l k → mapM f l = Ok k.
Proof.
  induction 1 as [|x y l k Hxy _ IH]; [done|].
  rewrite mapM_cons, Hxy. cbn. by rewrite IH.
Qed.

Lemma labelled_session_selected ordinal session part :
  labelled_session px2deg_value create_timevec pars ordinal session = Ok part →
  ∃ per_run,
    selected_per_run px2deg_value create_timevec pars session per_run ∧
    part.*1 = concat per_run.
Proof.
  intros H. apply labelled_session_inv in H
    as (sr & category & n & tagged & Hsr & Hcat & Hn & Hper & ->).
  assert (∃ per_run,
            Forall2 (λ run found,
               ∃ startS stopS start stop,
                 session.2 !! "startS" = Some (PFloats startS) ∧
                 startS !! run = Some start ∧
                 session.2 !! "stopS" = Some (PFloats stopS) ∧
                 stopS !! run = Some stop ∧
                 length (create_timevec (length session.1) sr)
                   = length session.1 ∧
                 found_in_selection px2deg_value pars sr
                   (omap (λ i, session.1 !! i)
                      (selected_indices (create_timevec (length session.1) sr)
                                        start stop))
                   = Ok found)
              (seq 0 (Z.to_nat n)) per_run ∧
            (concat tagged).*1 = concat per_run) as (per_run & HF & Heq).
  { clear Hn. revert Hper. generalize (seq 0 (Z.to_nat n)). intros runs Hper.
    induction Hper as [|run t runs tagged Hrun _ IH].
    - exists []. split; [constructor|done].
    - destruct IH as (per_run & HF & Heq).
      unfold labelled_run in Hrun.
      apply bind_Ok in Hrun as (found & Hfound & [= <-]).
      apply saccades_in_run_inv in Hfound.
      exists (found :: per_run). split; [by constructor|].
      cbn [concat]. rewrite fmap_app, Heq, tag_fst. done. }
  exists per_run. split; [|done]. by exists sr, category, n.
Qed.

Lemma selected_labelled_session ordinal session per_run :
  selected_per_run px2deg_value create_timevec pars session per_run →
  ∃ part,
    labelled_session px2deg_value create_timevec pars ordinal session = Ok part ∧
    part.*1 = concat per_run.
Proof.
  intros (sr & category & n & Hsr & Hcat & Hn & HF).
  unfold labelled_session, dict_get. rewrite Hsr. cbn. rewrite Hcat. cbn.
  rewrite Hn. cbn.
  assert (∃ tagged,
            mapM (labelled_run px2deg_value pars session.1
                    (create_timevec (length session.1) sr) sr session.2
                    category ordinal) (seq 0 (Z.to_nat n)) = Ok tagged ∧
            (concat tagged).*1 = concat per_run) as (tagged & -> & Heq).
  { revert HF. generalize (seq 0 (Z.to_nat n)). intros runs HF.
    induction HF as [|run found runs per_run Hrun _ IH].
    - by exists [].
    - destruct IH as (tagged & Hm & Heq).
      destruct Hrun as (startS & stopS & start & stop & Hs & Hstart & Ht
                        & Hstop & Hlen & Hf).
      exists (map (λ s, (s, (category, ordinal, run))) found :: tagged).
      rewrite mapM_cons.
      assert (labelled_run px2deg_value pars session.1
                (create_timevec (length session.1) sr) sr session.2 category
                ordinal run
              = Ok (map (λ s, (s, (category, ordinal, run))) found)) as ->.
      { unfold labelled_run.
        rewrite (saccades_in_run_found px2deg_value pars _ _ _ _ _ _ _ _ _
                   Hs Hstart Ht Hstop Hlen), Hf. done. }
      cbn. rewrite Hm. cbn. split; [done|].
      by rewrite fmap_app, Heq, tag_fst. }
  by eexists.
Qed.

(** the saccades of the sessions are those of their runs, each run taken
    from the samples selected for it *)
Lemma labelled_sessions_selected sessions : ∀ first saccades,
  (∃ tagged, labelled_sessions px2deg_value create_timevec pars first sessions
             = Ok tagged ∧ tagged.*1 = saccades) ↔
  ∃ per_session,
    Forall2 (selected_per_run px2deg_value create_timevec pars)
            sessions per_session ∧
    saccades = concat (concat per_session).
Proof.
  induction sessions as [|session sessions IH]; intros first saccades.
  - split.
    + intros (tagged & [= <-] & <-). exists []. split; [constructor|done].
    + intros (per_session & HF & ->). apply Forall2_nil_inv_l in HF as ->.
      by exists [].
  - cbn [labelled_sessions]. split.
    + intros (tagged & H & <-).
      apply bind_Ok in H as (here & Hhere & H).
      apply bind_Ok in H as (after & Hafter & [= <-]).
      apply labelled_session_selected in Hhere as (per_run & Hsel & Heq).
      destruct (proj1 (IH (S first) after.*1)) as (per_session & HF & Hafter');
        [by exists after|].
      exists (per_run :: per_session). split; [by constructor|].
      cbn [concat]. by rewrite fmap_app, Heq, Hafter', concat_app.
    + intros (per_session & HF & ->).
      apply Forall2_cons_inv_l in HF as (per_run & rest & Hsel & HF & ->).
      destruct (selected_labelled_session first session per_run Hsel)
        as (here & -> & Heq).
      destruct (proj2 (IH (S first) (concat (concat rest))))
        as (after & -> & Hafter); [by exists rest|].
      exists (here ++ after). split; [done|].
      cbn [concat]. by rewrite fmap_app, Heq, Hafter, concat_app.
Qed.

Lemma extract_saccades_selected sessions saccades :
  (∃ labels,
     extract_saccades_with_labels px2deg_value create_timevec pars sessions
       = Ok (saccades, labels)) ↔
  ∃ per_session,
    Forall2 (selected_per_run px2deg_value create_timevec pars)
            sessions per_session ∧
    saccades = concat (concat per_session).
Proof.
  rewrite <- (labelled_sessions_selected sessions 1 saccades).
  rewrite extract_saccades_labelled. split.
  - intros (labels & H). apply bind_Ok in H as (tagged & Ht & [= <- <-]).
    by exists tagged.
  - intros (tagged & -> & <-). by eexists.
Qed.

End SelectionProofs.

(** C4.  The samples of a run are exactly those whose timestamp [t]
    satisfies [run_start < t] and [t <= run_stop]: a sample stamped
    [run_start] is left out, a sample stamped [run_stop] is taken.  For the
    time vector [0, 1, 2, 3, 4] with [run_start = 1] and [run_stop = 3] these
    are the samples at the indices 2 and 3.  The detector of a run works on
    this selection, with [run_start] and [run_stop] read from
    [info['startS'][run]] and [info['stopS'][run]]; and
    [extract_saccades_with_labels] returns, for every session and every run
    in their order, the saccades found in the samples so selected from the
    time vector of the session: it returns exactly when every run of every
    session yields them. *)
Theorem select_run_interval positions time_vec run_start run_stop :
  select_run positions time_vec run_start run_stop =
    (if length time_vec =? length positions
     then Ok (omap (λ i, positions !! i)
                   (selected_indices time_vec run_start run_stop))
     else Raise IndexError)
  ∧ (∀ i, In i (selected_indices time_vec run_start run_stop) ↔
          ∃ t, time_vec !! i = Some t ∧
               PrimFloat.ltb run_start t = true ∧
               PrimFloat.leb t run_stop = true)
  ∧ (∀ i t, time_vec !! i = Some t →
       (PrimFloat.eqb t run_start = true →
        ¬ In i (selected_indices time_vec run_start run_stop)) ∧
       (PrimFloat.eqb t run_stop = true →
        PrimFloat.ltb run_start run_stop = true →
        In i (selected_indices time_vec run_start run_stop)))
  ∧ selected_indices [0; 1; 2; 3; 4]%float 1%float 3%float = [2; 3]
  ∧ (∀ px2deg_value pars sampling_rate info run found,
       saccades_in_run px2deg_value pars positions time_vec sampling_rate
                       info run = Ok found →
       ∃ startS stopS start stop,
         info !! "startS" = Some (PFloats startS) ∧ startS !! run = Some start ∧
         info !! "stopS" = Some (PFloats stopS) ∧ stopS !! run = Some stop ∧
         found_in_selection px2deg_value pars sampling_rate
           (omap (λ i, positions !! i) (selected_indices time_vec start stop))
           = Ok found)
  ∧ (∀ px2deg_value create_timevec pars sessions saccades,
       (∃ labels,
          extract_saccades_with_labels px2deg_value create_timevec pars
                                       sessions = Ok (saccades, labels)) ↔
       ∃ per_session,
         Forall2 (selected_per_run px2deg_value create_timevec pars)
                 sessions per_session ∧
         saccades = concat (concat per_session)).
Proof.
  split_and!.
  - apply select_run_selected.
  - apply selected_indices_In.
  - apply selected_indices_ends.
  - vm_compute. reflexivity.
  - intros px2deg_value pars sr info run found H.
    apply saccades_in_run_inv in H
      as (startS & stopS & start & stop & Hs & Hstart & Ht & Hstop & _ & Hf).
    by exists startS, stopS, start, stop.
  - intros px2deg_value create_timevec pars sessions saccades.
    apply extract_saccades_selected.
Qed.

(** ** The fixation loop *)

Section FixationProofs.

Variable px2deg_value : float → float.
Variable create_timevec : nat → float → list float.
Variable is_fixation :
  list (float * float) → list float → float → result (list bool).

Lemma session_lookups_Ok (info : dict) (islands : list (nat * nat)) :
  is_Some (info !! "session") →
  foldM (λ (_ : unit) (start_stop : nat * nat),
           session ← dict_get info "session"; Ok tt) tt islands = Ok tt.
Proof.
  intros [v Hv].
  assert (dict_get info "session" = Ok v) as -> by (unfold dict_get; by rewrite Hv).
  induction islands as [|i islands IH]; [done|]. cbn. exact IH.
Qed.

Lemma session_lookups_KeyError (info : dict) (islands : list (nat * nat)) :
  info !! "session" = None → islands ≠ [] →
  foldM (λ (_ : unit) (start_stop : nat * nat),
           session ← dict_get info "session"; Ok tt) tt islands = Raise KeyError.
Proof.
  intros Hv Hne. destruct islands as [|i islands]; [done|].
  cbn. unfold dict_get. by rewrite Hv.
Qed.

(** the local list of labels is empty when an iteration ends *)
Lemma fixation_session_step_labels sid session sid' labels :
  fixation_session_step px2deg_value create_timevec is_fixation sid session
    = Ok (sid', labels) →
  sid' = sid + 1 ∧ labels = [].
Proof.
  unfold fixation_session_step. intros H.
  apply bind_Ok in H as (sr & _ & H).
  apply bind_Ok in H as (category & _ & H).
  apply bind_Ok in H as (n_runs & _ & H).
  apply bind_Ok in H as (n_intervals & _ & H).
  apply bind_Ok in H as (mask & _ & H).
  apply bind_Ok in H as (u & _ & [= <- <-]). done.
Qed.

Lemma extract_fixations_None sessions v :
  extract_fixations_with_labels px2deg_value create_timevec is_fixation sessions
    = Ok v → v = PNone.
Proof.
  unfold extract_fixations_with_labels. intros H.
  apply bind_Ok in H as (sid & _ & [= <-]). done.
Qed.

(** what one iteration does, by the keys of [info] and the mask found *)
Lemma fixation_session_step_cases sid positions (info : dict) sr category n_runs
    n_intervals mask :
  info !! "sampling_rate" = Some (PFloat sr) →
  info !! "category" = Some category →
  info !! "num_runs" = Some n_runs →
  py_pred n_runs = Ok n_intervals →
  is_fixation (px2deg_2d px2deg_value positions)
              (create_timevec (length positions) sr) sr = Ok mask →
  fixation_session_step px2deg_value create_timevec is_fixation sid
                        (positions, info) =
    if decide (find_islands mask 1 = []) then Ok (sid + 1, [])
    else match info !! "session" with
         | Some _ => Ok (sid + 1, [])
         | None => Raise KeyError
         end.
Proof.
  intros Hsr Hcat Hn Hpred Hfix.
  assert (dict_get info "sampling_rate" = Ok (PFloat sr)) as Esr
    by (unfold dict_get; by rewrite Hsr).
  assert (dict_get info "category" = Ok category) as Ecat
    by (unfold dict_get; by rewrite Hcat).
  assert (dict_get info "num_runs" = Ok n_runs) as En
    by (unfold dict_get; by rewrite Hn).
  unfold fixation_session_step. cbn [fst snd].
  rewrite Esr. cbn [mbind result_bind as_float].
  rewrite Ecat. cbn [mbind result_bind].
  rewrite En. cbn [mbind result_bind].
  rewrite Hpred. cbn [mbind result_bind].
  rewrite Hfix. cbn [mbind result_bind].
  destruct (decide (find_islands mask 1 = [])) as [->|Hne]; [done|].
  destruct (info !! "session") as [v|] eqn:Hs.
  - rewrite session_lookups_Ok by (by rewrite Hs). done.
  - rewrite session_lookups_KeyError by done. done.
Qed.

End FixationProofs.

Section MetadataProofs.

Variable env : mat_env.

Lemma extract_meta_info_fold session_paths : ∀ out meta_info_list,
  fold_left
    (λ '(out, meta_info_list) session_path,
       let '(lines, meta_info) := meta_info_of_session env session_path in
       (out ++ lines, meta_info_list ++ [meta_info]))
    session_paths (out, meta_info_list) =
  (out ++ concat (map (λ p, (meta_info_of_session env p).1) session_paths),
   meta_info_list ++ map (λ p, (meta_info_of_session env p).2) session_paths).
Proof.
  induction session_paths as [|p ps IH]; intros out l; simpl.
  - by rewrite !app_nil_r.
  - destruct (meta_info_of_session env p) as [lines d] eqn:E.
    rewrite IH. simpl. by rewrite <- !app_assoc.
Qed.

(** every session gives one dictionary, made from its own folder only *)
Lemma extract_meta_info_sessions session_paths :
  extract_meta_info env session_paths =
  (concat (map (λ p, (meta_info_of_session env p).1) session_paths),
   map (λ p, (meta_info_of_session env p).2) session_paths).
Proof. unfold extract_meta_info. by rewrite extract_meta_info_fold. Qed.

Lemma meta_info_step_unusable p (d : dict) :
  unusable (glob env (p +:+ "/*metaInfo.mat")) (load_info env) = true →
  length (meta_info_step env p d).1 = 1 ∧
  (meta_info_step env p d).2 = dict_update d none_info.
Proof.
  unfold unusable, meta_info_step.
  destruct (glob env _) as [|f [|f' fs]]; try done.
  destruct (load_info env f); done.
Qed.

Lemma meta_info_step_usable p (d : dict) :
  unusable (glob env (p +:+ "/*metaInfo.mat")) (load_info env) = false →
  (meta_info_step env p d).1 = [].
Proof.
  unfold unusable, meta_info_step.
  destruct (glob env _) as [|f [|f' fs]]; try done.
  destruct (load_info env f) as [[[[[m1 m2] ot] nal]|]|e]; done.
Qed.

Lemma meta_runs_step_unusable p (d : dict) :
  unusable (glob env (p +:+ "/*runs.mat")) (load_runs env) = true →
  length (meta_runs_step env p d).1 = 1 ∧
  (meta_runs_step env p d).2 = dict_update d none_runs.
Proof.
  unfold unusable, meta_runs_step.
  destruct (glob env _) as [|f [|f' fs]]; try done.
  destruct (load_runs env f); done.
Qed.

Lemma meta_runs_step_usable p (d : dict) :
  unusable (glob env (p +:+ "/*runs.mat")) (load_runs env) = false →
  (meta_runs_step env p d).1 = [].
Proof.
  unfold unusable, meta_runs_step.
  destruct (glob env _) as [|f [|f' fs]]; try done.
  destruct (load_runs env f) as [[[s t]|]|e]; done.
Qed.

Lemma meta_landmarks_step_unusable p (d : dict) :
  unusable (glob env (p +:+ "/*M1_farPlaneCal.mat")) (load_landmarks env)
    = true →
  length (meta_landmarks_step env p d).1 = 1 ∧
  (meta_landmarks_step env p d).2 = dict_update d none_bboxes.
Proof.
  unfold unusable, meta_landmarks_step.
  destruct (glob env _) as [|f [|f' fs]]; try done.
  destruct (load_landmarks env f); done.
Qed.

Lemma meta_landmarks_step_usable p (d : dict) :
  unusable (glob env (p +:+ "/*M1_farPlaneCal.mat")) (load_landmarks env)
    = false →
  (meta_landmarks_step env p d).1 = [].
Proof.
  unfold unusable, meta_landmarks_step.
  destruct (glob env _) as [|f [|f' fs]]; try done.
  destruct (load_landmarks env f) as [[[[[b1 b2] b3] b4]|]|e]; done.
Qed.

Lemma meta_info_step_other p (d : dict) k :
  k ∉ info_keys → (meta_info_step env p d).2 !! k = d !! k.
Proof.
  intros Hk. unfold meta_info_step, dict_update, none_info, info_keys in *.
  split_keys Hk.
  destruct (glob env _) as [|f [|f' fs]]; simpl;
    [| destruct (load_info env f) as [[[[[m1 m2] ot] nal]|]|e]; simpl|];
    rewrite !lookup_union, !lookup_singleton_ne by done; by destruct (d !! k).
Qed.

Lemma meta_runs_step_other p (d : dict) k :
  k ∉ runs_keys → (meta_runs_step env p d).2 !! k = d !! k.
Proof.
  intros Hk. unfold meta_runs_step, dict_update, none_runs, runs_keys in *.
  split_keys Hk.
  destruct (glob env _) as [|f [|f' fs]]; simpl;
    [| destruct (load_runs env f) as [[[s t]|]|e]; simpl|];
    rewrite !lookup_union, !lookup_singleton_ne by done; by destruct (d !! k).
Qed.

Lemma meta_landmarks_step_other p (d : dict) k :
  k ∉ bbox_keys → (meta_landmarks_step env p d).2 !! k = d !! k.
Proof.
  intros Hk. unfold meta_landmarks_step, dict_update, none_bboxes, bbox_keys in *.
  split_keys Hk.
  destruct (glob env _) as [|f [|f' fs]]; simpl;
    [| destruct (load_landmarks env f) as [[[[[b1 b2] b3] b4]|]|e]; simpl|];
    rewrite !lookup_union, !lookup_singleton_ne by done; by destruct (d !! k).
Qed.

Lemma meta_info_of_session_eq p :
  meta_info_of_session env p =
  let d0 : dict := {[ "session_name" := PStr (basename env p) ]} in
  let s1 := meta_info_step env p d0 in
  let s2 := meta_runs_step env p s1.2 in
  let s3 := meta_landmarks_step env p s2.2 in
  (s1.1 ++ s2.1 ++ s3.1, s3.2).
Proof.
  unfold meta_info_of_session. cbv zeta.
  destruct (meta_info_step env p _) as [o1 d1].
  destruct (meta_runs_step env p _) as [o2 d2].
  destruct (meta_landmarks_step env p _) as [o3 d3]. done.
Qed.

(** no step writes a key ['session'] *)
Lemma meta_info_of_session_no_session p :
  (meta_info_of_session env p).2 !! "session" = None.
Proof.
  rewrite meta_info_of_session_eq. cbv zeta. cbn [snd].
  rewrite meta_landmarks_step_other by (unfold bbox_keys; solve_not_key).
  rewrite meta_runs_step_other by (unfold runs_keys; solve_not_key).
  rewrite meta_info_step_other by (unfold info_keys; solve_not_key).
  done.
Qed.

(** one line is printed for each unusable file of the session, none
    otherwise *)
Lemma meta_info_of_session_lines p :
  length (meta_info_of_session env p).1 =
  flag (unusable (glob env (p +:+ "/*metaInfo.mat")) (load_info env)) +
  flag (unusable (glob env (p +:+ "/*runs.mat")) (load_runs env)) +
  flag (unusable (glob env (p +:+ "/*M1_farPlaneCal.mat")) (load_landmarks env)).
Proof.
  rewrite meta_info_of_session_eq. cbv zeta. cbn [fst].
  rewrite !length_app.
  destruct (unusable (glob env (p +:+ "/*metaInfo.mat")) _) eqn:E1;
  destruct (unusable (glob env (p +:+ "/*runs.mat")) _) eqn:E2;
  destruct (unusable (glob env (p +:+ "/*M1_farPlaneCal.mat")) _) eqn:E3;
  repeat match goal with
    | |- context [length (meta_info_step env p ?d).1] =>
        first [ rewrite (proj1 (meta_info_step_unusable p d E1))
              | rewrite (meta_info_step_usable p d E1) ]
    | |- context [length (meta_runs_step env p ?d).1] =>
        first [ rewrite (proj1 (meta_runs_step_unusable p d E2))
              | rewrite (meta_runs_step_usable p d E2) ]
    | |- context [length (meta_landmarks_step env p ?d).1] =>
        first [ rewrite (proj1 (meta_landmarks_step_unusable p d E3))
              | rewrite (meta_landmarks_step_usable p d E3) ]
    end; done.
Qed.

Lemma meta_info_of_session_none_info p :
  unusable (glob env (p +:+ "/*metaInfo.mat")) (load_info env) = true →
  Forall (λ k, (meta_info_of_session env p).2 !! k = Some PNone) info_keys.
Proof.
  intros E. rewrite meta_info_of_session_eq. cbv zeta. cbn [snd].
  unfold info_keys. repeat apply Forall_cons_2; [..|apply Forall_nil_2];
    (rewrite meta_landmarks_step_other by (unfold bbox_keys; solve_not_key);
     rewrite meta_runs_step_other by (unfold runs_keys; solve_not_key);
     rewrite (proj2 (meta_info_step_unusable p _ E)); reflexivity).
Qed.

Lemma meta_info_of_session_none_runs p :
  unusable (glob env (p +:+ "/*runs.mat")) (load_runs env) = true →
  (meta_info_of_session env p).2 !! "startS" = Some PNone ∧
  (meta_info_of_session env p).2 !! "stopS" = Some PNone ∧
  (meta_info_of_session env p).2 !! "num_runs" = Some (PInt 0).
Proof.
  intros E. rewrite meta_info_of_session_eq. cbv zeta. cbn [snd].
  split_and!;
    (rewrite meta_landmarks_step_other by (unfold bbox_keys; solve_not_key);
     rewrite (proj2 (meta_runs_step_unusable p _ E));
     unfold dict_update; rewrite lookup_union_l'; [reflexivity|by eexists]).
Qed.

Lemma meta_info_of_session_none_bboxes p :
  unusable (glob env (p +:+ "/*M1_farPlaneCal.mat")) (load_landmarks env)
    = true →
  Forall (λ k, (meta_info_of_session env p).2 !! k = Some PNone) bbox_keys.
Proof.
  intros E. rewrite meta_info_of_session_eq. cbv zeta. cbn [snd].
  unfold bbox_keys. repeat apply Forall_cons_2; [..|apply Forall_nil_2];
    (rewrite (proj2 (meta_landmarks_step_unusable p _ E));
     unfold dict_update; rewrite lookup_union_l'; [reflexivity|by eexists]).
Qed.

Lemma get_runs_data_unusable p :
  unusable (glob env (p +:+ "/*runs.mat")) (load_runs env) = true →
  length (get_runs_data env p).1 = 1 ∧ (get_runs_data env p).2 = ∅.
Proof.
  unfold unusable, get_runs_data.
  destruct (glob env _) as [|f [|f' fs]]; try done.
  destruct (load_runs env f); done.
Qed.

End MetadataProofs.

(** ** Ordering dose rows *)

(** on numbers, numpy's sort order is the order of the floats *)
Lemma np_compare_fcmp a b :
  PrimFloat.eqb a a = true → PrimFloat.eqb b b = true →
  fcmp a b = Some (np_compare a b).
Proof.
  intros Ha Hb. destruct (fcmp_total a b Ha Hb) as [c Hc].
  assert (Hba : fcmp b a = Some (CompOpp c)) by (rewrite fcmp_sym, Hc; done).
  unfold np_compare, np_lt. rewrite Ha, Hb. simpl. rewrite !orb_false_r.
  destruct (PrimFloat.ltb a b) eqn:Eab.
  { apply ltb_fcmp in Eab. congruence. }
  destruct (PrimFloat.ltb b a) eqn:Eba.
  { apply ltb_fcmp in Eba. rewrite Hc. f_equal.
    destruct c; simpl in *; congruence. }
  destruct c; try done.
  - apply ltb_fcmp in Hc. congruence.
  - apply ltb_fcmp in Hba. congruence.
Qed.

Lemma np_compare_eqb a b :
  PrimFloat.eqb a a = true → PrimFloat.eqb b b = true →
  PrimFloat.eqb a b = true ↔ np_compare a b = Eq.
Proof.
  intros Ha Hb. rewrite eqb_fcmp, (np_compare_fcmp a b Ha Hb).
  split; [by intros [= ->]|by intros ->].
Qed.

Lemma np_compare_opp a b :
  PrimFloat.eqb a a = true → PrimFloat.eqb b b = true →
  np_compare b a = CompOpp (np_compare a b).
Proof.
  intros Ha Hb. pose proof (np_compare_fcmp b a Hb Ha) as H.
  rewrite fcmp_sym, (np_compare_fcmp a b Ha Hb) in H. by injection H.
Qed.

Lemma np_compare_trans a b c :
  PrimFloat.eqb a a = true → PrimFloat.eqb b b = true →
  PrimFloat.eqb c c = true →
  np_compare a b ≠ Gt → np_compare b c ≠ Gt →
  np_compare a c = match np_compare a b with Eq => np_compare b c | _ => Lt end.
Proof.
  intros Ha Hb Hc Hab Hbc.
  pose proof (fcmp_trans a b c _ _ (np_compare_fcmp a b Ha Hb)
                (np_compare_fcmp b c Hb Hc) Hab Hbc) as H.
  rewrite (np_compare_fcmp a c Ha Hc) in H. by injection H.
Qed.

Lemma valid_row_fields r :
  valid_row r ↔ PrimFloat.eqb r.1 r.1 = true ∧ PrimFloat.eqb r.2 r.2 = true.
Proof. unfold valid_row, no_nan_row. apply andb_true_iff. Qed.

Lemma row_compare_eqb a b :
  valid_row a → valid_row b → row_eqb a b = true ↔ row_compare a b = Eq.
Proof.
  rewrite !valid_row_fields. intros [Ha1 Ha2] [Hb1 Hb2].
  unfold row_eqb, row_compare. rewrite andb_true_iff.
  rewrite (np_compare_eqb _ _ Ha1 Hb1), (np_compare_eqb _ _ Ha2 Hb2).
  destruct (np_compare a.1 b.1); intuition congruence.
Qed.

Lemma row_compare_opp a b :
  valid_row a → valid_row b → row_compare b a = CompOpp (row_compare a b).
Proof.
  rewrite !valid_row_fields. intros [Ha1 Ha2] [Hb1 Hb2].
  unfold row_compare.
  rewrite (np_compare_opp _ _ Ha1 Hb1), (np_compare_opp _ _ Ha2 Hb2).
  by destruct (np_compare a.1 b.1).
Qed.

Lemma row_compare_trans a b c :
  valid_row a → valid_row b → valid_row c →
  row_compare a b ≠ Gt → row_compare b c ≠ Gt →
  row_compare a c =
    match row_compare a b with Eq => row_compare b c | _ => Lt end.
Proof.
  rewrite !valid_row_fields. intros [Ha1 Ha2] [Hb1 Hb2] [Hc1 Hc2].
  unfold row_compare. intros Hab Hbc.
  pose proof (np_compare_trans _ _ _ Ha1 Hb1 Hc1) as H1.
  pose proof (np_compare_trans _ _ _ Ha2 Hb2 Hc2) as H2.
  destruct (np_compare a.1 b.1) eqn:E1, (np_compare b.1 c.1) eqn:E2;
    try done; rewrite H1 by done; try done.
  - by apply H2.
  - by destruct (np_compare a.2 b.2).
Qed.

Lemma row_eqb_refl a : valid_row a → row_eqb a a = true.
Proof.
  intros Ha. apply row_compare_eqb; [done..|].
  pose proof (row_compare_opp a a Ha Ha) as H.
  by destruct (row_compare a a).
Qed.

Lemma row_eqb_sym a b : row_eqb a b = row_eqb b a.
Proof.
  unfold row_eqb.
  assert (∀ x y, PrimFloat.eqb x y = PrimFloat.eqb y x) as Hs.
  { intros x y. rewrite !FloatAxioms.eqb_spec. unfold SFeqb.
    rewrite (SFcompare_sym (Prim2SF x) (Prim2SF y)).
    by destruct (SFcompare _ _) as [[]|]. }
  by rewrite (Hs a.1), (Hs a.2).
Qed.

Lemma row_eqb_valid_l a b : valid_row b → row_eqb a b = true → valid_row a.
Proof.
  unfold row_eqb. rewrite andb_true_iff, !eqb_fcmp. intros _ [H1 H2].
  apply valid_row_fields.
  apply fcmp_Some_number in H1, H2. tauto.
Qed.

Lemma row_eqb_trans a b c :
  valid_row a → valid_row b → valid_row c →
  row_eqb a b = true → row_eqb b c = true → row_eqb a c = true.
Proof.
  intros Ha Hb Hc. rewrite !row_compare_eqb by done. intros Hab Hbc.
  rewrite (row_compare_trans a b c) by (done || congruence).
  by rewrite Hab.
Qed.

Lemma row_lt_eqb a b :
  valid_row a → valid_row b → row_compare a b = Lt → row_eqb a b = false.
Proof.
  intros Ha Hb H. apply not_true_is_false. rewrite row_compare_eqb by done.
  congruence.
Qed.

(** equal rows compare alike with every other row *)
Lemma row_compare_eqb_l a b c :
  valid_row a → valid_row b → valid_row c →
  row_eqb a b = true → row_compare a c = row_compare b c.
Proof.
  intros Ha Hb Hc Hab.
  assert (row_compare a b = Eq) as E by (by apply row_compare_eqb).
  assert (row_compare b a = Eq) as E' by (rewrite row_compare_opp, E; done).
  destruct (row_compare b c) eqn:Ebc.
  - rewrite (row_compare_trans a b c), E by (done || congruence). done.
  - rewrite (row_compare_trans a b c), E by (done || congruence). done.
  - destruct (row_compare a c) eqn:Eac; [| |done].
    + rewrite (row_compare_trans b a c), E' in Ebc by (done || congruence).
      congruence.
    + rewrite (row_compare_trans b a c), E' in Ebc by (done || congruence).
      congruence.
Qed.

(** ** Sorting the rows and dropping the repeats *)

Lemma insert_row_perm r l : insert_row r l ≡ₚ r :: l.
Proof.
  induction l as [|x l IH]; simpl; [done|].
  destruct (row_compare r x); try done.
  rewrite IH. apply Permutation_swap.
Qed.

Lemma sort_rows_perm rows : sort_rows rows ≡ₚ rows.
Proof.
  induction rows as [|r rows IH]; simpl; [done|].
  rewrite insert_row_perm. by rewrite IH.
Qed.

Lemma row_le_trans a b c :
  valid_row a → valid_row b → valid_row c →
  row_le a b → row_le b c → row_le a c.
Proof.
  unfold row_le. intros Ha Hb Hc Hab Hbc.
  rewrite (row_compare_trans a b c) by done.
  by destruct (row_compare a b).
Qed.

Lemma row_lt_le_trans a b c :
  valid_row a → valid_row b → valid_row c →
  row_le a b → row_lt b c → row_lt a c.
Proof.
  unfold row_le, row_lt. intros Ha Hb Hc Hab Hbc.
  rewrite (row_compare_trans a b c) by (done || congruence).
  rewrite Hbc. by destruct (row_compare a b).
Qed.

Lemma insert_row_sorted r l :
  valid_row r → Forall valid_row l →
  StronglySorted row_le l → StronglySorted row_le (insert_row r l).
Proof.
  intros Hr. induction l as [|x l IH]; intros Hl Hs; simpl.
  - repeat constructor.
  - apply Forall_cons in Hl as [Hx Hl].
    apply StronglySorted_inv in Hs as [Hs Hxl].
    assert (Hrx : ∀ y, y ∈ l → row_le r x → row_le r y).
    { intros y Hy Hle. eapply (row_le_trans r x y); try done.
      - by eapply Forall_forall in Hl.
      - by eapply Forall_forall in Hxl. }
    destruct (row_compare r x) eqn:E.
    + constructor; [by constructor|]. constructor; [unfold row_le; congruence|].
      apply Forall_forall. intros y Hy. apply Hrx; [done|].
      unfold row_le. congruence.
    + constructor; [by constructor|]. constructor; [unfold row_le; congruence|].
      apply Forall_forall. intros y Hy. apply Hrx; [done|].
      unfold row_le. congruence.
    + constructor; [by apply IH|].
      rewrite insert_row_perm. constructor; [|done].
      unfold row_le. rewrite row_compare_opp, E by done. done.
Qed.

Lemma sort_rows_sorted rows :
  Forall valid_row rows → StronglySorted row_le (sort_rows rows).
Proof.
  induction rows as [|r rows IH]; intros Hv; simpl; [constructor|].
  apply Forall_cons in Hv as [Hr Hv].
  apply insert_row_sorted; [done| |by apply IH].
  by rewrite sort_rows_perm.
Qed.

Lemma drop_repeats_sublist prev aux : drop_repeats prev aux `sublist_of` aux.
Proof.
  revert prev. induction aux as [|r aux IH]; intros prev; simpl; [done|].
  destruct (row_eqb r prev); [apply sublist_cons|apply sublist_skip]; apply IH.
Qed.

Lemma drop_repeats_sorted aux : ∀ prev,
  valid_row prev → Forall valid_row aux →
  StronglySorted row_le (prev :: aux) →
  StronglySorted row_lt (prev :: drop_repeats prev aux).
Proof.
  induction aux as [|r aux IH]; intros prev Hp Hv Hs; simpl.
  - repeat constructor.
  - apply Forall_cons in Hv as [Hr Hv].
    apply StronglySorted_inv in Hs as [Hs Hpl].
    apply Forall_cons in Hpl as [Hpr Hpl].
    specialize (IH r Hr Hv Hs).
    apply StronglySorted_inv in IH as [IHs IHr].
    assert (Hvd : Forall valid_row (drop_repeats r aux)).
    { eapply Forall_forall. intros y Hy.
      eapply Forall_forall in Hv; [done|].
      by eapply elem_of_sublist; [|apply drop_repeats_sublist]. }
    assert (Hlt : Forall (row_lt prev) (drop_repeats r aux)).
    { apply Forall_forall. intros y Hy.
      apply (row_lt_le_trans prev r y); try done.
      - by eapply Forall_forall in Hvd.
      - by eapply Forall_forall in IHr. }
    destruct (row_eqb r prev) eqn:E.
    + by constructor.
    + constructor; [by constructor|]. constructor; [|done].
      unfold row_lt. unfold row_le in Hpr.
      destruct (row_compare prev r) eqn:Ec; try done.
      apply row_compare_eqb in Ec; [|done..].
      rewrite row_eqb_sym in Ec. congruence.
Qed.

Lemma drop_repeats_cover aux : ∀ prev x,
  valid_row prev → Forall valid_row aux →
  x ∈ prev :: aux →
  ∃ u, u ∈ prev :: drop_repeats prev aux ∧ row_eqb x u = true.
Proof.
  induction aux as [|r aux IH]; intros prev x Hp Hv Hx; simpl.
  - apply list_elem_of_singleton in Hx as ->.
    exists prev. split; [by left|by apply row_eqb_refl].
  - apply Forall_cons in Hv as [Hr Hv].
    apply elem_of_cons in Hx as [->|Hx].
    { exists prev. split; [by left|by apply row_eqb_refl]. }
    destruct (IH r x Hr Hv Hx) as (u & Hu & Hxu).
    assert (Hvx : valid_row x).
    { apply elem_of_cons in Hx as [->|Hx]; [done|].
      by eapply Forall_forall in Hv. }
    destruct (row_eqb r prev) eqn:E.
    + apply elem_of_cons in Hu as [->|Hu].
      * exists prev. split; [by left|].
        by apply (row_eqb_trans x r prev).
      * exists u. split; [by right|done].
    + exists u. split; [by right|done].
Qed.

(** ** The unique rows *)

Lemma np_unique_rows_sublist rows : ∀ u, u ∈ np_unique_rows rows → u ∈ rows.
Proof.
  intros u Hu. rewrite <- sort_rows_perm. unfold np_unique_rows in Hu.
  destruct (sort_rows rows) as [|r aux]; [done|].
  apply elem_of_cons in Hu as [->|Hu]; [by left|right].
  by eapply elem_of_sublist; [|apply drop_repeats_sublist].
Qed.

Lemma np_unique_rows_sorted rows :
  Forall valid_row rows → StronglySorted row_lt (np_unique_rows rows).
Proof.
  intros Hv. pose proof (sort_rows_sorted rows Hv) as Hs.
  assert (Forall valid_row (sort_rows rows)) as Hvs by (by rewrite sort_rows_perm).
  unfold np_unique_rows. destruct (sort_rows rows) as [|r aux]; [constructor|].
  apply Forall_cons in Hvs as [Hr Hvs]. by apply drop_repeats_sorted.
Qed.

Lemma np_unique_rows_cover rows d :
  Forall valid_row rows → d ∈ rows →
  ∃ u, u ∈ np_unique_rows rows ∧ row_eqb d u = true.
Proof.
  intros Hv Hd.
  assert (Forall valid_row (sort_rows rows)) as Hvs by (by rewrite sort_rows_perm).
  rewrite <- sort_rows_perm in Hd. unfold np_unique_rows.
  destruct (sort_rows rows) as [|r aux]; [by apply elem_of_nil in Hd|].
  apply Forall_cons in Hvs as [Hr Hvs]. by apply drop_repeats_cover.
Qed.

Lemma np_unique_rows_valid rows :
  Forall valid_row rows → Forall valid_row (np_unique_rows rows).
Proof.
  intros Hv. apply Forall_forall. intros u Hu.
  eapply Forall_forall in Hv; [done|]. by apply np_unique_rows_sublist.
Qed.

Lemma filter_none {A} (p : A → bool) (l : list A) :
  Forall (λ y, p y = false) l → List.filter p l = [].
Proof.
  induction l as [|y l IH]; intros H; simpl; [done|].
  apply Forall_cons in H as [-> H]. by apply IH.
Qed.

(** in a strictly sorted list at most one row equals a given one *)
Lemma sorted_matches_le d l :
  valid_row d → Forall valid_row l → StronglySorted row_lt l →
  length (List.filter (λ u, row_eqb d u) l) ≤ 1.
Proof.
  intros Hd. induction l as [|u l IH]; intros Hv Hs; simpl; [lia|].
  apply Forall_cons in Hv as [Hu Hv].
  apply StronglySorted_inv in Hs as [Hs Hul].
  specialize (IH Hv Hs).
  destruct (row_eqb d u) eqn:E; [|done].
  rewrite filter_none; [simpl; lia|].
  apply Forall_forall. intros y Hy.
  assert (valid_row y) by (by eapply Forall_forall in Hv).
  eapply Forall_forall in Hul; [|done]. unfold row_lt in Hul.
  apply row_lt_eqb; [done..|].
  by rewrite (row_compare_eqb_l d u y).
Qed.

(** ** Counting matches *)

Lemma sum_list_with_add {A} (f g : A → nat) (l : list A) :
  sum_list_with (λ x, f x + g x) l = sum_list_with f l + sum_list_with g l.
Proof. induction l as [|x l IH]; simpl; [done|]. rewrite IH. lia. Qed.

Lemma sum_list_with_indicator {A} (p : A → bool) (l : list A) :
  sum_list_with (λ x, if p x then 1 else 0) l = length (List.filter p l).
Proof.
  induction l as [|x l IH]; simpl; [done|]. rewrite IH. by destruct (p x).
Qed.

Lemma sum_list_with_ext_in {A} (f g : A → nat) (l : list A) :
  (∀ x, x ∈ l → f x = g x) → sum_list_with f l = sum_list_with g l.
Proof.
  induction l as [|x l IH]; intros H; simpl; [done|].
  rewrite (H x) by (by left). rewrite IH; [done|].
  intros y Hy. apply H. by right.
Qed.

Lemma sum_list_with_ones {A} (l : list A) : sum_list_with (λ _, 1) l = length l.
Proof. induction l as [|x l IH]; simpl; [done|]. by rewrite IH. Qed.

(** counting the pairs of a relation by rows or by columns *)
Lemma count_swap {A B} (P : A → B → bool) (xs : list A) (ys : list B) :
  sum_list_with (λ x, length (List.filter (λ y, P x y) ys)) xs =
  sum_list_with (λ y, length (List.filter (λ x, P x y) xs)) ys.
Proof.
  induction xs as [|x xs IH]; simpl.
  - induction ys as [|y ys IHy]; simpl; [done|]. by rewrite <- IHy.
  - rewrite IH. rewrite <- sum_list_with_indicator, <- sum_list_with_add.
    apply sum_list_with_ext_in. intros y _. by destruct (P x y).
Qed.

Lemma filter_length_one_unique {A} (p : A → bool) (l : list A) i1 i2 a b :
  length (List.filter p l) ≤ 1 →
  l !! i1 = Some a → l !! i2 = Some b → p a = true → p b = true → i1 = i2.
Proof.
  revert i1 i2. induction l as [|x l IH]; intros i1 i2 Hlen H1 H2 Ha Hb.
  - done.
  - simpl in Hlen. destruct (p x) eqn:Ex.
    + simpl in Hlen.
      assert (List.filter p l = []) as Hnil
        by (destruct (List.filter p l); [done|simpl in Hlen; lia]).
      assert (∀ i y, l !! i = Some y → p y = false) as Hno.
      { intros i y Hy. destruct (p y) eqn:Ey; [|done].
        assert (In y (List.filter p l)) as Hin.
        { apply filter_In. split; [|done].
          apply list_elem_of_In, list_elem_of_lookup. eauto. }
        rewrite Hnil in Hin. done. }
      destruct i1 as [|i1], i2 as [|i2]; simpl in *; try done.
      * apply Hno in H2. congruence.
      * apply Hno in H1. congruence.
      * apply Hno in H1. congruence.
    + destruct i1 as [|i1], i2 as [|i2]; simpl in *; try congruence.
      f_equal. by eapply IH.
Qed.

Lemma filter_length_pos {A} (p : A → bool) (l : list A) x :
  x ∈ l → p x = true → 1 ≤ length (List.filter p l).
Proof.
  intros Hx Hp.
  assert (In x (List.filter p l)) as Hin
    by (apply filter_In; split; [by apply list_elem_of_In|done]).
  destruct (List.filter p l); [done|simpl; lia].
Qed.

Lemma StronglySorted_lookup {A} (R : relation A) l i j a b :
  StronglySorted R l → i < j → l !! i = Some a → l !! j = Some b → R a b.
Proof.
  intros Hs. revert i j. induction Hs as [|x l Hs IH Hx]; intros i j Hij Ha Hb.
  - done.
  - destruct j as [|j]; [lia|]. simpl in Hb.
    destruct i as [|i]; simpl in Ha.
    + injection Ha as ->. eapply Forall_forall in Hx; [done|].
      apply list_elem_of_lookup. eauto.
    + apply (IH i j); [lia|done..].
Qed.

(** ** The rows at their first occurrence *)

Lemma distinct_rows_subset rows : ∀ y, y ∈ distinct_rows rows → y ∈ rows.
Proof.
  induction rows as [|r rows IH]; intros y Hy; simpl in *; [done|].
  apply elem_of_cons in Hy as [->|Hy]; [by left|right].
  apply IH. apply list_elem_of_In in Hy. apply filter_In in Hy as [Hy _].
  by apply list_elem_of_In.
Qed.

Lemma distinct_rows_cover rows d :
  Forall valid_row rows → d ∈ rows →
  ∃ y, y ∈ distinct_rows rows ∧ row_eqb d y = true.
Proof.
  induction rows as [|r rows IH]; intros Hv Hd; [by apply elem_of_nil in Hd|].
  apply Forall_cons in Hv as [Hr Hv]. simpl.
  apply elem_of_cons in Hd as [->|Hd].
  { exists r. split; [by left|by apply row_eqb_refl]. }
  destruct (IH Hv Hd) as (y & Hy & Hdy).
  assert (valid_row d) by (by eapply Forall_forall in Hv).
  assert (valid_row y).
  { eapply Forall_forall in Hv; [done|]. by apply distinct_rows_subset. }
  destruct (row_eqb y r) eqn:E.
  - exists r. split; [by left|]. by apply (row_eqb_trans d y r).
  - exists y. split; [|done]. right. apply list_elem_of_In, filter_In.
    split; [by apply list_elem_of_In|]. by rewrite E.
Qed.

Lemma filter_filter_length {A} (p q : A → bool) (l : list A) :
  length (List.filter p (List.filter q l)) ≤ length (List.filter p l).
Proof.
  induction l as [|x l IH]; simpl; [done|].
  destruct (q x), (p x) eqn:E; simpl; rewrite ?E; simpl; lia.
Qed.

Lemma distinct_rows_matches_le rows x :
  Forall valid_row rows → valid_row x →
  length (List.filter (λ y, row_eqb x y) (distinct_rows rows)) ≤ 1.
Proof.
  intros Hv Hx. induction rows as [|r rows IH]; simpl; [lia|].
  apply Forall_cons in Hv as [Hr Hv]. specialize (IH Hv).
  destruct (row_eqb x r) eqn:E; simpl.
  - rewrite filter_none; [simpl; lia|].
    apply Forall_forall. intros y Hy.
    apply list_elem_of_In, filter_In in Hy as [Hy Hyr].
    apply list_elem_of_In, distinct_rows_subset in Hy.
    assert (valid_row y) by (by eapply Forall_forall in Hv).
    destruct (row_eqb x y) eqn:Exy; [|done].
    assert (row_eqb y r = true) as Hc.
    { apply (row_eqb_trans y x r); try done. by rewrite row_eqb_sym. }
    rewrite Hc in Hyr. done.
  - etrans; [apply filter_filter_length|done].
Qed.

(** [np.unique] keeps as many rows as there are distinct rows *)
Lemma np_unique_rows_count rows :
  Forall valid_row rows →
  length (np_unique_rows rows) = length (distinct_rows rows).
Proof.
  intros Hv.
  pose proof (np_unique_rows_sorted rows Hv) as Hs.
  pose proof (np_unique_rows_valid rows Hv) as Hvu.
  rewrite <- (sum_list_with_ones (np_unique_rows rows)).
  rewrite <- (sum_list_with_ones (distinct_rows rows)).
  rewrite (sum_list_with_ext_in (λ _, 1)
             (λ u, length (List.filter (λ y, row_eqb u y) (distinct_rows rows)))).
  2:{ intros u Hu.
      assert (valid_row u) by (by eapply Forall_forall in Hvu).
      apply np_unique_rows_sublist in Hu.
      destruct (distinct_rows_cover rows u Hv Hu) as (y & Hy & Huy).
      pose proof (distinct_rows_matches_le rows u Hv ltac:(done)).
      pose proof (filter_length_pos (λ y, row_eqb u y) _ y Hy Huy). lia. }
  rewrite count_swap.
  apply sum_list_with_ext_in. intros y Hy.
  apply distinct_rows_subset in Hy.
  assert (valid_row y) by (by eapply Forall_forall in Hv).
  destruct (np_unique_rows_cover rows y Hv Hy) as (u & Hu & Hyu).
  rewrite (filter_ext (λ x, row_eqb x y) (λ x, row_eqb y x))
    by (intros; apply row_eqb_sym).
  pose proof (sorted_matches_le y _ ltac:(done) Hvu Hs).
  pose proof (filter_length_pos (λ x, row_eqb y x) _ u Hu Hyu). lia.
Qed.

(** ** The category loop *)

Lemma elem_of_np_where_rows rows r j :
  j ∈ np_where_rows rows r ↔ ∃ d, rows !! j = Some d ∧ row_eqb d r = true.
Proof.
  unfold np_where_rows. rewrite list_elem_of_In, filter_In, in_seq. split.
  - intros [_ H]. destruct (rows !! j) as [d|]; [|done]. by exists d.
  - intros (d & Hd & Hr). rewrite Hd. split; [|done].
    apply lookup_lt_Some in Hd. lia.
Qed.

Lemma assign_category_length cats idx c :
  length (assign_category cats idx c) = length cats.
Proof.
  unfold assign_category. induction idx as [|j idx IH]; simpl; [done|].
  by rewrite length_insert.
Qed.

Lemma assign_category_lookup cats idx c j :
  j < length cats →
  assign_category cats idx c !! j =
    if decide (j ∈ idx) then Some (Some c) else cats !! j.
Proof.
  intros Hj. unfold assign_category.
  induction idx as [|i idx IH]; cbn [foldr].
  - destruct (decide (j ∈ [])) as [H|H]; [by apply elem_of_nil in H|done].
  - destruct (decide (i = j)) as [->|Hne].
    + rewrite list_lookup_insert_eq
        by (fold (assign_category cats idx c);
            by rewrite assign_category_length).
      destruct (decide (j ∈ j :: idx)) as [H|H]; [done|].
      exfalso. apply H. by left.
    + rewrite list_lookup_insert_ne by done. rewrite IH.
      destruct (decide (j ∈ idx)) as [H|H], (decide (j ∈ i :: idx)) as [H'|H'];
        try done.
      * exfalso. by apply H'; right.
      * apply elem_of_cons in H' as [->|?]; done.
Qed.

Lemma category_loop rows unique_rows : ∀ k buckets cats,
  fold_left
    (λ '(indices_for_unique_rows, session_category) '(i, r),
       let category := i in
       let indices_for_row := np_where_rows rows r in
       (indices_for_unique_rows ++ [indices_for_row],
        assign_category session_category indices_for_row category))
    (imap (λ i r, (k + i, r)) unique_rows) (buckets, cats) =
  (buckets ++ map (np_where_rows rows) unique_rows,
   categories_after rows unique_rows k cats).
Proof.
  induction unique_rows as [|r rest IH]; intros k buckets cats; simpl.
  - by rewrite app_nil_r.
  - rewrite (imap_ext _ (λ i r0, (S k + i, r0))).
    2:{ intros i x _. simpl. f_equal. lia. }
    rewrite IH. rewrite Nat.add_0_r, <- app_assoc. done.
Qed.

Lemma get_unique_doses_eq rows :
  get_unique_doses rows =
  (np_unique_rows rows,
   map (np_where_rows rows) (np_unique_rows rows),
   categories_after rows (np_unique_rows rows) 0
                    (replicate (length rows) None)).
Proof.
  unfold get_unique_doses. cbv zeta.
  change (imap pair (np_unique_rows rows))
    with (imap (λ i r, (0 + i, r)) (np_unique_rows rows)).
  by rewrite category_loop.
Qed.

Lemma categories_after_length rows unique_rows : ∀ k cats,
  length (categories_after rows unique_rows k cats) = length cats.
Proof.
  induction unique_rows as [|r rest IH]; intros k cats; simpl; [done|].
  by rewrite IH, assign_category_length.
Qed.

Lemma categories_after_untouched rows unique_rows j d : ∀ k cats,
  rows !! j = Some d → j < length cats →
  Forall (λ u, row_eqb d u = false) unique_rows →
  categories_after rows unique_rows k cats !! j = cats !! j.
Proof.
  induction unique_rows as [|r rest IH]; intros k cats Hd Hj Hno; simpl; [done|].
  apply Forall_cons in Hno as [Hr Hno].
  rewrite IH by (done || by rewrite assign_category_length).
  rewrite assign_category_lookup by done.
  destruct (decide _) as [H|H]; [|done].
  apply elem_of_np_where_rows in H as (d' & Hd' & E). congruence.
Qed.

Lemma categories_after_assigned rows unique_rows j d : ∀ k cats i u,
  rows !! j = Some d → j < length cats →
  length (List.filter (λ u, row_eqb d u) unique_rows) ≤ 1 →
  unique_rows !! i = Some u → row_eqb d u = true →
  categories_after rows unique_rows k cats !! j = Some (Some (k + i)).
Proof.
  induction unique_rows as [|r rest IH]; intros k cats i u Hd Hj Hone Hi Hu;
    [done|].
  simpl. simpl in Hone. destruct i as [|i]; simpl in Hi.
  - injection Hi as ->. rewrite Hu in Hone. simpl in Hone.
    assert (Forall (λ y, row_eqb d y = false) rest) as Hno.
    { apply Forall_forall. intros y Hy.
      destruct (row_eqb d y) eqn:E; [|done].
      pose proof (filter_length_pos (λ u, row_eqb d u) rest y Hy E). lia. }
    rewrite (categories_after_untouched rows rest j d (S k) _ Hd); [|by rewrite assign_category_length|done].
    rewrite assign_category_lookup by done.
    destruct (decide _) as [H|H]; [by rewrite Nat.add_0_r|].
    exfalso. apply H, elem_of_np_where_rows. eauto.
  - destruct (row_eqb d r) eqn:E.
    + simpl in Hone.
      pose proof (filter_length_pos (λ u, row_eqb d u) rest u
                    ltac:(apply list_elem_of_lookup; eauto) Hu). lia.
    + rewrite (IH (S k) _ i u Hd); [|by rewrite assign_category_length|done..].
      do 2 f_equal. lia.
Qed.

Lemma sum_list_with_map {A B} (f : B → nat) (g : A → B) (l : list A) :
  sum_list_with f (map g l) = sum_list_with (λ x, f (g x)) l.
Proof. induction l as [|x l IH]; simpl; [done|]. by rewrite IH. Qed.

(** a row of the matrix equals exactly one of the unique rows *)
Lemma np_unique_rows_one_match rows d :
  Forall valid_row rows → d ∈ rows →
  length (List.filter (λ u, row_eqb d u) (np_unique_rows rows)) = 1.
Proof.
  intros Hv Hd.
  assert (valid_row d) by (by eapply Forall_forall in Hv).
  destruct (np_unique_rows_cover rows d Hv Hd) as (u & Hu & Hdu).
  pose proof (sorted_matches_le d _ ltac:(done) (np_unique_rows_valid rows Hv)
                (np_unique_rows_sorted rows Hv)).
  pose proof (filter_length_pos (λ u, row_eqb d u) _ u Hu Hdu). lia.
Qed.

Lemma bucket_sizes rows :
  Forall valid_row rows →
  sum_list_with length (map (np_where_rows rows) (np_unique_rows rows))
    = length rows.
Proof.
  intros Hv. rewrite sum_list_with_map. unfold np_where_rows.
  rewrite (count_swap (λ u j, match rows !! j with
                              | Some d => row_eqb d u
                              | None => false
                              end)).
  rewrite (sum_list_with_ext_in _ (λ _, 1)).
  { by rewrite sum_list_with_ones, length_seq. }
  intros j Hj. apply list_elem_of_In, in_seq in Hj.
  destruct (rows !! j) as [d|] eqn:Hd.
  - apply np_unique_rows_one_match; [done|].
    apply list_elem_of_lookup. eauto.
  - apply lookup_ge_None in Hd. lia.
Qed.

(** the category of a session is the place of its row among the unique rows *)
Lemma category_of_row rows j d :
  Forall valid_row rows → rows !! j = Some d →
  ∃ i u,
    np_unique_rows rows !! i = Some u ∧ row_eqb d u = true ∧
    categories_after rows (np_unique_rows rows) 0
                     (replicate (length rows) None) !! j = Some (Some i) ∧
    ∀ i' u', np_unique_rows rows !! i' = Some u' →
             (row_eqb d u' = true ↔ i' = i).
Proof.
  intros Hv Hd.
  assert (d ∈ rows) as Hin by (apply list_elem_of_lookup; eauto).
  pose proof (np_unique_rows_one_match rows d Hv Hin) as Hone.
  destruct (np_unique_rows_cover rows d Hv Hin) as (u & Hu & Hdu).
  apply list_elem_of_lookup in Hu as [i Hi].
  exists i, u. split_and!; try done.
  - rewrite (categories_after_assigned rows _ j d 0 _ i u); try done.
    + rewrite length_replicate. by apply lookup_lt_Some in Hd.
    + lia.
  - intros i' u' Hi'. split.
    + intros Hdu'.
      apply (filter_length_one_unique (λ u, row_eqb d u) (np_unique_rows rows)
               i' i u' u); [lia|done..].
    + intros ->. congruence.
Qed.

(** C3, as the code has it.  For a dose matrix without NaN entries,
    [get_unique_doses] returns the distinct rows in strictly increasing
    lexicographic order, as many as the matrix has distinct rows; a bucket per
    unique row; and a category per session.  Every row index lies in exactly
    one bucket, that of its category, which is the place of its row among the
    unique rows; no category is unresolved; the bucket sizes add up to the
    number of rows; no bucket is empty; and the categories follow the
    lexicographic order of the rows. *)
Theorem get_unique_doses_categories otnal_doses :
  Forall (λ r, no_nan_row r = true) otnal_doses →
  let '(unique_rows, indices_for_unique_rows, session_category) :=
    get_unique_doses otnal_doses in
  length unique_rows = length (distinct_rows otnal_doses) ∧
  length indices_for_unique_rows = length unique_rows ∧
  length session_category = length otnal_doses ∧
  StronglySorted (λ a b, row_compare a b = Lt) unique_rows ∧
  (∀ j d, otnal_doses !! j = Some d →
     ∃ i, i < length unique_rows ∧
          session_category !! j = Some (Some i) ∧
          (∀ u, unique_rows !! i = Some u → row_eqb d u = true) ∧
          (∀ i' b, indices_for_unique_rows !! i' = Some b → j ∈ b ↔ i' = i)) ∧
  sum_list_with length indices_for_unique_rows = length otnal_doses ∧
  (∀ i b, indices_for_unique_rows !! i = Some b → b ≠ []) ∧
  (∀ j1 j2 d1 d2 i1 i2,
     otnal_doses !! j1 = Some d1 → otnal_doses !! j2 = Some d2 →
     session_category !! j1 = Some (Some i1) →
     session_category !! j2 = Some (Some i2) →
     (i1 < i2 ↔ row_compare d1 d2 = Lt) ∧ (i1 = i2 ↔ row_eqb d1 d2 = true)).
Proof.
  intros Hv. rewrite get_unique_doses_eq.
  change (Forall valid_row otnal_doses) in Hv.
  pose proof (np_unique_rows_sorted otnal_doses Hv) as Hs.
  pose proof (np_unique_rows_valid otnal_doses Hv) as Hvu.
  set (U := np_unique_rows otnal_doses) in *.
  assert (Hcat : ∀ j d i, otnal_doses !! j = Some d →
            categories_after otnal_doses U 0
              (replicate (length otnal_doses) None) !! j = Some (Some i) →
            ∃ u, U !! i = Some u ∧ row_eqb d u = true ∧ valid_row d ∧ valid_row u).
  { intros j d i Hd Hc.
    destruct (category_of_row otnal_doses j d Hv Hd) as (i0 & u & Hi & Hdu & Hc0 & _).
    fold U in Hi, Hc0. rewrite Hc in Hc0. injection Hc0 as ->.
    exists u. split_and!; try done.
    - eapply Forall_forall in Hv; [done|]. apply list_elem_of_lookup; eauto.
    - eapply Forall_forall in Hvu; [done|]. apply list_elem_of_lookup; eauto. }
  split_and!.
  - by apply np_unique_rows_count.
  - by rewrite length_map.
  - by rewrite categories_after_length, length_replicate.
  - done.
  - intros j d Hd.
    destruct (category_of_row otnal_doses j d Hv Hd)
      as (i & u & Hi & Hdu & Hc & Huniq).
    fold U in Hi, Hc, Huniq.
    exists i. split_and!.
    + by apply lookup_lt_Some in Hi.
    + done.
    + intros u' Hu'. congruence.
    + intros i' b Hb. rewrite list_lookup_fmap in Hb.
      destruct (U !! i') as [u'|] eqn:Hi'; [|done]. injection Hb as <-.
      rewrite elem_of_np_where_rows. rewrite <- (Huniq i' u' Hi'). split.
      * intros (d' & Hd' & E). congruence.
      * intros E. eauto.
  - by apply bucket_sizes.
  - intros i b Hb Hnil. rewrite list_lookup_fmap in Hb.
    destruct (U !! i) as [u|] eqn:Hi; [|done]. injection Hb as <-.
    assert (u ∈ otnal_doses) as Hu.
    { apply np_unique_rows_sublist. apply list_elem_of_lookup. eauto. }
    apply list_elem_of_lookup in Hu as [j Hj].
    assert (j ∈ np_where_rows otnal_doses u) as Hin.
    { apply elem_of_np_where_rows. exists u. split; [done|].
      apply row_eqb_refl. eapply Forall_forall in Hvu; [done|].
      apply list_elem_of_lookup. eauto. }
    rewrite Hnil in Hin. by apply elem_of_nil in Hin.
  - intros j1 j2 d1 d2 i1 i2 Hd1 Hd2 Hc1 Hc2.
    destruct (Hcat _ _ _ Hd1 Hc1) as (u1 & Hu1 & E1 & Hvd1 & Hvu1).
    destruct (Hcat _ _ _ Hd2 Hc2) as (u2 & Hu2 & E2 & Hvd2 & Hvu2).
    assert (Hcmp : row_compare d1 d2 = row_compare u1 u2).
    { rewrite (row_compare_eqb_l d1 u1 d2) by done.
      rewrite (row_compare_opp d2 u1), (row_compare_opp u2 u1) by done.
      f_equal. by apply row_compare_eqb_l. }
    rewrite (row_compare_eqb d1 d2), Hcmp by done.
    destruct (Nat.lt_trichotomy i1 i2) as [Hlt|[->|Hgt]].
    + pose proof (StronglySorted_lookup _ _ _ _ _ _ Hs Hlt Hu1 Hu2) as Hlt12.
      simpl in Hlt12. rewrite Hlt12. split; split; (done || lia).
    + assert (u1 = u2) as -> by congruence.
      assert (row_compare u2 u2 = Eq) as ->.
      { apply row_compare_eqb; [done..|]. by apply row_eqb_refl. }
      split; split; (done || lia).
    + pose proof (StronglySorted_lookup _ _ _ _ _ _ Hs Hgt Hu2 Hu1) as Hlt21.
      simpl in Hlt21. rewrite (row_compare_opp u2 u1), Hlt21 by done. simpl.
      split; split; (done || lia).
Qed.

(** ** Sessions as the repository builds them *)

Section PipelineSessions.

Variable env : mat_env.
Variable px2deg_value : float → float.
Variable create_timevec : nat → float → list float.
Variable is_fixation :
  list (float * float) → list float → float → result (list bool).

Lemma meta_runs_step_num_runs p (d : dict) :
  ∃ n, (meta_runs_step env p d).2 !! "num_runs" = Some (PInt n).
Proof.
  unfold meta_runs_step, dict_update, none_runs.
  destruct (glob env _) as [|f [|f' fs]]; simpl;
    [| destruct (load_runs env f) as [[[s t]|]|e]; simpl|];
    eexists; (rewrite lookup_union_l'; [reflexivity|by eexists]).
Qed.

Lemma meta_info_of_session_num_runs p :
  ∃ n, (meta_info_of_session env p).2 !! "num_runs" = Some (PInt n).
Proof.
  rewrite meta_info_of_session_eq. cbv zeta. cbn [snd].
  rewrite meta_landmarks_step_other by (unfold bbox_keys; solve_not_key).
  apply meta_runs_step_num_runs.
Qed.

(** a session as the repository builds it has no key ['session']: the
    fixation loop raises KeyError as soon as one fixation interval is found *)
Lemma pipeline_session_fixation_KeyError p positions sr category sid mask :
  is_fixation (px2deg_2d px2deg_value positions)
              (create_timevec (length positions) sr) sr = Ok mask →
  find_islands mask 1 ≠ [] →
  fixation_session_step px2deg_value create_timevec is_fixation sid
    (positions,
     with_rate_and_category (meta_info_of_session env p).2 sr category)
  = Raise KeyError.
Proof.
  intros Hfix Hne.
  destruct (meta_info_of_session_num_runs p) as [n Hn].
  pose proof (meta_info_of_session_no_session env p) as Hs.
  set (d := (meta_info_of_session env p).2) in *.
  assert (∀ k, k ≠ "sampling_rate" → k ≠ "category" →
            with_rate_and_category d sr category !! k = d !! k) as Hother.
  { intros k H1 H2. unfold with_rate_and_category, dict_update.
    rewrite !lookup_union, !lookup_singleton_ne by done. by destruct (d !! k). }
  rewrite (fixation_session_step_cases px2deg_value create_timevec is_fixation
             sid positions _ sr category (PInt n) (PInt (n - 1)) mask);
    try done.
  - rewrite decide_False by done. rewrite Hother by done. by rewrite Hs.
  - unfold with_rate_and_category, dict_update.
    rewrite lookup_union_l'; [reflexivity|by eexists].
  - unfold with_rate_and_category, dict_update.
    rewrite lookup_union_l'; [reflexivity|by eexists].
  - rewrite Hother by done. done.
Qed.

End PipelineSessions.

(** C10.  A session whose [info] is built as the repository builds it (by
    [extract_meta_info], then the loader's update with the sampling rate and
    the category) has no key ['session']; with one fixation interval found,
    [extract_fixations_with_labels] raises KeyError instead of returning
    [None]. *)
Theorem extract_fixations_pipeline_session_KeyError :
  pipeline_info !! "session" = None ∧
  extract_fixations_with_labels (λ v, v) arange_timevec always_fixating
    [(example_positions, pipeline_info)] = Raise KeyError.
Proof. split; vm_compute; reflexivity. Qed.

(** ** What the metadata extraction does with an unusable file *)

(** C9, as the code has it.  [extract_meta_info] gives every session path
    one dictionary, made from that session's folder alone.  For each of the
    three metadata files that is missing, duplicated or raises while it is
    read it prints one line and sets the fields of that file to [None] (and
    [num_runs] to 0).  [load_data.get_runs_data] prints one line too, and
    returns the empty dictionary. *)
Theorem metadata_failures_substituted env :
  (∀ session_paths,
     extract_meta_info env session_paths =
     (concat (map (λ p, (meta_info_of_session env p).1) session_paths),
      map (λ p, (meta_info_of_session env p).2) session_paths))
  ∧ (∀ p,
       length (meta_info_of_session env p).1 =
       flag (unusable (glob env (p +:+ "/*metaInfo.mat")) (load_info env)) +
       flag (unusable (glob env (p +:+ "/*runs.mat")) (load_runs env)) +
       flag (unusable (glob env (p +:+ "/*M1_farPlaneCal.mat"))
                      (load_landmarks env)))
  ∧ (∀ p,
       unusable (glob env (p +:+ "/*metaInfo.mat")) (load_info env) = true →
       Forall (λ k, (meta_info_of_session env p).2 !! k = Some PNone) info_keys)
  ∧ (∀ p,
       unusable (glob env (p +:+ "/*runs.mat")) (load_runs env) = true →
       (meta_info_of_session env p).2 !! "startS" = Some PNone ∧
       (meta_info_of_session env p).2 !! "stopS" = Some PNone ∧
       (meta_info_of_session env p).2 !! "num_runs" = Some (PInt 0))
  ∧ (∀ p,
       unusable (glob env (p +:+ "/*M1_farPlaneCal.mat")) (load_landmarks env)
         = true →
       Forall (λ k, (meta_info_of_session env p).2 !! k = Some PNone) bbox_keys)
  ∧ (∀ p,
       unusable (glob env (p +:+ "/*runs.mat")) (load_runs env) = true →
       length (get_runs_data env p).1 = 1 ∧ (get_runs_data env p).2 = ∅).
Proof.
  split_and!.
  - apply extract_meta_info_sessions.
  - apply meta_info_of_session_lines.
  - apply meta_info_of_session_none_info.
  - apply meta_info_of_session_none_runs.
  - apply meta_info_of_session_none_bboxes.
  - apply get_runs_data_unusable.
Qed.

(** ** Dose matrices with NaN entries *)

Lemma row_eqb_numbers a b :
  row_eqb a b = true → valid_row a ∧ valid_row b.
Proof.
  unfold row_eqb. rewrite andb_true_iff, !eqb_fcmp. intros [H1 H2].
  rewrite !valid_row_fields.
  apply fcmp_Some_number in H1, H2. tauto.
Qed.

Lemma row_eqb_nan a b : no_nan_row a = false → row_eqb a b = false.
Proof.
  intros Ha. destruct (row_eqb a b) eqn:E; [|done].
  apply row_eqb_numbers in E as [Hv _]. unfold valid_row in Hv. congruence.
Qed.

Lemma row_eqb_chain a b c :
  row_eqb a b = true → row_eqb b c = true → row_eqb a c = true.
Proof.
  intros Hab Hbc.
  destruct (row_eqb_numbers _ _ Hab) as [Ha Hb].
  destruct (row_eqb_numbers _ _ Hbc) as [_ Hc].
  by apply (row_eqb_trans a b c).
Qed.

(** a row of numbers is represented after the repeats are dropped, whatever
    the other rows hold *)
Lemma drop_repeats_represents aux : ∀ prev x,
  valid_row x → x ∈ prev :: aux →
  ∃ u, u ∈ prev :: drop_repeats prev aux ∧ row_eqb x u = true.
Proof.
  induction aux as [|r aux IH]; intros prev x Hv Hx; simpl.
  - apply list_elem_of_singleton in Hx as ->.
    exists prev. split; [by left|by apply row_eqb_refl].
  - apply elem_of_cons in Hx as [->|Hx].
    { exists prev. split; [by left|by apply row_eqb_refl]. }
    destruct (IH r x Hv Hx) as (u & Hu & Hxu).
    destruct (row_eqb r prev) eqn:E.
    + apply elem_of_cons in Hu as [->|Hu].
      * exists prev. split; [by left|]. by apply (row_eqb_chain x r prev).
      * exists u. split; [by right|done].
    + exists u. split; [by right|done].
Qed.

Lemma np_unique_rows_represents rows d :
  valid_row d → d ∈ rows →
  ∃ u, u ∈ np_unique_rows rows ∧ row_eqb d u = true.
Proof.
  intros Hv Hd. rewrite <- sort_rows_perm in Hd. unfold np_unique_rows.
  destruct (sort_rows rows) as [|r aux]; [by apply elem_of_nil in Hd|].
  by apply drop_repeats_represents.
Qed.

(** no row with a NaN is dropped as a repeat *)
Lemma drop_repeats_keeps_nan aux : ∀ prev,
  List.filter (λ r, negb (no_nan_row r)) (drop_repeats prev aux) =
  List.filter (λ r, negb (no_nan_row r)) aux.
Proof.
  induction aux as [|r aux IH]; intros prev; simpl; [done|].
  destruct (row_eqb r prev) eqn:E.
  - apply row_eqb_numbers in E as [Hr _]. unfold valid_row in Hr.
    rewrite Hr. simpl. apply IH.
  - simpl. by rewrite IH.
Qed.

Lemma filter_length_Permutation {A} (p : A → bool) (l k : list A) :
  l ≡ₚ k → length (List.filter p l) = length (List.filter p k).
Proof.
  induction 1 as [|x l k _ IH|x y l|l k m _ IH1 _ IH2]; simpl.
  - done.
  - destruct (p x); simpl; by rewrite IH.
  - by destruct (p x), (p y).
  - by rewrite IH1.
Qed.

Lemma np_unique_rows_nan_count rows :
  length (List.filter (λ r, negb (no_nan_row r)) (np_unique_rows rows)) =
  length (List.filter (λ r, negb (no_nan_row r)) rows).
Proof.
  rewrite <- (filter_length_Permutation _ _ _ (sort_rows_perm rows)).
  unfold np_unique_rows. destruct (sort_rows rows) as [|r aux]; [done|].
  simpl. destruct (negb (no_nan_row r)); simpl;
    by rewrite drop_repeats_keeps_nan.
Qed.

(** the category of a session whose row equals one of the unique rows is the
    place of such a row *)
Lemma categories_after_matched rows unique_rows j d : ∀ k cats,
  rows !! j = Some d → j < length cats →
  (∃ u, u ∈ unique_rows ∧ row_eqb d u = true) →
  ∃ i u, unique_rows !! i = Some u ∧ row_eqb d u = true ∧
         categories_after rows unique_rows k cats !! j = Some (Some (k + i)).
Proof.
  induction unique_rows as [|r rest IH]; intros k cats Hd Hj (u & Hu & Hdu).
  { by apply elem_of_nil in Hu. }
  simpl.
  destruct (decide (Exists (λ y, row_eqb d y = true) rest)) as [Hex|Hno].
  - apply Exists_exists in Hex as (y & Hy & Hdy).
    destruct (IH (S k) (assign_category cats (np_where_rows rows r) k) Hd)
      as (i & v & Hi & Hdv & Hc).
    { by rewrite assign_category_length. }
    { eauto. }
    exists (S i), v. split_and!; [done..|].
    rewrite Hc. do 2 f_equal. lia.
  - assert (Forall (λ y, row_eqb d y = false) rest) as Hall.
    { apply Forall_forall. intros y Hy.
      destruct (row_eqb d y) eqn:E; [|done].
      exfalso. apply Hno. apply Exists_exists. eauto. }
    assert (row_eqb d r = true) as Hdr.
    { apply elem_of_cons in Hu as [->|Hu]; [done|].
      eapply Forall_forall in Hall; [|done]. congruence. }
    exists 0, r. split_and!; [done..|].
    rewrite (categories_after_untouched rows rest j d (S k) _ Hd);
      [|by rewrite assign_category_length|done].
    rewrite assign_category_lookup by done.
    destruct (decide _) as [H|H]; [by rewrite Nat.add_0_r|].
    exfalso. apply H, elem_of_np_where_rows. eauto.
Qed.

Lemma np_where_rows_sorted rows r : StronglySorted lt (np_where_rows rows r).
Proof.
  unfold np_where_rows.
  assert (∀ (p : nat → bool) s n, StronglySorted lt (List.filter p (seq s n)))
    as H; [|apply H].
  intros p s n. revert s. induction n as [|n IH]; intros s; simpl.
  - constructor.
  - destruct (p s).
    + constructor; [apply IH|].
      apply Forall_forall. intros i Hi.
      apply list_elem_of_In, filter_In in Hi as [Hi _]. apply in_seq in Hi. lia.
    + apply IH.
Qed.

(** X1.  On any dose matrix, with or without NaN entries,
    [get_unique_doses] returns one bucket per unique row and one category per
    session; every unique row is a row of the matrix; a bucket lists, in
    increasing order, exactly the sessions whose row equals its unique row; a
    session whose row holds numbers only gets as category the place of a
    unique row equal to its own, and lies in that bucket; a session whose
    row holds a NaN keeps the category NaN and lies in no bucket; and the
    rows with a NaN are all kept among the unique rows, each with an empty
    bucket. *)
Theorem get_unique_doses_any_matrix otnal_doses :
  let '(unique_rows, indices_for_unique_rows, session_category) :=
    get_unique_doses otnal_doses in
  length session_category = length otnal_doses ∧
  length indices_for_unique_rows = length unique_rows ∧
  (∀ u, u ∈ unique_rows → u ∈ otnal_doses) ∧
  (∀ i b, indices_for_unique_rows !! i = Some b →
     StronglySorted lt b ∧
     ∃ u, unique_rows !! i = Some u ∧
          (no_nan_row u = false → b = []) ∧
          ∀ j, j ∈ b ↔ ∃ d, otnal_doses !! j = Some d ∧ row_eqb d u = true) ∧
  (∀ j d, otnal_doses !! j = Some d →
     if no_nan_row d
     then ∃ i u b, session_category !! j = Some (Some i) ∧
                   unique_rows !! i = Some u ∧ row_eqb d u = true ∧
                   indices_for_unique_rows !! i = Some b ∧ j ∈ b
     else session_category !! j = Some None ∧
          ∀ b, b ∈ indices_for_unique_rows → j ∉ b) ∧
  length (List.filter (λ r, negb (no_nan_row r)) unique_rows) =
    length (List.filter (λ r, negb (no_nan_row r)) otnal_doses).
Proof.
  rewrite get_unique_doses_eq.
  set (U := np_unique_rows otnal_doses).
  split_and!.
  - by rewrite categories_after_length, length_replicate.
  - by rewrite length_map.
  - apply np_unique_rows_sublist.
  - intros i b Hb. rewrite list_lookup_fmap in Hb.
    destruct (U !! i) as [u|] eqn:Hi; [|done]. injection Hb as <-.
    split; [apply np_where_rows_sorted|].
    exists u. split_and!; [done| |].
    + intros Hnan.
      destruct (np_where_rows otnal_doses u) as [|j b] eqn:E; [done|].
      assert (j ∈ np_where_rows otnal_doses u) as Hj by (rewrite E; by left).
      apply elem_of_np_where_rows in Hj as (d & _ & Hdu).
      rewrite row_eqb_sym, (row_eqb_nan u d Hnan) in Hdu. done.
    + intros j. apply elem_of_np_where_rows.
  - intros j d Hd. destruct (no_nan_row d) eqn:Hv.
    + assert (d ∈ otnal_doses) as Hin by (apply list_elem_of_lookup; eauto).
      destruct (categories_after_matched otnal_doses U j d 0
                  (replicate (length otnal_doses) None) Hd)
        as (i & u & Hi & Hdu & Hc).
      { rewrite length_replicate. by apply lookup_lt_Some in Hd. }
      { by apply np_unique_rows_represents. }
      exists i, u, (np_where_rows otnal_doses u). split_and!; try done.
      * by rewrite list_lookup_fmap, Hi.
      * apply elem_of_np_where_rows. eauto.
    + split.
      * rewrite (categories_after_untouched otnal_doses U j d 0 _ Hd).
        -- apply lookup_replicate_2. by apply lookup_lt_Some in Hd.
        -- rewrite length_replicate. by apply lookup_lt_Some in Hd.
        -- apply Forall_forall. intros u _. by apply row_eqb_nan.
      * intros b Hb Hj. apply list_elem_of_fmap in Hb as (u & -> & _).
        apply elem_of_np_where_rows in Hj as (d' & Hd' & Hdu).
        assert (d' = d) as -> by congruence.
        rewrite (row_eqb_nan d u Hv) in Hdu. done.
  - apply np_unique_rows_nan_count.
Qed.

(** ** Sessions side by side *)

Lemma mapM_fmap {A B} (f h : A → result B) (g : B → B) (l : list A) :
  (∀ x, f x = g <$> h x) → mapM f l = map g <$> mapM h l.
Proof.
  intros H. induction l as [|x l IH]; [done|].
  rewrite !mapM_cons, H, IH.
  destruct (h x) as [y|e]; [|done]. cbn.
  destruct (mapM h l) as [k|e]; done.
Qed.

Section SessionsSideBySide.

Variable px2deg_value : float → float.
Variable create_timevec : nat → float → list float.
Variable pars : saccade_pars.

Lemma labelled_sessions_app s1 s2 : ∀ first,
  labelled_sessions px2deg_value create_timevec pars first (s1 ++ s2) =
  a ← labelled_sessions px2deg_value create_timevec pars first s1;
  b ← labelled_sessions px2deg_value create_timevec pars (first + length s1) s2;
  Ok (a ++ b).
Proof.
  induction s1 as [|session s1 IH]; intros first.
  - cbn. rewrite Nat.add_0_r.
    by destruct (labelled_sessions _ _ _ first s2).
  - cbn [app labelled_sessions length].
    destruct (labelled_session _ _ _ first session) as [here|e]; [|done].
    cbn. rewrite IH.
    replace (S first + length s1) with (first + S (length s1)) by lia.
    destruct (labelled_sessions _ _ _ (S first) s1) as [a|e]; [|done].
    cbn. destruct (labelled_sessions _ _ _ _ s2) as [b|e]; [|done].
    cbn. by rewrite app_assoc.
Qed.

Lemma labelled_session_shift n ordinal session :
  labelled_session px2deg_value create_timevec pars (ordinal + n) session =
  map (λ sl, (sl.1, shift_ordinal n sl.2)) <$>
    labelled_session px2deg_value create_timevec pars ordinal session.
Proof.
  unfold labelled_session.
  destruct (dict_get session.2 "sampling_rate" ≫= as_float) as [sr|e]; [|done].
  cbn. destruct (dict_get session.2 "category") as [category|e]; [|done].
  cbn. destruct (dict_get session.2 "num_runs") as [n_runs|e]; [|done].
  cbn. destruct (py_range n_runs) as [runs|e]; [|done].
  cbn.
  rewrite (mapM_fmap _
             (labelled_run px2deg_value pars session.1
                (create_timevec (length session.1) sr) sr session.2 category
                ordinal)
             (map (λ sl, (sl.1, shift_ordinal n sl.2)))).
  - destruct (mapM _ runs) as [per_run|e]; [|done]. cbn. f_equal.
    induction per_run as [|p per_run IH]; [done|].
    cbn [map concat]. rewrite IH. symmetry. apply (fmap_app _ p (concat per_run)).
  - intros run. unfold labelled_run.
    destruct (saccades_in_run _ _ _ _ _ _ _) as [found|e]; [|done].
    cbn. f_equal. rewrite map_map. done.
Qed.

Lemma labelled_sessions_shift n sessions : ∀ first,
  labelled_sessions px2deg_value create_timevec pars (first + n) sessions =
  map (λ sl, (sl.1, shift_ordinal n sl.2)) <$>
    labelled_sessions px2deg_value create_timevec pars first sessions.
Proof.
  induction sessions as [|session sessions IH]; intros first; [done|].
  cbn [labelled_sessions]. rewrite labelled_session_shift.
  destruct (labelled_session _ _ _ first session) as [here|e]; [|done].
  cbn. change (S (first + n)) with (S first + n). rewrite IH.
  destruct (labelled_sessions _ _ _ (S first) sessions) as [after|e]; [|done].
  cbn. by rewrite fmap_app.
Qed.

(** the extraction on two lists of sessions put end to end *)
Lemma extract_saccades_app_eq s1 s2 :
  extract_saccades_with_labels px2deg_value create_timevec pars (s1 ++ s2) =
  match extract_saccades_with_labels px2deg_value create_timevec pars s1 with
  | Raise e => Raise e
  | Ok (saccades1, labels1) =>
      match extract_saccades_with_labels px2deg_value create_timevec pars s2
      with
      | Raise e => Raise e
      | Ok (saccades2, labels2) =>
          Ok (saccades1 ++ saccades2,
              labels1 ++ map (shift_ordinal (length s1)) labels2)
      end
  end.
Proof.
  rewrite !extract_saccades_labelled, labelled_sessions_app.
  rewrite (labelled_sessions_shift (length s1) s2 1).
  destruct (labelled_sessions _ _ _ 1 s1) as [a|e]; [|done]. cbn.
  destruct (labelled_sessions _ _ _ 1 s2) as [b|e]; [|done]. cbn.
  rewrite !fmap_app. f_equal. f_equal; f_equal.
  - induction b as [|x b IH]; [done|]. cbn. by rewrite IH.
  - induction b as [|x b IH]; [done|]. cbn. by rewrite IH.
Qed.

(** X2.  [extract_saccades_with_labels] on two lists of sessions put end
    to end returns the saccades of the first list followed by those of the
    second, and the labels of the first followed by those of the second with
    their session number raised by the length of the first list; it raises
    what the first list raises, else what the second raises. *)
Theorem extract_saccades_with_labels_app s1 s2 :
  extract_saccades_with_labels px2deg_value create_timevec pars (s1 ++ s2) =
  match extract_saccades_with_labels px2deg_value create_timevec pars s1 with
  | Raise e => Raise e
  | Ok (saccades1, labels1) =>
      match extract_saccades_with_labels px2deg_value create_timevec pars s2
      with
      | Raise e => Raise e
      | Ok (saccades2, labels2) =>
          Ok (saccades1 ++ saccades2,
              labels1 ++ map (shift_ordinal (length s1)) labels2)
      end
  end.
Proof. apply extract_saccades_app_eq. Qed.

(** a session without runs gives no saccade; its run bounds are not read *)
Lemma labelled_session_no_runs ordinal (session : list (float * float) * dict)
    sr n :
  session.2 !! "sampling_rate" = Some (PFloat sr) →
  is_Some (session.2 !! "category") →
  session.2 !! "num_runs" = Some (PInt n) → (n ≤ 0)%Z →
  labelled_session px2deg_value create_timevec pars ordinal session = Ok [].
Proof.
  intros Hsr [category Hcat] Hn Hle. unfold labelled_session, dict_get.
  rewrite Hsr. cbn. rewrite Hcat. cbn. rewrite Hn. cbn.
  replace (Z.to_nat n) with 0 by lia. done.
Qed.

End SessionsSideBySide.

(** ** What a run must hold for the extraction to return *)

(** a window whose start is not below its stop selects no sample *)
Lemma selected_indices_window time_vec run_start run_stop :
  selected_indices time_vec run_start run_stop ≠ [] →
  PrimFloat.ltb run_start run_stop = true.
Proof.
  intros Hne.
  destruct (selected_indices time_vec run_start run_stop) as [|i l] eqn:E;
    [done|].
  assert (In i (selected_indices time_vec run_start run_stop)) as Hi
    by (rewrite E; by left).
  apply selected_indices_In in Hi as (t & _ & Hlt & Hle).
  apply ltb_fcmp in Hlt. apply leb_fcmp in Hle. apply ltb_fcmp.
  destruct Hle as [Hle|Hle].
  - by rewrite (fcmp_trans _ _ _ _ _ Hlt Hle).
  - by rewrite (fcmp_trans _ _ _ _ _ Hlt Hle).
Qed.

Lemma py_slice_length {A} (l : list A) start stop :
  stop ≤ length l → length (py_slice l start stop) = stop - start.
Proof.
  intros H. unfold py_slice. rewrite length_take, length_drop. lia.
Qed.

Lemma marked_samples_length x0 y0 sr lo hi :
  length (marked_samples x0 y0 sr lo hi) = length x0.
Proof. unfold marked_samples. by rewrite length_map, length_seq. Qed.

Section RunsProofs.

Variable px2deg_value : float → float.
Variable create_timevec : nat → float → list float.
Variable pars : saccade_pars.

(** a property of the saccades of every run is a property of every saccade
    returned *)
Lemma labelled_sessions_Forall (P : saccade → Prop) sessions :
  (∀ positions time_vec sr info run found,
     saccades_in_run px2deg_value pars positions time_vec sr info run
       = Ok found → Forall P found) →
  ∀ first tagged,
    labelled_sessions px2deg_value create_timevec pars first sessions
      = Ok tagged →
    Forall (λ sl, P sl.1) tagged.
Proof.
  intros HP. induction sessions as [|session sessions IH]; intros first tagged H.
  - injection H as <-. constructor.
  - cbn [labelled_sessions] in H.
    apply bind_Ok in H as (here & Hhere & H).
    apply bind_Ok in H as (after & Hafter & [= <-]).
    apply Forall_app. split; [|by eapply IH].
    apply labelled_session_inv in Hhere
      as (sr & category & n & per_run & _ & _ & _ & Hper & ->).
    apply Forall_concat. clear -HP Hper.
    induction Hper as [|run tagged runs per_run Hrun _ IHp]; constructor;
      [|done].
    unfold labelled_run in Hrun.
    apply bind_Ok in Hrun as (found & Hfound & [= <-]).
    apply HP in Hfound. apply Forall_fmap.
    eapply Forall_impl; [exact Hfound|]. done.
Qed.

Section KeepsLength.

Hypothesis smooth_keeps_length : keeps_length (smooth_func pars).

(** the detector of a run returns only when the run has two samples, and
    then every saccade has as many positions as its island has samples *)
Lemma found_in_selection_inv sr run_positions found :
  found_in_selection px2deg_value pars sr run_positions = Ok found →
  2 ≤ length run_positions ∧
  Forall (λ s, 1 ≤ length s ∧ min_samples pars ≤ length s) found.
Proof.
  unfold found_in_selection. cbv zeta. intros H.
  apply bind_Ok in H as (ss & Hfind & [= <-]).
  destruct (smooth_keeps_length (px2deg px2deg_value (map fst run_positions)))
    as (x0 & Hx & Hx0).
  destruct (smooth_keeps_length (px2deg px2deg_value (map snd run_positions)))
    as (y0 & Hy & Hy0).
  unfold px2deg in *. rewrite !length_map in Hx0, Hy0.
  rewrite (find_saccades_smoothed _ _ sr (vel_thresh pars) (min_samples pars)
             (smooth_func pars) x0 y0) in Hfind;
    [| by rewrite !length_map | done..].
  destruct (Nat.ltb_spec (length x0) 2); [done|].
  destruct (Nat.ltb_spec (length y0) 2); [done|]. simpl in Hfind.
  destruct (length x0 =? length y0); [|done]. injection Hfind as <-.
  split; [lia|].
  unfold extract_saccade_positions. apply Forall_fmap, Forall_forall.
  intros [s e] Hse. apply list_elem_of_In, find_islands_spec in Hse
    as [(Hle & He & _) Hms].
  rewrite marked_samples_length in He. simpl.
  rewrite py_slice_length by lia. lia.
Qed.

Lemma labelled_session_runs_ready ordinal session part :
  labelled_session px2deg_value create_timevec pars ordinal session = Ok part →
  runs_ready create_timevec session.
Proof.
  intros H. apply labelled_session_inv in H
    as (sr & category & n & per_run & Hsr & Hcat & Hn & Hper & _).
  exists sr, category, n. split_and!; [done..|].
  intros run Hrun.
  assert (seq 0 (Z.to_nat n) !! run = Some run) as Hlook
    by (by apply lookup_seq).
  destruct (Forall2_lookup_l _ _ _ _ _ Hper Hlook) as (tagged & _ & Htag).
  unfold labelled_run in Htag.
  apply bind_Ok in Htag as (found & Hfound & _).
  apply saccades_in_run_inv in Hfound
    as (startS & stopS & start & stop & Hs & Hstart & Ht & Hstop & Hlen & Hf).
  exists startS, stopS, start, stop. split_and!; try done.
  apply found_in_selection_inv in Hf as [Htwo _].
  rewrite omap_lookup_length in Htwo; [done|].
  eapply Forall_impl; [apply selected_indices_bound|].
  intros i Hi. simpl in Hi. lia.
Qed.

Lemma runs_ready_labelled_session ordinal session :
  runs_ready create_timevec session →
  ∃ part, labelled_session px2deg_value create_timevec pars ordinal session
          = Ok part.
Proof.
  intros (sr & category & n & Hsr & Hcat & Hn & Hruns).
  unfold labelled_session, dict_get. rewrite Hsr. cbn. rewrite Hcat. cbn.
  rewrite Hn. cbn.
  destruct (mapM_Ok
    (labelled_run px2deg_value pars session.1
       (create_timevec (length session.1) sr) sr session.2 category ordinal)
    (seq 0 (Z.to_nat n))) as [per_run ->]; [|by eexists].
  intros run Hrun. apply elem_of_seq in Hrun.
  destruct (Hruns run)
    as (startS & stopS & start & stop & Hs & Hstart & Ht & Hstop & Hlen & Htwo);
    [lia|].
  unfold labelled_run.
  rewrite (saccades_in_run_found px2deg_value pars _ _ _ _ _ _ _ _ _
             Hs Hstart Ht Hstop Hlen).
  destruct (found_in_selection_Ok px2deg_value pars smooth_keeps_length sr
    (omap (λ i, session.1 !! i)
       (selected_indices (create_timevec (length session.1) sr) start stop)))
    as [found ->]; [|by eexists].
  rewrite omap_lookup_length; [done|].
  eapply Forall_impl; [apply selected_indices_bound|].
  intros i Hi. simpl in Hi. lia.
Qed.

Lemma labelled_sessions_runs_ready sessions : ∀ first,
  (∃ tagged, labelled_sessions px2deg_value create_timevec pars first sessions
             = Ok tagged) ↔
  Forall (runs_ready create_timevec) sessions.
Proof.
  induction sessions as [|session sessions IH]; intros first.
  - split; [constructor|by exists []].
  - cbn [labelled_sessions]. split.
    + intros (tagged & H).
      apply bind_Ok in H as (here & Hhere & H).
      apply bind_Ok in H as (after & Hafter & _).
      constructor; [by eapply labelled_session_runs_ready|].
      apply (IH (S first)). eauto.
    + intros H. apply Forall_cons in H as [Hs H].
      destruct (runs_ready_labelled_session first session Hs) as [here ->].
      apply (IH (S first)) in H as [after ->]. by eexists.
Qed.

End KeepsLength.

End RunsProofs.


(** X4.  With a smoothing function that keeps the length of its input,
    every saccade [extract_saccades_with_labels] returns holds at least one
    position and at least [min_samples] positions. *)
Theorem extract_saccades_sizes px2deg_value create_timevec pars sessions
    saccades labels :
  keeps_length (smooth_func pars) →
  extract_saccades_with_labels px2deg_value create_timevec pars sessions
    = Ok (saccades, labels) →
  Forall (λ s, 1 ≤ length s ∧ min_samples pars ≤ length s) saccades.
Proof.
  intros Hsmooth H. rewrite extract_saccades_labelled in H.
  apply bind_Ok in H as (tagged & Htag & [= <- <-]).
  apply Forall_fmap.
  apply (labelled_sessions_Forall px2deg_value create_timevec pars
           (λ s, 1 ≤ length s ∧ min_samples pars ≤ length s) sessions)
    with (first := 1); [|done].
  intros positions time_vec sr info run found Hfound.
  apply saccades_in_run_inv in Hfound
    as (startS & stopS & start & stop & _ & _ & _ & _ & _ & Hf).
  by apply (found_in_selection_inv px2deg_value pars Hsmooth) in Hf as [_ Hf].
Qed.

(** ** Metadata on its way to the extraction *)

Lemma with_rate_and_category_lookup (d : dict) sr category :
  with_rate_and_category d sr category !! "sampling_rate" = Some (PFloat sr) ∧
  with_rate_and_category d sr category !! "category" = Some category ∧
  ∀ k, k ≠ "sampling_rate" → k ≠ "category" →
       with_rate_and_category d sr category !! k = d !! k.
Proof.
  unfold with_rate_and_category, dict_update. split_and!.
  - rewrite lookup_union_l'; [reflexivity|by eexists].
  - rewrite lookup_union_l'; [reflexivity|by eexists].
  - intros k H1 H2.
    rewrite !lookup_union, !lookup_singleton_ne by done. by destruct (d !! k).
Qed.

Section MetadataKeys.

Variable env : mat_env.

Lemma meta_info_step_dom p (d : dict) :
  dom (meta_info_step env p d).2 = list_to_set info_keys ∪ dom d.
Proof.
  unfold meta_info_step, dict_update, none_info, info_keys.
  destruct (glob env _) as [|f [|f' fs]]; simpl;
    [| destruct (load_info env f) as [[[[[m1 m2] ot] nal]|]|e]; simpl|];
    rewrite !dom_union_L, !dom_singleton_L; set_solver.
Qed.

Lemma meta_runs_step_dom p (d : dict) :
  dom (meta_runs_step env p d).2 = list_to_set runs_keys ∪ dom d.
Proof.
  unfold meta_runs_step, dict_update, none_runs, runs_keys.
  destruct (glob env _) as [|f [|f' fs]]; simpl;
    [| destruct (load_runs env f) as [[[s t]|]|e]; simpl|];
    rewrite !dom_union_L, !dom_singleton_L; set_solver.
Qed.

Lemma meta_landmarks_step_dom p (d : dict) :
  dom (meta_landmarks_step env p d).2 = list_to_set bbox_keys ∪ dom d.
Proof.
  unfold meta_landmarks_step, dict_update, none_bboxes, bbox_keys.
  destruct (glob env _) as [|f [|f' fs]]; simpl;
    [| destruct (load_landmarks env f) as [[[[[b1 b2] b3] b4]|]|e]; simpl|];
    rewrite !dom_union_L, !dom_singleton_L; set_solver.
Qed.

Lemma meta_info_of_session_dom p :
  dom (meta_info_of_session env p).2 = list_to_set meta_info_keys.
Proof.
  rewrite meta_info_of_session_eq. cbv zeta. cbn [snd].
  rewrite meta_landmarks_step_dom, meta_runs_step_dom, meta_info_step_dom.
  rewrite dom_singleton_L. unfold meta_info_keys.
  rewrite list_to_set_cons, !list_to_set_app_L. set_solver.
Qed.

Lemma meta_info_of_session_name p :
  (meta_info_of_session env p).2 !! "session_name"
    = Some (PStr (basename env p)).
Proof.
  rewrite meta_info_of_session_eq. cbv zeta. cbn [snd].
  rewrite meta_landmarks_step_other by (unfold bbox_keys; solve_not_key).
  rewrite meta_runs_step_other by (unfold runs_keys; solve_not_key).
  rewrite meta_info_step_other by (unfold info_keys; solve_not_key).
  apply lookup_singleton_eq.
Qed.

Lemma meta_runs_step_count p (d : dict) :
  ∃ n, (meta_runs_step env p d).2 !! "num_runs" = Some (PInt (Z.of_nat n)).
Proof.
  unfold meta_runs_step, dict_update, none_runs.
  destruct (glob env _) as [|f [|f' fs]]; simpl;
    [exists 0| destruct (load_runs env f) as [[[s t]|]|e]; simpl;
               [exists (length s)|exists 0|exists 0] |exists 0];
    (rewrite lookup_union_l'; [reflexivity|by eexists]).
Qed.

Lemma meta_info_of_session_count p :
  ∃ n, (meta_info_of_session env p).2 !! "num_runs" = Some (PInt (Z.of_nat n)).
Proof.
  rewrite meta_info_of_session_eq. cbv zeta. cbn [snd].
  rewrite meta_landmarks_step_other by (unfold bbox_keys; solve_not_key).
  apply meta_runs_step_count.
Qed.

End MetadataKeys.

(** X5.  [extract_meta_info] returns one dictionary per session path, in
    the order of the paths; whatever the folder holds, the dictionary of a
    session has exactly the twelve keys ['session_name'], ['monkey_1'],
    ['monkey_2'], ['OT_dose'], ['NAL_dose'], ['startS'], ['stopS'],
    ['num_runs'] and the four boxes; ['session_name'] is the folder name and
    ['num_runs'] a non-negative integer.  It has no ['sampling_rate'] and no
    ['category']: handed to [extract_saccades_with_labels] as it is, it
    makes the extraction raise KeyError. *)
Theorem extract_meta_info_keys env session_paths :
  length (extract_meta_info env session_paths).2 = length session_paths ∧
  ∀ i p meta_info,
    session_paths !! i = Some p →
    (extract_meta_info env session_paths).2 !! i = Some meta_info →
    dom meta_info = list_to_set meta_info_keys ∧
    meta_info !! "session_name" = Some (PStr (basename env p)) ∧
    (∃ n, meta_info !! "num_runs" = Some (PInt (Z.of_nat n))) ∧
    meta_info !! "sampling_rate" = None ∧
    meta_info !! "category" = None ∧
    ∀ px2deg_value create_timevec pars positions,
      extract_saccades_with_labels px2deg_value create_timevec pars
        [(positions, meta_info)] = Raise KeyError.
Proof.
  rewrite extract_meta_info_sessions. cbn [snd]. split.
  { by rewrite length_map. }
  intros i p meta_info Hp Hm. rewrite list_lookup_fmap, Hp in Hm.
  injection Hm as <-.
  pose proof (meta_info_of_session_dom env p) as Hdom.
  assert (∀ k, k ∉ meta_info_keys → (meta_info_of_session env p).2 !! k = None)
    as Hnone.
  { intros k Hk. apply not_elem_of_dom. rewrite Hdom.
    by rewrite elem_of_list_to_set. }
  assert ((meta_info_of_session env p).2 !! "sampling_rate" = None) as Hsr.
  { apply Hnone. unfold meta_info_keys, info_keys, runs_keys, bbox_keys.
    simpl. solve_not_key. }
  split_and!.
  - done.
  - apply meta_info_of_session_name.
  - apply meta_info_of_session_count.
  - done.
  - apply Hnone. unfold meta_info_keys, info_keys, runs_keys, bbox_keys.
    simpl. solve_not_key.
  - intros px2deg_value create_timevec pars positions.
    rewrite extract_saccades_labelled. cbn [labelled_sessions].
    unfold labelled_session, dict_get. cbn [fst snd]. rewrite Hsr. done.
Qed.

(** ** Sessions whose runs could not be read *)

Section PipelineRuns.

Variable env : mat_env.
Variable px2deg_value : float → float.
Variable create_timevec : nat → float → list float.
Variable pars : saccade_pars.

Lemma pipeline_session_no_runs ordinal spec :
  unusable (glob env (spec.1.1.1 +:+ "/*runs.mat")) (load_runs env) = true →
  labelled_session px2deg_value create_timevec pars ordinal
                   (pipeline_session env spec) = Ok [].
Proof.
  destruct spec as [[[p positions] sr] category]. cbn [fst]. intros Hun.
  destruct (with_rate_and_category_lookup (meta_info_of_session env p).2 sr
              category) as (Hsr & Hcat & Hother).
  apply (labelled_session_no_runs px2deg_value create_timevec pars ordinal
           (pipeline_session env (p, positions, sr, category)) sr 0).
  - exact Hsr.
  - by eexists.
  - cbn [pipeline_session snd]. rewrite Hother by done.
    by apply meta_info_of_session_none_runs.
  - lia.
Qed.

Lemma pipeline_sessions_no_runs specs : ∀ first,
  Forall (λ spec, unusable (glob env (spec.1.1.1 +:+ "/*runs.mat"))
                           (load_runs env) = true) specs →
  labelled_sessions px2deg_value create_timevec pars first
                    (map (pipeline_session env) specs) = Ok [].
Proof.
  induction specs as [|spec specs IH]; intros first H; [done|].
  apply Forall_cons in H as [Hs H]. cbn [map labelled_sessions].
  rewrite pipeline_session_no_runs by done. cbn.
  by rewrite IH.
Qed.

End PipelineRuns.

(** X6.  Sessions built as the repository builds them from folders whose
    runs file is missing, duplicated or unreadable carry [num_runs = 0] and
    [None] as run bounds: [extract_saccades_with_labels] takes no saccade
    from them and raises nothing, but it counts them, so the labels of the
    sessions that follow carry a session number raised by the number of
    such sessions before them. *)
Theorem sessions_without_runs_are_counted env px2deg_value create_timevec pars
    skipped rest :
  Forall (λ spec, unusable (glob env (spec.1.1.1 +:+ "/*runs.mat"))
                           (load_runs env) = true) skipped →
  extract_saccades_with_labels px2deg_value create_timevec pars
    (map (pipeline_session env) skipped) = Ok ([], [])
  ∧ extract_saccades_with_labels px2deg_value create_timevec pars
      (map (pipeline_session env) skipped ++ rest) =
    match extract_saccades_with_labels px2deg_value create_timevec pars rest
    with
    | Raise e => Raise e
    | Ok (saccades, labels) =>
        Ok (saccades, map (shift_ordinal (length skipped)) labels)
    end.
Proof.
  intros Hskipped.
  assert (extract_saccades_with_labels px2deg_value create_timevec pars
            (map (pipeline_session env) skipped) = Ok ([], [])) as Hnone.
  { rewrite extract_saccades_labelled.
    by rewrite pipeline_sessions_no_runs. }
  split; [done|].
  rewrite extract_saccades_app_eq, Hnone, length_map.
  by destruct (extract_saccades_with_labels _ _ _ rest) as [[saccades labels]|e].
Qed.

(** ** The fixation loop on sessions as the repository builds them *)

Section PipelineFixations.

Variable env : mat_env.
Variable px2deg_value : float → float.
Variable create_timevec : nat → float → list float.
Variable is_fixation :
  list (float * float) → list float → float → result (list bool).

Lemma pipeline_session_fixation_step sid p positions sr category mask :
  is_fixation (px2deg_2d px2deg_value positions)
              (create_timevec (length positions) sr) sr = Ok mask →
  fixation_session_step px2deg_value create_timevec is_fixation sid
    (pipeline_session env (p, positions, sr, category)) =
  if decide (find_islands mask 1 = []) then Ok (sid + 1, [])
  else Raise KeyError.
Proof.
  intros Hfix.
  destruct (meta_info_of_session_count env p) as [n Hn].
  pose proof (meta_info_of_session_no_session env p) as Hs.
  destruct (with_rate_and_category_lookup (meta_info_of_session env p).2 sr
              category) as (Hsr & Hcat & Hother).
  cbn [pipeline_session].
  rewrite (fixation_session_step_cases px2deg_value create_timevec is_fixation
             sid positions _ sr category (PInt (Z.of_nat n))
             (PInt (Z.of_nat n - 1)) mask); try done.
  - rewrite Hother by done. by rewrite Hs.
  - by rewrite Hother.
Qed.

Lemma pipeline_sessions_fixations specs : ∀ sid,
  Forall (λ spec, ∃ mask,
            is_fixation (px2deg_2d px2deg_value spec.1.1.2)
                        (create_timevec (length spec.1.1.2) spec.1.2) spec.1.2
              = Ok mask) specs →
  foldM (λ sid session,
           fst <$> fixation_session_step px2deg_value create_timevec
                                         is_fixation sid session)
        sid (map (pipeline_session env) specs) =
  if existsb (λ spec, finds_fixation px2deg_value create_timevec is_fixation
                                     spec.1.1.2 spec.1.2) specs
  then Raise KeyError else Ok (sid + length specs).
Proof.
  induction specs as [|spec specs IH]; intros sid H.
  - cbn. by rewrite Nat.add_0_r.
  - apply Forall_cons in H as [[mask Hmask] H].
    destruct spec as [[[p positions] sr] category]. cbn [fst snd] in Hmask.
    cbn [map foldM existsb fst snd].
    rewrite (pipeline_session_fixation_step sid p positions sr category mask)
      by done.
    unfold finds_fixation at 1. rewrite Hmask.
    destruct (find_islands mask 1) as [|island islands].
    + rewrite decide_True by done. cbn. rewrite IH by done.
      destruct (existsb _ specs); [done|]. f_equal. simpl. lia.
    + rewrite decide_False by done. done.
Qed.

End PipelineFixations.

(** X7.  On sessions built as the repository builds them, for which the
    fixation classifier returns, [extract_fixations_with_labels] returns
    [None] when no session holds a fixation interval, and raises KeyError as
    soon as one session holds one: the key ['session'] it reads for every
    interval is never written. *)
Theorem extract_fixations_pipeline_sessions env px2deg_value create_timevec
    is_fixation specs :
  Forall (λ spec, ∃ mask,
            is_fixation (px2deg_2d px2deg_value spec.1.1.2)
                        (create_timevec (length spec.1.1.2) spec.1.2) spec.1.2
              = Ok mask) specs →
  extract_fixations_with_labels px2deg_value create_timevec is_fixation
    (map (pipeline_session env) specs) =
  if existsb (λ spec, finds_fixation px2deg_value create_timevec is_fixation
                                     spec.1.1.2 spec.1.2) specs
  then Raise KeyError else Ok PNone.
Proof.
  intros H. unfold extract_fixations_with_labels.
  rewrite (pipeline_sessions_fixations env px2deg_value create_timevec
             is_fixation specs 0 H).
  by destruct (existsb _ specs).
Qed.

(** ** Loading the gaze files *)

Lemma py_position_lt {A} (l : list A) idx place :
  py_position l idx = Ok place → place < length l.
Proof.
  unfold py_position.
  destruct (Z.leb_spec 0 idx), (Z.ltb_spec idx (Z.of_nat (length l)));
    destruct (Z.leb_spec (- Z.of_nat (length l)) idx), (Z.ltb_spec idx 0);
    simpl; intros [= <-]; lia.
Qed.

Lemma py_position_of_nat {A} (l : list A) j :
  py_position l (Z.of_nat j) = if decide (j < length l) then Ok j
                               else Raise IndexError.
Proof.
  unfold py_position.
  destruct (Z.leb_spec 0 (Z.of_nat j)),
           (Z.ltb_spec (Z.of_nat j) (Z.of_nat (length l)));
    destruct (Z.leb_spec (- Z.of_nat (length l)) (Z.of_nat j)),
             (Z.ltb_spec (Z.of_nat j) 0);
    destruct (decide (j < length l)); simpl; try lia;
    by rewrite ?Nat2Z.id.
Qed.

Lemma py_getitem_Ok {A} (l : list A) idx x :
  py_getitem l idx = Ok x ↔
  ∃ place, py_position l idx = Ok place ∧ l !! place = Some x.
Proof.
  unfold py_getitem. split.
  - intros H. apply bind_Ok in H as (place & Hp & H).
    exists place. split; [done|]. by destruct (l !! place) as [y|]; simplify_eq.
  - intros (place & -> & Hx). cbn. by rewrite Hx.
Qed.

Lemma py_getitem_of_nat {A} (l : list A) j :
  py_getitem l (Z.of_nat j) =
  match l !! j with Some x => Ok x | None => Raise IndexError end.
Proof.
  unfold py_getitem. rewrite py_position_of_nat.
  destruct (decide (j < length l)) as [H|H]; [done|].
  cbn. rewrite (proj2 (lookup_ge_None l j)); [done|lia].
Qed.

(** updating twice leaves what the last update wrote *)
Lemma with_rate_and_category_twice (d : dict) sr1 c1 sr2 c2 :
  with_rate_and_category (with_rate_and_category d sr1 c1) sr2 c2 =
  with_rate_and_category d sr2 c2.
Proof.
  apply map_eq. intros k.
  destruct (with_rate_and_category_lookup (with_rate_and_category d sr1 c1)
              sr2 c2) as (H1 & H2 & H3).
  destruct (with_rate_and_category_lookup d sr2 c2) as (G1 & G2 & G3).
  destruct (with_rate_and_category_lookup d sr1 c1) as (_ & _ & F3).
  destruct (decide (k = "sampling_rate")) as [->|N1]; [by rewrite H1, G1|].
  destruct (decide (k = "category")) as [->|N2]; [by rewrite H2, G2|].
  by rewrite (H3 k N1 N2), (G3 k N1 N2), (F3 k N1 N2).
Qed.

Lemma snd_zip_take {A B} (l : list A) (k : list B) :
  (zip l k).*2 = take (length l) k.
Proof.
  revert k. induction l as [|x l IH]; intros [|y k]; simpl; try done.
  by rewrite IH.
Qed.

Section LoaderProofs.

Variable env : gaze_env.
Variable session_paths : list string.
Variable session_categories : list pyval.

Lemma updated_meta_info_Ok meta_info_list idx sr place meta_info :
  updated_meta_info meta_info_list session_categories idx sr
    = Ok (place, meta_info) →
  ∃ before category,
    py_position meta_info_list idx = Ok place ∧
    meta_info_list !! place = Some before ∧
    py_getitem session_categories idx = Ok category ∧
    meta_info = with_rate_and_category before sr category.
Proof.
  unfold updated_meta_info. intros H.
  apply bind_Ok in H as (place' & Hp & H).
  apply bind_Ok in H as (before & Hb & H).
  apply bind_Ok in H as (category & Hc & [= <- <-]).
  apply py_getitem_Ok in Hb as (place'' & Hp' & Hb).
  assert (place'' = place') as -> by congruence.
  exists before, category. done.
Qed.

(** what one step does to the state *)
Lemma labelled_step_cases out meta_info_list labelled idx st' :
  labelled_step env session_paths session_categories
                (out, meta_info_list, labelled) idx = Ok st' →
  visitable env session_paths idx ∧
  ((∃ line, st' = (out ++ [line], meta_info_list, labelled)) ∨
   (∃ gaze_positions place before sr category,
      py_position meta_info_list idx = Ok place ∧
      meta_info_list !! place = Some before ∧
      py_getitem session_categories idx = Ok category ∧
      st' = (out,
             <[place := with_rate_and_category before sr category]>
               meta_info_list,
             labelled ++ [(gaze_positions, place)]))).
Proof.
  unfold labelled_step. intros H.
  apply bind_Ok in H as (folder_path & Hf & H).
  apply bind_Ok in H as (names & Hn & H).
  split; [by exists folder_path, names|].
  destruct (List.filter _ names) as [|mat_file [|other rest]].
  - left. injection H as <-. by eexists.
  - destruct (read_gaze env _) as [[sr gaze_positions]|e] eqn:Er; cbn in H.
    + destruct (updated_meta_info _ _ _ _) as [[place meta_info]|e] eqn:Eu;
        cbn in H.
      * right. injection H as <-.
        apply updated_meta_info_Ok in Eu
          as (before & category & Hp & Hb & Hc & ->).
        by exists gaze_positions, place, before, sr, category.
      * left. injection H as <-. by eexists.
    + left. injection H as <-. by eexists.
  - left. injection H as <-. by eexists.
Qed.

Lemma labelled_step_visitable st idx :
  visitable env session_paths idx →
  ∃ st', labelled_step env session_paths session_categories st idx = Ok st'.
Proof.
  intros (folder_path & names & Hf & Hn).
  destruct st as [[out meta_info_list] labelled]. unfold labelled_step.
  rewrite Hf. cbn. rewrite Hn. cbn.
  destruct (List.filter _ names) as [|mat_file [|other rest]];
    [by eexists| |by eexists].
  destruct (read_gaze env _) as [[sr gaze_positions]|e]; cbn; [|by eexists].
  destruct (updated_meta_info _ _ _ _) as [[place meta_info]|e]; cbn;
    by eexists.
Qed.

Lemma labelled_step_not_visitable st idx :
  ¬ visitable env session_paths idx →
  ∃ e, labelled_step env session_paths session_categories st idx = Raise e.
Proof.
  intros Hno. destruct st as [[out meta_info_list] labelled].
  unfold labelled_step.
  destruct (py_getitem session_paths idx) as [folder_path|e] eqn:Hf;
    [|by exists e].
  cbn. destruct (listdir env folder_path) as [names|e] eqn:Hn; [|by exists e].
  exfalso. apply Hno. by exists folder_path, names.
Qed.

(** the loop over the indices of one dose *)
Lemma labelled_steps_returns indices : ∀ st,
  (∃ st', foldM (labelled_step env session_paths session_categories) st indices
          = Ok st') ↔
  Forall (visitable env session_paths) indices.
Proof.
  induction indices as [|idx indices IH]; intros st.
  - split; [constructor|by eexists].
  - cbn [foldM]. split.
    + intros (st' & H). apply bind_Ok in H as (st1 & H1 & H).
      constructor.
      * destruct st as [[out m] l]. by apply labelled_step_cases in H1 as [? _].
      * apply (IH st1). eauto.
    + intros H. apply Forall_cons in H as [Hv H].
      destruct (labelled_step_visitable st idx Hv) as [st1 ->]. cbn.
      by apply IH.
Qed.

(** the loop over the doses is the loop over the indices visited *)
Lemma extract_labelled_loop_visited unique_doses dose_inds meta_info_list :
  extract_labelled_loop env unique_doses dose_inds meta_info_list session_paths
                        session_categories =
  foldM (labelled_step env session_paths session_categories)
        ([], meta_info_list, [])
        (concat (take (length unique_doses) dose_inds)).
Proof.
  unfold extract_labelled_loop. rewrite <- snd_zip_take.
  generalize (([], meta_info_list, []) : list string * list dict * list gaze_ref).
  induction (zip unique_doses dose_inds) as [|[dose indices_list] l IH];
    intros st; [done|].
  cbn [foldM fmap list_fmap concat snd]. rewrite foldM_app.
  destruct (foldM _ st indices_list) as [st'|e]; [|done]. cbn. apply IH.
Qed.

(** every step gives one more session or one more line *)
Lemma labelled_steps_count indices : ∀ out m l out' m' l',
  foldM (labelled_step env session_paths session_categories) (out, m, l)
        indices = Ok (out', m', l') →
  length out' + length l' = length out + length l + length indices.
Proof.
  induction indices as [|idx indices IH]; intros out m l out' m' l' H.
  - injection H as <- <- <-. simpl. lia.
  - cbn [foldM] in H. apply bind_Ok in H as ([[out1 m1] l1] & H1 & H).
    apply IH in H.
    apply labelled_step_cases in H1 as [_ [(line & [= -> -> ->])|
      (g & place & before & sr & category & _ & _ & _ & [= -> -> ->])]];
      rewrite length_app in H; simpl in *; lia.
Qed.

Lemma updated_at_insert_ne (original_list m : list dict) place q w :
  q ≠ place → updated_at original_list m q →
  updated_at original_list (<[place := w]> m) q.
Proof.
  intros Hne (original & sr0 & c0 & Ho & Hs).
  exists original, sr0, c0. split; [done|].
  by rewrite list_lookup_insert_ne.
Qed.

(** the loop updates dictionaries in their place, and every session it
    takes refers to an updated dictionary *)
Lemma labelled_steps_updated original_list indices : ∀ out m l out' m' l',
  foldM (labelled_step env session_paths session_categories) (out, m, l)
        indices = Ok (out', m', l') →
  updated_from original_list m → Forall (λ s, updated_at original_list m s.2) l →
  updated_from original_list m' ∧
  Forall (λ s, updated_at original_list m' s.2) l' ∧
  (∀ place, (∀ s, s ∈ l' → s.2 ≠ place) → m' !! place = m !! place).
Proof.
  induction indices as [|idx indices IH]; intros out m l out' m' l' H Hm Hl.
  - injection H as <- <- <-. done.
  - cbn [foldM] in H. apply bind_Ok in H as ([[out1 m1] l1] & H1 & H).
    apply labelled_step_cases in H1 as [_ [(line & [= -> -> ->])|
      (g & place & before & sr & category & Hp & Hb & _ & [= -> -> ->])]].
    + by apply (IH _ _ _ _ _ _ H).
    + assert (place < length m) as Hlt by (by apply py_position_lt in Hp).
      assert (updated_at original_list
                (<[place := with_rate_and_category before sr category]> m)
                place) as Hnew.
      { destruct Hm as [Hlen Hm].
        destruct (Hm place) as [Heq|(original & sr0 & c0 & Ho & Hs)].
        - exists before, sr, category. split; [by rewrite <- Heq|].
          rewrite list_lookup_insert_eq by done. done.
        - exists original, sr, category. split; [done|].
          rewrite list_lookup_insert_eq by done.
          rewrite Hb in Hs. apply (inj Some) in Hs. subst before.
          rewrite with_rate_and_category_twice. reflexivity. }
      destruct (IH _ _ _ _ _ _ H) as (Hm' & Hl' & Hrest).
      * destruct Hm as [Hlen Hm]. split; [by rewrite length_insert|].
        intros q. destruct (decide (q = place)) as [->|Hne].
        -- by right.
        -- destruct (Hm q) as [Heq|Hup].
           ++ left. by rewrite list_lookup_insert_ne.
           ++ right. by apply updated_at_insert_ne.
      * apply Forall_app. split.
        -- eapply Forall_impl; [exact Hl|]. intros s Hs.
           destruct (decide (s.2 = place)) as [->|Hne]; [done|].
           by apply updated_at_insert_ne.
        -- constructor; [exact Hnew|constructor].
      * split_and!; [done..|].
        intros q Hq. rewrite Hrest by done.
        apply list_lookup_insert_ne. intros ->.
        apply (Hq (g, q)); [|done].
        assert (l ++ [(g, q)] `sublist_of` l') as Hsub.
        { clear -H. revert H.
          generalize (out, <[q:=with_rate_and_category before sr category]> m).
          generalize (l ++ [(g, q)]).
          induction indices as [|i indices IHi]; intros l0 [o0 m0] H.
          - by injection H as <- <- <-.
          - cbn [foldM] in H. apply bind_Ok in H as ([[o1 m1] l1] & H1 & H).
            apply IHi in H. etrans; [|exact H].
            apply labelled_step_cases in H1 as [_ [(line & [= -> -> ->])|
              (g' & p' & b' & sr' & c' & _ & _ & _ & [= -> -> ->])]];
              [done|by apply sublist_inserts_r]. }
        eapply elem_of_sublist; [|exact Hsub].
        apply elem_of_app. right. by left.
Qed.

End LoaderProofs.

Lemma updated_from_refl (meta_info_list : list dict) :
  updated_from meta_info_list meta_info_list.
Proof. split; [done|]. intros place. by left. Qed.

(** X8.  [extract_labelled_gaze_positions_m1] copies no dictionary: when
    it returns, the caller's [meta_info_list] has as many dictionaries as
    before, each of them the one the caller passed or that one updated with
    ['sampling_rate'] and ['category']; the dictionary of every session
    returned is a dictionary of the caller's list after the call, namely the
    caller's own with these two keys written; and a dictionary that belongs
    to no session returned is left as it was. *)
Theorem extract_labelled_updates_in_place env unique_doses dose_inds
    meta_info_list session_paths session_categories out updated sessions :
  extract_labelled_gaze_positions_m1 env unique_doses dose_inds meta_info_list
    session_paths session_categories = Ok (out, updated, sessions) →
  updated_from meta_info_list updated ∧
  ∃ places,
    Forall2 (λ place session,
               ∃ original sr category,
                 meta_info_list !! place = Some original ∧
                 session.2 = with_rate_and_category original sr category ∧
                 session.2 !! "sampling_rate" = Some (PFloat sr) ∧
                 session.2 !! "category" = Some category ∧
                 updated !! place = Some session.2)
            places sessions ∧
    ∀ place, place ∉ places → updated !! place = meta_info_list !! place.
Proof.
  unfold extract_labelled_gaze_positions_m1. intros H.
  apply bind_Ok in H as ([[out' m'] l'] & Hloop & [= <- <- <-]).
  rewrite extract_labelled_loop_visited in Hloop.
  destruct (labelled_steps_updated env session_paths session_categories
              meta_info_list _ _ _ _ _ _ _ Hloop
              (updated_from_refl meta_info_list) (Forall_nil_2 _))
    as (Hfrom & Hl & Hrest).
  split; [done|]. exists l'.*2. split.
  - apply Forall2_same_length_lookup. split.
    { by rewrite length_fmap, length_map. }
    intros i place session Hp Hs. rewrite list_lookup_fmap in Hp.
    change (map (deref m') l') with (deref m' <$> l') in Hs.
    rewrite list_lookup_fmap in Hs.
    apply fmap_Some in Hp as (s & E & ->).
    unfold gaze_ref in *. rewrite E in Hs. simpl in Hs. apply (inj Some) in Hs. subst session.
    eapply Forall_forall in Hl; [|by eapply list_elem_of_lookup_2].
    destruct Hl as (original & sr & category & Ho & Hu).
    exists original, sr, category.
    destruct (with_rate_and_category_lookup original sr category)
      as (Hsr & Hcat & _).
    unfold deref. rewrite Hu. simpl. done.
  - intros place Hplace. apply Hrest. intros s Hs Heq.
    apply Hplace. apply list_elem_of_fmap. by exists s.
Qed.

(** X9.  [extract_labelled_gaze_positions_m1] goes through the index
    lists of as many doses as [unique_doses] and [dose_inds] both have.  It
    returns exactly when every index it goes through addresses a session
    path whose folder can be listed, whatever the folders, [meta_info_list]
    and [session_categories] hold; and then every index has given one
    session or one printed line. *)
Theorem extract_labelled_returns_iff env unique_doses dose_inds meta_info_list
    session_paths session_categories :
  let visited := concat (take (length unique_doses) dose_inds) in
  ((∃ r, extract_labelled_gaze_positions_m1 env unique_doses dose_inds
           meta_info_list session_paths session_categories = Ok r) ↔
   Forall (visitable env session_paths) visited)
  ∧ (∀ out updated sessions,
       extract_labelled_gaze_positions_m1 env unique_doses dose_inds
         meta_info_list session_paths session_categories
         = Ok (out, updated, sessions) →
       length out + length sessions = length visited).
Proof.
  cbv zeta. unfold extract_labelled_gaze_positions_m1.
  rewrite extract_labelled_loop_visited. split.
  - rewrite <- (labelled_steps_returns env session_paths session_categories
                  _ ([], meta_info_list, [])).
    split.
    + intros (r & H). apply bind_Ok in H as (st & Hst & _). eauto.
    + intros ([[out m] l] & ->). by eexists.
  - intros out updated sessions H.
    apply bind_Ok in H as ([[out' m'] l'] & Hloop & [= <- <- <-]).
    apply labelled_steps_count in Hloop. rewrite length_map. simpl in Hloop.
    lia.
Qed.

Lemma mapM_length {A B} (f : A → result B) (l : list A) k :
  mapM f l = Ok k → length k = length l.
Proof.
  intros H. apply mapM_Ok_inv in H. symmetry. by eapply Forall2_length.
Qed.

(** X10.  [get_labelled_gaze_positions_dict_m1] raises only what
    [os.listdir] raises.  When it returns [None] it has printed one line and
    left [meta_info_list] as it was; when it returns a pair it has printed
    nothing and updated one dictionary of the list, the one at [idx], with
    the sampling rate of the file and [session_categories[idx]]; the
    positions returned are one row per sample of the file, mapped or not. *)
Theorem get_labelled_gaze_positions_outcomes env map_coord_to_eyelink_space
    folder_path meta_info_list session_categories idx
    map_gaze_pos_coord_to_eyelink_space :
  match get_labelled_gaze_positions_dict_m1 env map_coord_to_eyelink_space
          folder_path meta_info_list session_categories idx
          map_gaze_pos_coord_to_eyelink_space with
  | Raise e => listdir env folder_path = Raise e
  | Ok (out, updated, None) => length out = 1 ∧ updated = meta_info_list
  | Ok (out, updated, Some (gaze_positions, place)) =>
      out = [] ∧ py_position meta_info_list idx = Ok place ∧
      ∃ original sr category mat_file raw,
        meta_info_list !! place = Some original ∧
        py_getitem session_categories idx = Ok category ∧
        read_gaze env (path_join env folder_path mat_file) = Ok (sr, raw) ∧
        length gaze_positions = length raw ∧
        updated = <[place := with_rate_and_category original sr category]>
                    meta_info_list
  end.
Proof.
  unfold get_labelled_gaze_positions_dict_m1.
  destruct (listdir env folder_path) as [names|e]; [|done]. cbn.
  destruct (List.filter _ names) as [|mat_file [|other rest]]; [done| |done].
  destruct (read_gaze env _) as [[sr raw]|e] eqn:Er; cbn; [|done].
  destruct (if map_gaze_pos_coord_to_eyelink_space
            then mapM map_coord_to_eyelink_space raw else Ok raw)
    as [gaze_positions|e] eqn:Em; cbn; [|done].
  destruct (updated_meta_info _ _ _ _) as [[place meta_info]|e] eqn:Eu; cbn;
    [|done].
  apply updated_meta_info_Ok in Eu as (before & category & Hp & Hb & Hc & ->).
  split_and!; [done..|].
  exists before, sr, category, mat_file, raw. split_and!; try done.
  destruct map_gaze_pos_coord_to_eyelink_space.
  - by apply mapM_length in Em.
  - by injection Em as <-.
Qed.

(** ** The readers of a session folder *)

Section ReaderProofs.

Variable env : data_env.

Lemma spike_units_fold session_name units : ∀ s ms rows s' ms' rows',
  foldM (spike_unit_step session_name) (s, ms, rows) units = Ok (s', ms', rows') →
  length s' = length s + length units ∧
  length ms' = length ms + length units ∧
  length rows' = length rows + length units ∧
  Forall (λ unit, ∃ u, unit = Ok u) units ∧
  (Forall (λ row, length row = 8 ∧ row !! 0 = Some (PStr session_name)) rows →
   Forall (λ row, length row = 8 ∧ row !! 0 = Some (PStr session_name)) rows').
Proof.
  induction units as [|unit units IH]; intros s ms rows s' ms' rows' H.
  - injection H as <- <- <-. simpl. split_and!; try lia; [constructor|done].
  - cbn [foldM] in H. apply bind_Ok in H as ([[s1 ms1] rows1] & H1 & H).
    unfold spike_unit_step in H1. destruct unit as [u|e]; [|done].
    cbn in H1. injection H1 as <- <- <-.
    apply IH in H as (Hs & Hms & Hrows & Hok & Hall).
    rewrite !length_app in *. simpl in *.
    split_and!; try lia.
    + constructor; [by eexists|done].
    + intros Hr. apply Hall. apply Forall_app. split; [done|].
      by repeat constructor.
Qed.

Lemma get_m1_roi_bounding_boxes_dom p flag :
  dom (get_m1_roi_bounding_boxes env p flag).2 = list_to_set bbox_keys.
Proof.
  unfold get_m1_roi_bounding_boxes, none_bboxes, bbox_keys.
  destruct (glob (mats env) _) as [|f [|f' fs]]; simpl;
    [| destruct (load_roi_corners env f flag) as [[[[[b1 b2] b3] b4]|]|e];
       simpl|];
    rewrite !dom_union_L, !dom_singleton_L; set_solver.
Qed.

End ReaderProofs.

(** X11.  [get_m1_roi_bounding_boxes] always returns a dictionary with
    exactly the four keys ['eye_bbox'], ['face_bbox'], ['left_obj_bbox'] and
    ['right_obj_bbox'], so reading any of them never raises; when the
    calibration file is missing, duplicated or unreadable it prints one line
    and the four values are [None]; when the file is read it prints
    nothing. *)
Theorem get_m1_roi_bounding_boxes_keys env session_path
    map_roi_coord_to_eyelink_space :
  let r := get_m1_roi_bounding_boxes env session_path
                                     map_roi_coord_to_eyelink_space in
  let files := glob (mats env)
                    (session_path +:+ "/*M1_farPlaneCal_regForm.mat") in
  let load := λ file, load_roi_corners env file
                                       map_roi_coord_to_eyelink_space in
  dom r.2 = list_to_set bbox_keys
  ∧ Forall (λ k, ∃ v, dict_get r.2 k = Ok v) bbox_keys
  ∧ length r.1 = flag (unusable files load)
  ∧ (unusable files load = true → r.2 = none_bboxes).
Proof.
  cbv zeta. split_and!.
  - apply get_m1_roi_bounding_boxes_dom.
  - apply Forall_forall. intros k Hk. unfold dict_get.
    assert (k ∈ dom (get_m1_roi_bounding_boxes env session_path
                       map_roi_coord_to_eyelink_space).2) as Hd.
    { rewrite get_m1_roi_bounding_boxes_dom. by apply elem_of_list_to_set. }
    apply elem_of_dom in Hd as [v ->]. by exists v.
  - unfold get_m1_roi_bounding_boxes, unusable.
    destruct (glob (mats env) _) as [|f [|f' fs]]; try done.
    by destruct (load_roi_corners env f _) as [[[[[b1 b2] b3] b4]|]|e].
  - unfold get_m1_roi_bounding_boxes, unusable.
    destruct (glob (mats env) _) as [|f [|f' fs]]; try done.
    by destruct (load_roi_corners env f _) as [[[[[b1 b2] b3] b4]|]|e].
Qed.

(** X12.  [get_monkey_and_dose_data] returns the empty dictionary or a
    dictionary with exactly the keys ['monkey_1'], ['monkey_2'], ['OT_dose']
    and ['NAL_dose'], the two doses being floats: it never stores [None].
    It prints one line exactly when the metaInfo file is missing, duplicated
    or unreadable, and then returns the empty dictionary, on which reading
    any key raises KeyError. *)
Theorem get_monkey_and_dose_data_outcomes env session_path :
  let r := get_monkey_and_dose_data env session_path in
  let files := glob (mats env) (session_path +:+ "/*metaInfo.mat") in
  (r.2 = ∅ ∨
   (dom r.2 = list_to_set info_keys ∧ r.1 = [] ∧
    ∃ OT_dose NAL_dose,
      r.2 !! "OT_dose" = Some (PFloat OT_dose) ∧
      r.2 !! "NAL_dose" = Some (PFloat NAL_dose)))
  ∧ length r.1 = flag (unusable files (load_dose_info env))
  ∧ (unusable files (load_dose_info env) = true →
     r.2 = ∅ ∧ ∀ k, dict_get r.2 k = Raise KeyError).
Proof.
  cbv zeta. unfold get_monkey_and_dose_data, unusable, info_keys.
  destruct (glob (mats env) _) as [|f [|f' fs]]; simpl;
    try (split_and!; [by left|done|done]).
  destruct (load_dose_info env f) as [[[[[m1 m2] ot] nal]|]|e]; simpl.
  - split_and!; [right|done|done]. split_and!.
    + rewrite !dom_union_L, !dom_singleton_L. set_solver.
    + done.
    + exists ot, nal. split.
      * rewrite lookup_union_l'; [|by eexists].
        rewrite lookup_union_r; [by rewrite lookup_singleton_eq|].
        rewrite lookup_union_None, !lookup_singleton_ne; done.
      * rewrite lookup_union_r; [by rewrite lookup_singleton_eq|].
        rewrite !lookup_union_None, !lookup_singleton_ne; done.
  - split_and!; [by left|done|done].
  - split_and!; [by left|done|done].
Qed.

(** X13.  On the runs file of a session, [load_data.get_runs_data] and
    [extract_meta_info] agree whenever the first returns something: either
    [get_runs_data] returns the empty dictionary and [extract_meta_info]
    holds [None], [None] and 0 for the session, or both hold the same
    ['startS'], ['stopS'] and ['num_runs'], [get_runs_data] holding these
    three keys only. *)
Theorem get_runs_data_agrees env session_path :
  let runs := (get_runs_data env session_path).2 in
  let meta_info := (meta_info_of_session env session_path).2 in
  (runs = ∅ ∧
   meta_info !! "startS" = Some PNone ∧ meta_info !! "stopS" = Some PNone ∧
   meta_info !! "num_runs" = Some (PInt 0))
  ∨ (dom runs = list_to_set runs_keys ∧
     Forall (λ k, runs !! k = meta_info !! k) runs_keys ∧
     ∃ startS stopS,
       runs !! "startS" = Some (PFloats startS) ∧
       runs !! "stopS" = Some (PFloats stopS) ∧
       runs !! "num_runs" = Some (PInt (Z.of_nat (length startS)))).
Proof.
  cbv zeta. rewrite meta_info_of_session_eq. cbv zeta. cbn [snd].
  assert (∀ k d, k ∈ runs_keys →
            (meta_landmarks_step env session_path d).2 !! k = d !! k) as Hl.
  { intros k d Hk. apply meta_landmarks_step_other.
    unfold runs_keys, bbox_keys in *.
    repeat (apply elem_of_cons in Hk as [->|Hk]; [solve_not_key|]).
    by apply elem_of_nil in Hk. }
  rewrite !Hl by (unfold runs_keys; repeat (first [by left|right])).
  unfold get_runs_data, meta_runs_step, dict_update, none_runs.
  destruct (glob env _) as [|f [|f' fs]]; simpl;
    try (left; split_and!; [done|..];
         (rewrite lookup_union_l'; [reflexivity|by eexists])).
  destruct (load_runs env f) as [[[startS stopS]|]|e]; simpl;
    try (left; split_and!; [done|..];
         (rewrite lookup_union_l'; [reflexivity|by eexists])).
  right. split_and!.
  - unfold runs_keys. rewrite !dom_union_L, !dom_singleton_L. set_solver.
  - unfold runs_keys. repeat apply Forall_cons_2; [..|apply Forall_nil_2];
      (rewrite Hl by (unfold runs_keys; repeat (first [by left|right]));
       symmetry; apply lookup_union_l'; by eexists).
  - exists startS, stopS. split_and!; reflexivity.
Qed.

(** X14.  [get_spiketimes_and_labels_for_one_session] returns three
    collections of one length: the spike times in seconds, the spike times in
    milliseconds and the rows of the label table, whose columns are always
    the eight label columns.  Either it prints nothing and the three hold one
    entry per unit of the file, every row of eight values starting with the
    folder name of the session; or it prints one line and the three are
    empty: one unit that cannot be read discards the units read before
    it. *)
Theorem spiketimes_and_labels_aligned env session_path :
  let r := get_spiketimes_and_labels_for_one_session env session_path in
  let session_name := basename (mats env) (normpath env session_path) in
  length r.2.1.1 = length r.2.1.2
  ∧ length r.2.1.2 = length (frame_rows r.2.2)
  ∧ columns r.2.2 = label_cols
  ∧ Forall (λ row, length row = length label_cols ∧
                   row !! 0 = Some (PStr session_name)) (frame_rows r.2.2)
  ∧ ((r.1 = [] ∧
      ∃ file units,
        glob (mats env) (session_path +:+ "/*spikeTs_regForm.mat") = [file] ∧
        load_spike_units env file = Ok units ∧
        Forall (λ unit, ∃ u, unit = Ok u) units ∧
        length r.2.1.1 = length units)
     ∨ (length r.1 = 1 ∧ r.2.1.1 = [] ∧ r.2.1.2 = [] ∧
        frame_rows r.2.2 = [])).
Proof.
  cbv zeta. unfold get_spiketimes_and_labels_for_one_session.
  destruct (glob (mats env) _) as [|f [|f' fs]] eqn:Eg; simpl;
    try (split_and!; [done..|constructor|by right]).
  destruct (load_spike_units env f) as [units|e] eqn:El; cbn;
    [|split_and!; [done..|constructor|by right]].
  destruct (foldM _ _ units) as [[[s ms] rows]|e] eqn:Ef; cbn;
    [|split_and!; [done..|constructor|by right]].
  apply spike_units_fold in Ef as (Hs & Hms & Hrows & Hok & Hall).
  simpl in *. split_and!; [lia|lia|done|by apply Hall|].
  left. split; [done|]. exists f, units. done.
Qed.

(** ** From the dose matrix to the labelled sessions *)

Lemma elem_of_concat {A} (x : A) (l : list (list A)) :
  x ∈ concat l ↔ ∃ b, x ∈ b ∧ b ∈ l.
Proof.
  rewrite list_elem_of_In, in_concat. split.
  - intros (b & Hb & Hx). exists b. by rewrite !list_elem_of_In.
  - intros (b & Hx & Hb). exists b. by rewrite <- !list_elem_of_In.
Qed.

Lemma NoDup_concat_buckets {A} (l : list (list A)) :
  Forall NoDup l →
  (∀ i1 i2 b1 b2 x, l !! i1 = Some b1 → l !! i2 = Some b2 →
                    x ∈ b1 → x ∈ b2 → i1 = i2) →
  NoDup (concat l).
Proof.
  induction l as [|b l IH]; intros Hnd Hdis; simpl; [constructor|].
  apply Forall_cons in Hnd as [Hb Hnd].
  apply NoDup_app. split_and!.
  - done.
  - intros x Hx Hin. apply elem_of_concat in Hin as (b' & Hxb' & Hb').
    apply list_elem_of_lookup in Hb' as [i Hi].
    assert (0 = S i) as Habs; [|lia].
    by apply (Hdis 0 (S i) b b' x).
  - apply IH; [done|]. intros i1 i2 b1 b2 x H1 H2 Hx1 Hx2.
    assert (S i1 = S i2) as Heq; [|lia].
    by apply (Hdis (S i1) (S i2) b1 b2 x).
Qed.

Lemma concat_lookup_bucket {A} (l : list (list A)) k x :
  concat l !! k = Some x → ∃ i b, l !! i = Some b ∧ x ∈ b.
Proof.
  intros H. apply list_elem_of_lookup_2, elem_of_concat in H
    as (b & Hx & Hb).
  apply list_elem_of_lookup in Hb as [i Hi]. eauto.
Qed.

(** along a concatenation the buckets come in their order *)
Lemma concat_lookup_order {A} (l : list (list A)) : ∀ k1 k2 x1 x2,
  k1 ≤ k2 → concat l !! k1 = Some x1 → concat l !! k2 = Some x2 →
  ∃ i1 i2 b1 b2, i1 ≤ i2 ∧ l !! i1 = Some b1 ∧ l !! i2 = Some b2 ∧
                 x1 ∈ b1 ∧ x2 ∈ b2.
Proof.
  induction l as [|b l IH]; intros k1 k2 x1 x2 Hle H1 H2; [done|].
  simpl in H1, H2.
  destruct (decide (k2 < length b)) as [Hk2|Hk2].
  - rewrite lookup_app_l in H1, H2 by lia.
    exists 0, 0, b, b. split_and!; try done.
    + by eapply list_elem_of_lookup_2.
    + by eapply list_elem_of_lookup_2.
  - rewrite lookup_app_r in H2 by lia.
    destruct (decide (k1 < length b)) as [Hk1|Hk1].
    + rewrite lookup_app_l in H1 by lia.
      apply concat_lookup_bucket in H2 as (i2 & b2 & Hi2 & Hx2).
      exists 0, (S i2), b, b2. split_and!; try done; [lia|].
      by eapply list_elem_of_lookup_2.
    + rewrite lookup_app_r in H1 by lia.
      destruct (IH (k1 - length b) (k2 - length b) x1 x2)
        as (i1 & i2 & b1 & b2 & Hi & Hb1 & Hb2 & Hx1 & Hx2); [lia|done..|].
      exists (S i1), (S i2), b1, b2. split_and!; try done. lia.
Qed.

(** on a matrix of numbers every session lies in the bucket of its
    category and in no other *)
Lemma bucket_of_session rows j d :
  Forall valid_row rows → rows !! j = Some d →
  ∃ i, (get_unique_doses rows).2 !! j = Some (Some i) ∧
       ∀ i' b, (get_unique_doses rows).1.2 !! i' = Some b → j ∈ b ↔ i' = i.
Proof.
  intros Hv Hd. rewrite get_unique_doses_eq. cbn [fst snd].
  destruct (category_of_row rows j d Hv Hd) as (i & u & Hi & Hdu & Hc & Huniq).
  exists i. split; [done|].
  intros i' b Hb. rewrite list_lookup_fmap in Hb.
  destruct (np_unique_rows rows !! i') as [u'|] eqn:Hi'; [|done].
  apply (inj Some) in Hb. subst b.
  rewrite elem_of_np_where_rows, <- (Huniq i' u' Hi'). split.
  - intros (d' & Hd' & E). rewrite Hd in Hd'. by injection Hd' as <-.
  - intros E. eauto.
Qed.

Lemma buckets_permutation rows :
  Forall valid_row rows →
  concat (get_unique_doses rows).1.2 ≡ₚ seq 0 (length rows).
Proof.
  intros Hv. apply NoDup_Permutation.
  - apply NoDup_concat_buckets.
    + rewrite get_unique_doses_eq. cbn [fst snd]. apply Forall_fmap.
      apply Forall_forall. intros u _. simpl. unfold np_where_rows.
      apply NoDup_ListNoDup, List.NoDup_filter, NoDup_ListNoDup, NoDup_seq.
    + intros i1 i2 b1 b2 j H1 H2 Hj1 Hj2.
      assert (∃ d, rows !! j = Some d) as [d Hd].
      { rewrite get_unique_doses_eq in H1. cbn [fst snd] in H1.
        rewrite list_lookup_fmap in H1.
        destruct (np_unique_rows rows !! i1) as [u|]; [|done].
        apply (inj Some) in H1. subst b1.
        apply elem_of_np_where_rows in Hj1 as (d & Hd & _). eauto. }
      destruct (bucket_of_session rows j d Hv Hd) as (i & _ & Hi).
      apply (Hi i1 b1 H1) in Hj1. apply (Hi i2 b2 H2) in Hj2. congruence.
  - apply NoDup_seq.
  - intros j. rewrite elem_of_seq. split.
    + intros Hj. apply elem_of_concat in Hj as (b & Hjb & Hb).
      rewrite get_unique_doses_eq in Hb. cbn [fst snd] in Hb.
      apply list_elem_of_fmap in Hb as (u & -> & _).
      apply elem_of_np_where_rows in Hjb as (d & Hd & _).
      apply lookup_lt_Some in Hd. lia.
    + intros [_ Hj]. destruct (lookup_lt_is_Some_2 rows j) as [d Hd]; [lia|].
      destruct (bucket_of_session rows j d Hv Hd) as (i & Hc & Hi).
      assert (i < length (get_unique_doses rows).1.2) as Hlt.
      { rewrite get_unique_doses_eq in *. cbn [fst snd] in *.
        rewrite length_map.
        destruct (category_of_row rows j d Hv Hd)
          as (i0 & u & Hu & _ & Hc0 & _).
        rewrite Hc in Hc0. injection Hc0 as <-.
        by apply lookup_lt_Some in Hu. }
      destruct (lookup_lt_is_Some_2 _ _ Hlt) as [b Hb].
      apply elem_of_concat. exists b. split.
      * by apply (Hi i b Hb).
      * by eapply list_elem_of_lookup_2.
Qed.

Section ReadyFolders.

Variable env : gaze_env.
Variable original_list : list dict.
Variable session_paths : list string.
Variable session_categories : list pyval.
Hypothesis paths_length : length session_paths = length original_list.
Hypothesis categories_length :
  length session_categories = length original_list.
Hypothesis folders_load : Forall (folder_loads env) session_paths.

Lemma labelled_step_ready out m lab j :
  length m = length original_list → j < length original_list →
  ∃ gaze_positions before sr category,
    m !! j = Some before ∧ session_categories !! j = Some category ∧
    labelled_step env session_paths session_categories (out, m, lab)
                  (Z.of_nat j) =
    Ok (out, <[j := with_rate_and_category before sr category]> m,
        lab ++ [(gaze_positions, j)]).
Proof.
  intros Hm Hj.
  destruct (lookup_lt_is_Some_2 session_paths j) as [p Hp]; [lia|].
  destruct (lookup_lt_is_Some_2 m j) as [before Hb]; [lia|].
  destruct (lookup_lt_is_Some_2 session_categories j) as [category Hc]; [lia|].
  assert (folder_loads env p) as (names & mat_file & sr & g & Hn & Hf & Hr).
  { eapply Forall_forall in folders_load; [done|].
    by eapply list_elem_of_lookup_2. }
  exists g, before, sr, category. split_and!; [done..|].
  unfold labelled_step. rewrite py_getitem_of_nat, Hp. cbn.
  rewrite Hn. cbn. rewrite Hf, Hr. cbn.
  unfold updated_meta_info. rewrite py_position_of_nat.
  destruct (decide (j < length m)) as [_|Hno]; [|lia]. cbn.
  rewrite !py_getitem_of_nat, Hb. cbn. rewrite Hc. cbn. done.
Qed.

Lemma labelled_steps_ready l : ∀ out m lab,
  length m = length original_list →
  (∀ j, m !! j = original_list !! j ∨
        categorised_at original_list session_categories m j) →
  Forall (λ j, j < length original_list) l →
  ∃ m' lab',
    foldM (labelled_step env session_paths session_categories) (out, m, lab)
          (map Z.of_nat l) = Ok (out, m', lab') ∧
    lab'.*2 = lab.*2 ++ l ∧
    length m' = length original_list ∧
    (∀ j, m' !! j = original_list !! j ∨
          categorised_at original_list session_categories m' j) ∧
    (∀ j, categorised_at original_list session_categories m j ∨ j ∈ l →
          categorised_at original_list session_categories m' j).
Proof.
  induction l as [|j l IH]; intros out m lab Hm Hinv Hl.
  - exists m, lab. split_and!; try done.
    + by rewrite app_nil_r.
    + intros j [H|H]; [done|by apply elem_of_nil in H].
  - apply Forall_cons in Hl as [Hj Hl].
    destruct (labelled_step_ready out m lab j Hm Hj)
      as (g & before & sr & category & Hb & Hc & Hstep).
    set (m1 := <[j := with_rate_and_category before sr category]> m) in *.
    assert (categorised_at original_list session_categories m1 j) as Hnew.
    { destruct (Hinv j) as [Heq|(original & sr0 & c0 & Ho & Hc0 & Hs)].
      - exists before, sr, category. split_and!; [by rewrite <- Heq|done|].
        unfold m1. rewrite list_lookup_insert_eq by lia. done.
      - exists original, sr, category. split_and!; [done..|].
        unfold m1. rewrite list_lookup_insert_eq by lia.
        rewrite Hb in Hs. apply (inj Some) in Hs. subst before.
        rewrite with_rate_and_category_twice. reflexivity. }
    assert (∀ q, categorised_at original_list session_categories m q →
                 categorised_at original_list session_categories m1 q) as Hkeep.
    { intros q Hq. destruct (decide (q = j)) as [->|Hne]; [done|].
      destruct Hq as (original & sr0 & c0 & Ho & Hc0 & Hs).
      exists original, sr0, c0. split_and!; [done..|].
      unfold m1. by rewrite list_lookup_insert_ne. }
    destruct (IH out m1 (lab ++ [(g, j)])) as (m' & lab' & Hfold & Hrefs & Hlen
                                               & Hinv' & Hcat).
    + unfold m1. by rewrite length_insert.
    + intros q. destruct (decide (q = j)) as [->|Hne]; [by right|].
      destruct (Hinv q) as [Heq|Hq]; [left|right; by apply Hkeep].
      unfold m1. by rewrite list_lookup_insert_ne.
    + done.
    + exists m', lab'. split_and!; try done.
      * cbn [map foldM]. rewrite Hstep. cbn. exact Hfold.
      * rewrite Hrefs, fmap_app. simpl. by rewrite <- app_assoc.
      * intros q [Hq|Hq]; apply Hcat.
        -- left. by apply Hkeep.
        -- apply elem_of_cons in Hq as [->|Hq]; [by left|by right].
Qed.

End ReadyFolders.


(** ** The theorems at concrete inputs *)

Lemma example_sessions_ready :
  Forall (session_ready arange_timevec) example_sessions.
Proof.
  assert (session_ready arange_timevec
            (example_positions, example_info 2 [0; 4]%float [4; 9]%float)) as H.
  { exists 1%float, (PFloat 7%float), 2%Z, [0; 4]%float, [4; 9]%float.
    split_and!; try (vm_compute; reflexivity).
    intros [|[|run]] Hrun.
    - exists 0%float, 4%float. split_and!; [done..|]. vm_compute. lia.
    - exists 4%float, 9%float. split_and!; [done..|]. vm_compute. lia.
    - simpl in Hrun. lia. }
  repeat constructor; exact H.
Qed.

(** Two sessions of two runs each, four saccades and four labels (C1). *)
Lemma extract_saccades_lengths_witness :
  (∃ saccades labels,
     extract_saccades_with_labels (λ v, v) arange_timevec example_pars
                                  example_sessions = Ok (saccades, labels) ∧
     length saccades = 4 ∧ length saccades = length labels)
  ∧ (∃ saccades labels,
       extract_saccades_with_labels (λ v, v) arange_timevec example_pars
                                    example_sessions = Ok (saccades, labels) ∧
       length saccades = length labels).
Proof.
  destruct (extract_saccades_lengths (λ v, v) arange_timevec example_pars)
    as (_ & Hlen & _ & Hret).
  split.
  - eexists _, _. split; [vm_compute; reflexivity|]. split; [reflexivity|].
    apply (Hlen example_sessions). vm_compute. reflexivity.
  - apply Hret.
    + intros values. exists values. split; reflexivity.
    + exact example_sessions_ready.
Defined.

(** A session whose only run lies after the end of the recording: no sample
    is selected, the gradient raises ValueError, and no pair is returned
    (C1). *)
Lemma extract_saccades_short_run_raises :
  extract_saccades_with_labels (λ v, v) arange_timevec example_pars
    [(example_positions, example_info 1 [20]%float [30]%float)]
  = Raise ValueError.
Proof. vm_compute. reflexivity. Qed.

(** The detector on a trace with three jumps (C2). *)
Lemma find_saccades_algorithm_witness :
  find_saccades example_x example_y 1%float (5%float, 100%float) 1
                identity_smooth = Ok [(2, 3); (5, 6); (9, 10)]
  ∧ in_band 5%float 100%float 5%float = true
  ∧ in_band 5%float 100%float 100%float = true.
Proof.
  destruct (find_saccades_algorithm example_x example_y 1%float 5%float
              100%float 1 identity_smooth eq_refl) as (H1 & _ & H3 & _).
  split; [rewrite H1; vm_compute; reflexivity|].
  apply H3. vm_compute. reflexivity.
Defined.

(** One sample in [x] and one in [y], with the identity as smoothing
    function: the shapes agree, yet the gradient raises ValueError and no
    island is returned (C2). *)
Lemma find_saccades_single_sample_raises :
  length [3%float] = length [4%float]
  ∧ find_saccades [3]%float [4]%float 1%float (5%float, 100%float) 1
                  identity_smooth = Raise ValueError.
Proof. split; [reflexivity|]. vm_compute. reflexivity. Qed.

(** The dose matrix [[1,0],[1,0],[0,1]] (C3). *)
Lemma get_unique_doses_categories_witness :
  get_unique_doses example_doses =
    ([(0, 1); (1, 0)]%float, [[2]; [0; 1]], [Some 1; Some 1; Some 0])
  ∧ length (get_unique_doses example_doses).1.1
      = length (distinct_rows example_doses)
  ∧ sum_list_with length (get_unique_doses example_doses).1.2 = 3.
Proof.
  split; [vm_compute; reflexivity|].
  assert (Forall (λ r, no_nan_row r = true) example_doses) as Hv
    by (repeat constructor).
  pose proof (get_unique_doses_categories example_doses Hv) as H.
  destruct (get_unique_doses example_doses) as [[u b] c].
  destruct H as (H1 & _ & _ & _ & _ & H6 & _). split; [exact H1|exact H6].
Defined.

(** A dose matrix of three sessions, the second with a NaN dose: its row
    equals no unique row, so session 1 lies in no bucket, its category stays
    NaN, and the bucket sizes add up to 2, not 3 (C3). *)
Lemma get_unique_doses_nan_row_unresolved :
  get_unique_doses nan_doses =
    ([(1, 0); (nan, 0)]%float, [[0; 2]; []], [Some 0; None; Some 0])
  ∧ sum_list_with length (get_unique_doses nan_doses).1.2 = 2
  ∧ length nan_doses = 3.
Proof. split_and!; vm_compute; reflexivity. Qed.

(** The run between 1 and 3 of a trace sampled at 1 Hz, and the four
    saccades of two sessions of two runs each, run by run (C4). *)
Lemma select_run_interval_witness :
  select_run example_positions (arange_timevec 11 1%float) 1%float 3%float
    = Ok [(0, 0); (10, 0)]%float
  ∧ (∃ startS stopS start stop,
      example_info 1 [0]%float [4]%float !! "startS" = Some (PFloats startS) ∧
      startS !! 0 = Some start ∧
      example_info 1 [0]%float [4]%float !! "stopS" = Some (PFloats stopS) ∧
      stopS !! 0 = Some stop ∧
      found_in_selection (λ v, v) example_pars 1%float
        (omap (λ i, example_positions !! i)
              (selected_indices (arange_timevec 11 1%float) start stop))
      = Ok [[(0, 0); (10, 0)]]%float)
  ∧ ∃ per_session,
      Forall2 (selected_per_run (λ v, v) arange_timevec example_pars)
              example_sessions per_session ∧
      length (concat (concat per_session)) = 4.
Proof.
  destruct (select_run_interval example_positions (arange_timevec 11 1%float)
              1%float 3%float) as (H1 & _ & _ & _ & H4 & H5).
  split_and!.
  - rewrite H1. vm_compute. reflexivity.
  - apply (H4 (λ v, v) example_pars 1%float
              (example_info 1 [0]%float [4]%float) 0).
    vm_compute. reflexivity.
  - assert (∃ saccades labels,
      extract_saccades_with_labels (λ v, v) arange_timevec example_pars
                                   example_sessions = Ok (saccades, labels) ∧
      length saccades = 4) as (saccades & labels & He & Hl).
    { eexists _, _. split; vm_compute; reflexivity. }
    destruct (proj1 (H5 (λ v, v) arange_timevec example_pars example_sessions
                        saccades) (ex_intro _ labels He))
      as (per_session & HF & ->).
    by exists per_session.
Defined.

(** The labels of two sessions of two runs each (C5). *)
Lemma extract_saccades_labels_witness :
  ∃ saccades labels (parts : list (list (saccade * label))),
    extract_saccades_with_labels (λ v, v) arange_timevec example_pars
                                 example_sessions = Ok (saccades, labels) ∧
    labels = [(PFloat 7, 1, 0); (PFloat 7, 1, 1);
              (PFloat 7, 2, 0); (PFloat 7, 2, 1)] ∧
    labels = (concat parts).*2 ∧ length parts = 2.
Proof.
  assert (∃ saccades labels,
    extract_saccades_with_labels (λ v, v) arange_timevec example_pars
                                 example_sessions = Ok (saccades, labels) ∧
    labels = [(PFloat 7, 1, 0); (PFloat 7, 1, 1);
              (PFloat 7, 2, 0); (PFloat 7, 2, 1)]) as (saccades & labels & H & Hl).
  { eexists _, _. split; vm_compute; reflexivity. }
  destruct (proj2 (extract_saccades_labels (λ v, v) arange_timevec example_pars
                     example_sessions) saccades labels H)
    as (parts & _ & Hlab & Hlen & _).
  exists saccades, labels, parts. done.
Defined.

(** Slices of the example trace; with a pixel-to-degree factor of 2 the
    saccade returned still holds the raw positions (C6). *)
Lemma extract_saccade_positions_inclusive_witness :
  extract_saccade_positions example_positions [(2, 3); (9, 10)] =
    [[(0, 0); (10, 0)]; [(0, 0); (20, 0)]]%float
  ∧ saccades_in_run (λ v, PrimFloat.mul v 2%float) example_pars
      example_positions (arange_timevec 11 1%float) 1%float
      (example_info 1 [0]%float [4]%float) 0 = Ok [[(0, 0); (10, 0)]]%float
  ∧ Forall (λ s, s `sublist_of` example_positions) [[(0, 0); (10, 0)]]%float.
Proof.
  destruct (extract_saccade_positions_inclusive (λ v, PrimFloat.mul v 2%float)
              example_pars) as [H1 H2].
  split; [rewrite H1; vm_compute; reflexivity|].
  assert (saccades_in_run (λ v, PrimFloat.mul v 2%float) example_pars
            example_positions (arange_timevec 11 1%float) 1%float
            (example_info 1 [0]%float [4]%float) 0
          = Ok [[(0, 0); (10, 0)]]%float) as E by (vm_compute; reflexivity).
  split; [exact E|].
  destruct (H2 _ _ _ _ _ _ E) as (? & ? & ? & ? & _ & _ & _ & HF). exact HF.
Defined.

(** Three samples against two, with a smoothing function that raises (C7). *)
Lemma find_saccades_shape_mismatch_witness :
  find_saccades [1; 2; 3]%float [1; 2]%float 1%float (5%float, 100%float) 1
                failing_smooth = Raise AssertionError.
Proof. apply find_saccades_shape_mismatch. simpl. lia. Defined.

(** Empty input with the identity as smoothing function (C8). *)
Lemma find_saccades_empty_input_witness :
  find_saccades [] [] 1000%float (30%float, 900%float) 3 identity_smooth
  = Raise ValueError.
Proof.
  apply (proj2 (find_saccades_empty_input 1000%float (30%float, 900%float) 3
                  identity_smooth) []); [reflexivity|simpl; lia].
Defined.

(** Empty [x] and [y] with the identity as smoothing function: ValueError,
    not the empty list (C8). *)
Lemma find_saccades_empty_input_raises :
  find_saccades [] [] 1%float (5%float, 100%float) 1 identity_smooth
    = Raise ValueError
  ∧ find_saccades [] [] 1%float (5%float, 100%float) 1 identity_smooth ≠ Ok [].
Proof. split; [vm_compute; reflexivity|]. vm_compute. discriminate. Qed.

(** Two session folders without any file (C9). *)
Lemma metadata_failures_substituted_witness :
  extract_meta_info empty_folder_env ["session_01"; "session_02"] =
    (concat (map (λ p, (meta_info_of_session empty_folder_env p).1)
                 ["session_01"; "session_02"]),
     map (λ p, (meta_info_of_session empty_folder_env p).2)
         ["session_01"; "session_02"])
  ∧ (meta_info_of_session empty_folder_env "session_01").2 !! "num_runs"
      = Some (PInt 0)
  ∧ (get_runs_data empty_folder_env "session_01").2 = ∅.
Proof.
  pose proof (metadata_failures_substituted empty_folder_env)
    as (H1 & _ & _ & H4 & _ & H6).
  split_and!.
  - apply H1.
  - apply (H4 "session_01"). vm_compute. reflexivity.
  - apply (H6 "session_01"). vm_compute. reflexivity.
Defined.

(** For a session folder without a runs file, [get_runs_data] returns a
    dictionary with no ['num_runs'], ['startS'] or ['stopS'] entry: neither a
    zero run count nor [None] fields (C9). *)
Lemma get_runs_data_no_zero_run_count :
  unusable (glob empty_folder_env ("session_01" +:+ "/*runs.mat"))
           (load_runs empty_folder_env) = true
  ∧ (get_runs_data empty_folder_env "session_01").2 !! "num_runs" = None
  ∧ (get_runs_data empty_folder_env "session_01").2 !! "startS" = None
  ∧ (get_runs_data empty_folder_env "session_01").2 !! "stopS" = None.
Proof. split_and!; vm_compute; reflexivity. Qed.

Lemma identity_smooth_keeps_length : keeps_length (smooth_func example_pars).
Proof. intros values. exists values. split; reflexivity. Qed.


(** The four saccades of the two example sessions hold two positions each
    (X4). *)
Lemma extract_saccades_sizes_witness :
  ∃ saccades labels,
    extract_saccades_with_labels (λ v, v) arange_timevec example_pars
                                 example_sessions = Ok (saccades, labels) ∧
    length saccades = 4 ∧
    Forall (λ s, 1 ≤ length s ∧ min_samples example_pars ≤ length s) saccades.
Proof.
  assert (∃ saccades labels,
    extract_saccades_with_labels (λ v, v) arange_timevec example_pars
                                 example_sessions = Ok (saccades, labels) ∧
    length saccades = 4) as (saccades & labels & He & Hl).
  { eexists _, _. split; vm_compute; reflexivity. }
  exists saccades, labels. split_and!; [done..|].
  exact (extract_saccades_sizes (λ v, v) arange_timevec example_pars
           example_sessions saccades labels identity_smooth_keeps_length He).
Defined.

(** A session from a folder without runs file before the two example
    sessions: no saccade from it, and the labels of the two sessions carry
    the session numbers 2 and 3 (X6). *)
Lemma sessions_without_runs_are_counted_witness :
  extract_saccades_with_labels (λ v, v) arange_timevec example_pars
    (map (pipeline_session empty_folder_env) [example_spec example_positions])
    = Ok ([], [])
  ∧ ∃ saccades labels,
      extract_saccades_with_labels (λ v, v) arange_timevec example_pars
        (map (pipeline_session empty_folder_env)
             [example_spec example_positions] ++ example_sessions)
        = Ok (saccades, labels) ∧
      labels.*1.*2 = [2; 2; 3; 3].
Proof.
  destruct (sessions_without_runs_are_counted empty_folder_env (λ v, v)
              arange_timevec example_pars [example_spec example_positions]
              example_sessions) as [H1 H2].
  { repeat constructor. }
  split; [exact H1|].
  assert (∃ saccades labels,
    extract_saccades_with_labels (λ v, v) arange_timevec example_pars
                                 example_sessions = Ok (saccades, labels) ∧
    (map (shift_ordinal 1) labels).*1.*2 = [2; 2; 3; 3])
    as (saccades & labels & He & Hl).
  { eexists _, _. split; vm_compute; reflexivity. }
  rewrite He in H2. by exists saccades, (map (shift_ordinal 1) labels).
Defined.

(** A session built from an empty folder: with eleven samples that all
    count as fixation the fixation extraction raises KeyError, with no
    sample it returns [None] (X7). *)
Lemma extract_fixations_pipeline_sessions_witness :
  extract_fixations_with_labels (λ v, v) arange_timevec always_fixating
    (map (pipeline_session empty_folder_env) [example_spec example_positions])
    = Raise KeyError
  ∧ extract_fixations_with_labels (λ v, v) arange_timevec always_fixating
      (map (pipeline_session empty_folder_env) [example_spec []])
    = Ok PNone.
Proof.
  split.
  - rewrite (extract_fixations_pipeline_sessions empty_folder_env (λ v, v)
               arange_timevec always_fixating [example_spec example_positions]).
    + vm_compute. reflexivity.
    + repeat constructor. by eexists.
  - rewrite (extract_fixations_pipeline_sessions empty_folder_env (λ v, v)
               arange_timevec always_fixating [example_spec []]).
    + vm_compute. reflexivity.
    + repeat constructor. by eexists.
Defined.

(** Three folders with one gaze file each, loaded in the order 2, 0, 1:
    three sessions, nothing printed, and the caller's three dictionaries
    updated (X8). *)
Lemma extract_labelled_updates_in_place_witness :
  ∃ out updated sessions,
    extract_labelled_gaze_positions_m1 example_gaze_env
      [(0, 1); (1, 0)]%float [[2]; [0; 1]]%Z example_meta_info_list
      example_session_paths (map category_value [Some 1; Some 1; Some 0])
      = Ok (out, updated, sessions) ∧
    out = [] ∧ length sessions = 3 ∧
    updated_from example_meta_info_list updated ∧
    Forall (λ session, ∃ sr, session.2 !! "sampling_rate" = Some (PFloat sr))
           sessions.
Proof.
  destruct (extract_labelled_gaze_positions_m1 example_gaze_env
      [(0, 1); (1, 0)]%float [[2]; [0; 1]]%Z example_meta_info_list
      example_session_paths (map category_value [Some 1; Some 1; Some 0]))
    as [[[out updated] sessions]|e] eqn:He.
  - pose proof (f_equal (λ r, match r with
                              | Ok (o, _, l) => Some (o, length l)
                              | Raise _ => None
                              end) He) as Hc.
    vm_compute in Hc. injection Hc as Ho Hl.
    change (3 = length sessions) in Hl. subst out.
    exists [], updated, sessions. split_and!; [done..| |].
    + exact (proj1 (extract_labelled_updates_in_place _ _ _ _ _ _ _ _ _ He)).
    + destruct (extract_labelled_updates_in_place _ _ _ _ _ _ _ _ _ He)
        as (_ & places & HF & _).
      apply Forall_forall. intros session Hs.
      apply list_elem_of_lookup in Hs as [k Hk].
      destruct (Forall2_lookup_r _ _ _ _ _ HF Hk)
        as (place & _ & original & sr & category & _ & _ & Hsr & _).
      by exists sr.
  - pose proof (f_equal (λ r, match r with
                              | Ok (o, _, l) => Some (o, length l)
                              | Raise _ => None
                              end) He) as Hc.
    vm_compute in Hc. discriminate Hc.
Defined.

Lemma example_folders_load :
  Forall (folder_loads example_gaze_env) example_session_paths.
Proof.
  repeat constructor;
    by exists ["s01_M1_gaze.mat"; "s01_runs.mat"], "s01_M1_gaze.mat",
              1000%float, [(1, 3); (2, 4)]%float.
Qed.

